(** * Workload identity hook of the allocation runner

    A shallow embedding of [client/allocrunner/identity_hook.go]: the
    [identityHook] with its [Prerun], [Stop], [Shutdown], [getIdentities]
    and [renew] methods.

    The hook talks to a signer, to the token sinks, to the clock, to the
    random source and to the goroutines that stop it.  All of them are
    gathered in an environment [Env] of answers, indexed by the number of the
    call; the hook is a state transformer that records what it does in a
    trace of [Event]s. *)

From Stdlib Require Import ZArith Lia Bool List.
From stdpp Require Import base strings list gmap.

Open Scope Z_scope.

(** ** Go's [time] package, as far as the hook uses it *)

(** A [time.Duration] is an [int64] count of nanoseconds.  A [time.Time] is
    an instant, counted here in nanoseconds from Go's zero time (January 1,
    year 1, UTC), so that [time.Time{}] is [0]. *)
Abbreviation Duration := Z (only parsing).
Abbreviation Time := Z (only parsing).

Definition Nanosecond : Duration := 1.
Definition Second : Duration := 1000000000 * Nanosecond.
Definition Hour : Duration := 3600 * Second.

(** Wrap-around of [int64] and [uint64] arithmetic. *)
Definition wrap_int64 (z : Z) : Z := (z + 2 ^ 63) mod 2 ^ 64 - 2 ^ 63.
Definition wrap_uint64 (z : Z) : Z := z mod 2 ^ 64.

(** [a + b] on [time.Duration]. *)
Definition dur_add (a b : Duration) : Duration := wrap_int64 (a + b).
(** [n++] and [n+1] on [uint64]. *)
Definition u64_succ (n : Z) : Z := wrap_uint64 (n + 1).

Definition zeroTime : Time := 0.
Definition time_Add (t : Time) (d : Duration) : Time := t + d.
Definition time_Before (t u : Time) : bool := t <? u.
Definition time_IsZero (t : Time) : bool := t =? 0.

(** ** Data model ([nomad/structs]) *)

Record WorkloadIdentity := mkWID {
  wid_Name : string;
  wid_TTL : Duration;
}.

Record Task := mkTask {
  task_Name : string;
  task_Identities : list WorkloadIdentity;
}.

Record Allocation := mkAlloc {
  alloc_ID : string;
  alloc_CreateIndex : Z;
}.

Record WorkloadIdentityRequest := mkReq {
  req_AllocID : string;
  req_TaskName : string;
  req_IdentityName : string;
}.

Record SignedWorkloadIdentity := mkSigned {
  swi_IdentityName : string;
  swi_JWT : string;
  swi_Expiration : Time;
}.

(** Go [error] values: a message, or an error wrapped by [fmt.Errorf] with
    the verb [%w]. *)
Inductive error :=
| errorString (msg : string)
| wrapError (prefix : string) (err : error).

(** ** The hook *)

(** The fields of [identityHook] that its methods read.  A task runner whose
    [Task()] is [nil] is [None]. *)
Record identityHook := mkHook {
  ar_alloc : Allocation;
  ar_tasks : list (option Task);
  minWait : Duration;
}.

(** The two methods through which other goroutines cancel [stopCtx]. *)
Inductive HookCall := CallStop | CallShutdown.

Inductive Level := LTrace | LDebug | LWarn | LError.

(** What the hook does to the outside, in order. *)
Inductive Event :=
| EvSignIdentities (minIndex : Z) (req : list WorkloadIdentityRequest)
| EvSetSignedTaskIdentities (m : option (gmap string string))
| EvGoRenew (createIndex : Z) (signedWIDs : gmap string SignedWorkloadIdentity)
| EvTimerReset (wait : Duration)
| EvSetAltToken (widspec : WorkloadIdentity) (jwt : string)
| EvLog (lvl : Level) (msg : string).

(** The answers of the outside.  [sign_at k] answers the [k]-th call of
    [SignIdentities], [setAlt_at k] the [k]-th call of [setAltToken] ([None]
    is a [nil] error); [now_at k] is the [k]-th reading of [time.Now] and
    [rand_at k] the [k]-th draw of the random source.  [calls_at k] are the
    [Stop] and [Shutdown] calls of other goroutines that land before the
    hook looks at [stopCtx] for the [k]-th time, and [timer_wins_at k] tells
    whether the [select] takes the timer when [stopCtx] is done as well. *)
Record Env := mkEnv {
  now_at : nat -> Time;
  rand_at : nat -> Z;
  sign_at : nat -> Z -> list WorkloadIdentityRequest ->
            list SignedWorkloadIdentity + error;
  setAlt_at : nat -> WorkloadIdentity -> string -> option error;
  calls_at : nat -> list HookCall;
  timer_wins_at : nat -> bool;
}.

(** The mutable state: whether [stopCtx] is cancelled, how many answers of
    each kind were consumed, and the trace so far (latest event last). *)
Record St := mkSt {
  stopped : bool;
  n_now : nat;
  n_rand : nat;
  n_sign : nat;
  n_setAlt : nat;
  n_ctx : nat;
  trace : list Event;
}.

Definition initSt : St := mkSt false 0 0 0 0 0 [].

(** A small state monad, with stdpp's notations [x ← m; k] and [m;; k]. *)
Definition M (A : Type) : Type := St -> A * St.

Definition ret {A} (a : A) : M A := fun st => (a, st).
Definition bind {A B} (m : M A) (k : A -> M B) : M B :=
  fun st => let (a, st') := m st in k a st'.

#[global] Instance M_ret : MRet M := @ret.
#[global] Instance M_bind : MBind M := fun A B k m => bind m k.

Definition emit (e : Event) : M unit := fun st =>
  (tt, mkSt (stopped st) (n_now st) (n_rand st) (n_sign st) (n_setAlt st)
            (n_ctx st) (trace st ++ [e])).

Definition log (lvl : Level) (msg : string) : M unit := emit (EvLog lvl msg).

(** [h.stop()]: cancelling a context again does nothing more. *)
Definition stop : M unit := fun st =>
  (tt, mkSt true (n_now st) (n_rand st) (n_sign st) (n_setAlt st)
            (n_ctx st) (trace st)).

(** [Stop] implements [interfaces.TaskStopHook]; its arguments are unused. *)
Definition Stop : M (option error) := stop;; mret None.

(** [Shutdown] implements [interfaces.ShutdownHook]. *)
Definition Shutdown : M unit := stop.

Definition runCall (c : HookCall) : M unit :=
  match c with
  | CallStop => Stop;; mret tt
  | CallShutdown => Shutdown
  end.

Fixpoint runCalls (cs : list HookCall) : M unit :=
  match cs with
  | [] => mret tt
  | c :: cs' => runCall c;; runCalls cs'
  end.

Section Hook.

Variable env : Env.
Variable h : identityHook.

(** [time.Now()] *)
Definition now : M Time := fun st =>
  (now_at env (n_now st),
   mkSt (stopped st) (S (n_now st)) (n_rand st) (n_sign st) (n_setAlt st)
        (n_ctx st) (trace st)).

(** One draw of the random source. *)
Definition rand : M Z := fun st =>
  (rand_at env (n_rand st),
   mkSt (stopped st) (n_now st) (S (n_rand st)) (n_sign st) (n_setAlt st)
        (n_ctx st) (trace st)).

(** [widmgr.SignIdentities(minIndex, req)] *)
Definition SignIdentities (minIndex : Z) (req : list WorkloadIdentityRequest)
  : M (list SignedWorkloadIdentity + error) := fun st =>
  (sign_at env (n_sign st) minIndex req,
   mkSt (stopped st) (n_now st) (n_rand st) (S (n_sign st)) (n_setAlt st)
        (n_ctx st) (trace st ++ [EvSignIdentities minIndex req])).

(** [h.setAltToken(widspec, jwt)] *)
Definition setAltToken (widspec : WorkloadIdentity) (jwt : string)
  : M (option error) := fun st =>
  (setAlt_at env (n_setAlt st) widspec jwt,
   mkSt (stopped st) (n_now st) (n_rand st) (n_sign st) (S (n_setAlt st))
        (n_ctx st) (trace st ++ [EvSetAltToken widspec jwt])).

(** The calls of other goroutines that land before the hook looks at
    [stopCtx]. *)
Definition interleave : M unit := fun st =>
  runCalls (calls_at env (n_ctx st)) st.

Definition tick_ctx : M nat := fun st =>
  (n_ctx st,
   mkSt (stopped st) (n_now st) (n_rand st) (n_sign st) (n_setAlt st)
        (S (n_ctx st)) (trace st)).

Definition get_stopped : M bool := fun st => (stopped st, st).

(** [h.stopCtx.Err()]: [true] for a non-nil error. *)
Definition stopCtx_Err : M bool :=
  interleave;; _ ← tick_ctx; get_stopped.

(** The [select] over [timer.C] and [h.stopCtx.Done()]: [true] when the
    timer case runs, [false] when the [Done] case runs.  The [Done] case can
    only run on a cancelled context; when both are ready the choice is the
    scheduler's. *)
Definition select_timer_or_done : M bool :=
  interleave;; k ← tick_ctx; s ← get_stopped;
  mret (if (s : bool) then timer_wins_at env k else true).

(** *** [getIdentities] *)

Definition requestFor (alloc : Allocation) (task : Task) (widspec : WorkloadIdentity)
  : WorkloadIdentityRequest :=
  {| req_AllocID := alloc_ID alloc;
     req_TaskName := task_Name task;
     req_IdentityName := wid_Name widspec |}.

(** Index workload identities by name. *)
Definition indexByName (signedWIDs : list SignedWorkloadIdentity) : gmap string string :=
  fold_left (fun widMap wid => <[swi_IdentityName wid := swi_JWT wid]> widMap)
            signedWIDs ∅.

(** The Go result [(nil, nil)] is [inl None], [(widMap, nil)] is
    [inl (Some widMap)] and [(nil, err)] is [inr err]. *)
Definition getIdentities (alloc : Allocation) (task : Task)
  : M (option (gmap string string) + error) :=
  if (length (task_Identities task) =? 0)%nat then mret (inl None)
  else
    let req := map (requestFor alloc task) (task_Identities task) in
    r ← SignIdentities (alloc_CreateIndex alloc) req;
    match r with
    | inr err => mret (inr err)
    | inl signedWIDs => mret (inl (Some (indexByName signedWIDs)))
    end.

(** *** [Prerun] *)

(** The [range] loop over [h.ar.tasks]: [Some err] when [Prerun] returns
    from inside the loop. *)
Fixpoint Prerun_tasks (ts : list (option Task)) : M (option error) :=
  match ts with
  | [] => mret None
  | None :: ts' => Prerun_tasks ts'
  | Some task :: ts' =>
      r ← getIdentities (ar_alloc h) task;
      match r with
      | inr err =>
          mret (Some (wrapError "error fetching alternate identities: " err))
      | inl signedWIDs =>
          emit (EvSetSignedTaskIdentities signedWIDs);; Prerun_tasks ts'
      end
  end.

(** The map [signedWIDs] declared at the top of [Prerun] is the one handed
    to [renew]: the [signedWIDs] assigned inside the loop is a new variable
    of the loop body.  (In the source the outer map has string values while
    [renew] takes signed identities; the empty map is the only value it ever
    holds.) *)
Definition Prerun : M (option error) :=
  let signedWIDs : gmap string SignedWorkloadIdentity := ∅ in
  r ← Prerun_tasks (ar_tasks h);
  match r with
  | Some err => mret (Some err)
  | None =>
      emit (EvGoRenew (alloc_CreateIndex (ar_alloc h)) signedWIDs);; mret None
  end.

End Hook.

(** ** The [helper] package

    [renew] calls [helper.ExpiryToRenewTime], [helper.Backoff] and
    [helper.RandomStagger].  Their results are functions of their arguments,
    of the reading of the clock ([ExpiryToRenewTime] is handed [time.Now])
    and of a draw of the random source. *)
Class Helper := mkHelper {
  (** [ExpiryToRenewTime exp t r minWait]: [t] is what [now()] returned and
      [r] the random draw. *)
  ExpiryToRenewTime : Time -> Time -> Z -> Duration -> Duration;
  (** [Backoff backoffBase backoffLimit attempt] *)
  Backoff : Duration -> Duration -> Z -> Duration;
  (** [RandomStagger intv r]: [r] is the random draw. *)
  RandomStagger : Duration -> Z -> Duration;
}.

(** What the specification promises of the three helpers. *)
Class HelperContract (helper : Helper) : Prop := {
  (** the renewal time is never below the floor *)
  renew_floor : forall exp t r minWait,
    minWait <= ExpiryToRenewTime exp t r minWait;
  (** the renewal time leaves slack before the expiration, where the floor
      leaves room for it *)
  renew_slack : forall exp t r minWait,
    0 < minWait -> 2 * minWait <= exp - t ->
    ExpiryToRenewTime exp t r minWait < exp - t;
  (** the backoff lies between the floor and the ceiling *)
  backoff_floor : forall base limit attempt,
    0 < base <= limit -> 0 <= attempt -> base <= Backoff base limit attempt;
  backoff_limit : forall base limit attempt,
    0 < base <= limit -> Backoff base limit attempt <= limit;
  (** the backoff grows with the retry count, by at least the floor at each
      retry while it is below the ceiling *)
  backoff_mono : forall base limit attempt attempt',
    0 < base <= limit -> 0 <= attempt <= attempt' ->
    Backoff base limit attempt <= Backoff base limit attempt';
  backoff_grows : forall base limit attempt,
    0 < base <= limit -> 0 <= attempt ->
    Backoff base limit (attempt + 1) < limit ->
    Backoff base limit attempt + base <= Backoff base limit (attempt + 1);
  (** the jitter is bounded by its argument *)
  stagger_range : forall intv r, 0 < intv -> 0 <= RandomStagger intv r < intv;
}.

(** Modelled from the spec: [helper.RandomStagger] is not among the sources.
    The specification calls it a bounded random jitter scaled to the floor:
    the draw, reduced to the interval from zero to [intv]. *)
Definition spec_RandomStagger (intv : Duration) (r : Z) : Duration :=
  if intv <=? 0 then 0 else r mod intv.

(** Modelled from the spec: [helper.Backoff] is not among the sources.  The
    specification calls it a capped exponential backoff that grows
    monotonically with the retry count up to the ceiling: the base is
    doubled at each retry and cut at the limit. *)
Definition spec_Backoff (base limit : Duration) (attempt : Z) : Duration :=
  Z.min limit (base * 2 ^ attempt).

(** Modelled from the spec: [helper.ExpiryToRenewTime] is not among the
    sources.  The specification says that it leaves slack before the
    expiration, never returns less than the floor and includes a bounded
    random jitter scaled to the floor: half of the time that is left, at
    least the floor, plus the jitter. *)
Definition spec_ExpiryToRenewTime (exp t : Time) (r : Z) (minWait : Duration)
  : Duration :=
  Z.max minWait ((exp - t) / 2) + spec_RandomStagger minWait r.

Definition spec_helper : Helper :=
  mkHelper spec_ExpiryToRenewTime spec_Backoff spec_RandomStagger.

(** ** [renew] *)

(** How a call of [renew] ends: it returns, it dereferences a [nil] task, or
    it is still in its renewal loop when the cycles we look at are over; the
    loop then stands before its next cycle with the given [wait], [retry]
    and [minExp]. *)
Inductive Outcome :=
| Returned
| Panicked
| Running (wait : Duration) (retry : Z) (minExp : Time).

(** How one cycle of the renewal loop ends: [continue] (or the end of the
    body) with the new values of the loop variables, or [return]. *)
Inductive Step :=
| Continue (wait : Duration) (retry : Z) (minExp : Time)
| Return.

(** How one turn of the loop over the task runners ends. *)
Inductive Iter :=
| Next
| Done (o : Outcome).

(** The variables that the loop over [wids] sets. *)
Record Scan := mkScan {
  sc_reqs : list WorkloadIdentityRequest;
  sc_renewNow : bool;
  sc_minExp : Time;
  sc_widMap : gmap string WorkloadIdentity;
}.

Section Renew.

Variable env : Env.
Context {helper : Helper}.
Variable h : identityHook.

Definition expiryToRenewTime (exp : Time) (minWait : Duration) : M Duration :=
  t ← now env; r ← rand env; mret (ExpiryToRenewTime exp t r minWait).

Definition randomStagger (intv : Duration) : M Duration :=
  r ← rand env; mret (RandomStagger intv r).

(** The loop [for _, wid := range wids]. *)
Fixpoint scanIdentities (alloc : Allocation) (task : Task)
    (signedWIDs : gmap string SignedWorkloadIdentity)
    (wids : list WorkloadIdentity) (sc : Scan) : M Scan :=
  match wids with
  | [] => mret sc
  | wid :: wids' =>
      if wid_TTL wid =? 0 then
        (* No ttl, so no need to renew it *)
        scanIdentities alloc task signedWIDs wids' sc
      else
        let widMap := <[wid_Name wid := wid]> (sc_widMap sc) in
        let reqs := sc_reqs sc ++ [requestFor alloc task wid] in
        match signedWIDs !! wid_Name wid with
        | None =>
            log LTrace "missing token for identity";;
            scanIdentities alloc task signedWIDs wids'
              (mkScan reqs true (sc_minExp sc) widMap)
        | Some sid =>
            let minExp :=
              if time_Before (swi_Expiration sid) (sc_minExp sc)
              then swi_Expiration sid else sc_minExp sc in
            scanIdentities alloc task signedWIDs wids'
              (mkScan reqs (sc_renewNow sc) minExp widMap)
        end
  end.

(** The loop [for _, token := range tokens] of a cycle; [retry] is the retry
    counter of the cycle and the result is the new [minExp]. *)
Fixpoint applyTokens (widMap : gmap string WorkloadIdentity) (retry : Z)
    (tokens : list SignedWorkloadIdentity) (minExp : Time) : M Time :=
  match tokens with
  | [] => mret minExp
  | token :: tokens' =>
      match widMap !! swi_IdentityName token with
      | None =>
          log LWarn "bug: unexpected workload identity received";;
          applyTokens widMap retry tokens' minExp
      | Some widspec =>
          err ← setAltToken env widspec (swi_JWT token);
          match err with
          | Some _ =>
              (* Set minExp using retry's backoff logic *)
              t ← now env;
              stagger ← randomStagger (minWait h);
              log LError "error setting new workload identity";;
              applyTokens widMap retry tokens'
                (time_Add t (dur_add (Backoff (minWait h) Hour (u64_succ retry)) stagger))
          | None =>
              (* Set next expiration time *)
              applyTokens widMap retry tokens'
                (if time_IsZero minExp then swi_Expiration token
                 else if time_Before (swi_Expiration token) minExp
                      then swi_Expiration token else minExp)
          end
      end
  end.

(** The two failure branches of a cycle are the same statements. *)
Definition cycleFailed (retry : Z) (minExp : Time) : M Step :=
  let retry := u64_succ retry in
  stagger ← randomStagger (minWait h);
  let wait := dur_add (Backoff (minWait h) Hour retry) stagger in
  log LError "error renewing workload identities";;
  mret (Continue wait retry minExp).

(** The body of the renewal loop. *)
Definition cycle (createIndex : Z) (reqs : list WorkloadIdentityRequest)
    (widMap : gmap string WorkloadIdentity)
    (wait : Duration) (retry : Z) (minExp : Time) : M Step :=
  log LDebug "waiting to renew identities";;
  emit (EvTimerReset wait);;
  fired ← select_timer_or_done env;
  if (fired : bool) then
    log LTrace "getting new signed identities";;
    (* Renew all tokens together since its cheap *)
    r ← SignIdentities env createIndex reqs;
    match r with
    | inr _ => cycleFailed retry minExp
    | inl tokens =>
        if (length tokens =? 0)%nat then cycleFailed retry minExp
        else
          (* Reset next expiration time *)
          minExp ← applyTokens widMap retry tokens zeroTime;
          (* Success! Set next renewal and reset retries *)
          wait ← expiryToRenewTime minExp (minWait h);
          mret (Continue wait 0 minExp)
    end
  else mret Return.

(** The renewal loop [for err := h.stopCtx.Err(); err == nil; { ... }], once
    its condition held.  The condition reads the [err] of the [for] clause,
    which nothing assigns: the [err] of the body is a variable of the body.
    So the loop only ends by the [return] of a cycle.  [fuel] bounds the
    number of cycles we look at. *)
Fixpoint cycles (fuel : nat) (createIndex : Z)
    (reqs : list WorkloadIdentityRequest) (widMap : gmap string WorkloadIdentity)
    (wait : Duration) (retry : Z) (minExp : Time) : M Outcome :=
  match fuel with
  | O => mret (Running wait retry minExp)
  | S fuel' =>
      s ← cycle createIndex reqs widMap wait retry minExp;
      match s with
      | Return => mret Returned
      | Continue wait' retry' minExp' =>
          cycles fuel' createIndex reqs widMap wait' retry' minExp'
      end
  end.

(** The body of the loop [for _, t := range h.ar.tasks] of [renew], for the
    task runner [t]: either [renew] is over ([Done]), or the body reached
    its end and the loop goes on to the next task runner ([Next]). *)
Definition renew_task (fuel : nat) (createIndex : Z)
    (signedWIDs : gmap string SignedWorkloadIdentity)
    (t : option Task) : M Iter :=
  match t with
  | None => mret (Done Panicked)
  | Some task =>
      let alloc := ar_alloc h in
      let wids := task_Identities task in
      if (length wids =? 0)%nat then
        log LTrace "no workload identities to renew";; mret (Done Returned)
      else
        t0 ← now env;
        (* set high default expiration *)
        sc ← scanIdentities alloc task signedWIDs wids
               (mkScan [] false (time_Add t0 (30 * Hour)) ∅);
        if (length (sc_reqs sc) =? 0)%nat then
          log LTrace "no workload identities expire";; mret (Done Returned)
        else
          wait ← (if negb (sc_renewNow sc)
                  then expiryToRenewTime (sc_minExp sc) (minWait h)
                  else mret 0);
          err ← stopCtx_Err env;
          if (err : bool) then
            (* the condition of the renewal loop fails at once *)
            mret Next
          else
            o ← cycles fuel createIndex (sc_reqs sc) (sc_widMap sc)
                  wait 0 (sc_minExp sc);
            mret (Done o)
  end.

Fixpoint renew_tasks (fuel : nat) (createIndex : Z)
    (signedWIDs : gmap string SignedWorkloadIdentity)
    (ts : list (option Task)) : M Outcome :=
  match ts with
  | [] => mret Returned
  | t :: ts' =>
      i ← renew_task fuel createIndex signedWIDs t;
      match i with
      | Done o => mret o
      | Next => renew_tasks fuel createIndex signedWIDs ts'
      end
  end.

Definition renew (fuel : nat) (createIndex : Z)
    (signedWIDs : gmap string SignedWorkloadIdentity) : M Outcome :=
  renew_tasks fuel createIndex signedWIDs (ar_tasks h).

End Renew.

(** ** Reading traces *)


(** The signing calls of a trace, in order. *)
Fixpoint sign_calls (evs : list Event) : list (Z * list WorkloadIdentityRequest) :=
  match evs with
  | [] => []
  | EvSignIdentities minIndex req :: evs' => (minIndex, req) :: sign_calls evs'
  | _ :: evs' => sign_calls evs'
  end.

(** The renewal loops that were started, in order. *)
Fixpoint go_calls (evs : list Event)
  : list (Z * gmap string SignedWorkloadIdentity) :=
  match evs with
  | [] => []
  | EvGoRenew createIndex signedWIDs :: evs' =>
      (createIndex, signedWIDs) :: go_calls evs'
  | _ :: evs' => go_calls evs'
  end.

(** The waits that the timer was reset to, in order. *)
Fixpoint timer_resets (evs : list Event) : list Duration :=
  match evs with
  | [] => []
  | EvTimerReset wait :: evs' => wait :: timer_resets evs'
  | _ :: evs' => timer_resets evs'
  end.

(** [m] is the name-to-token map of the signed identities [signedWIDs]: it
    is not [nil], it binds the name of every one of them to its token, to
    the token of the last one when several bear a name, and it binds no
    other name. *)
Definition token_map_of (signedWIDs : list SignedWorkloadIdentity)
    (m : option (gmap string string)) : Prop :=
  exists widMap,
    m = Some widMap
    /\ forall name,
         widMap !! name
         = swi_JWT <$> last (filter (fun wid => swi_IdentityName wid = name)
                                    signedWIDs).

(** Every signing call of [evs] was answered with signed identities, and is
    followed at once by the publication of their name-to-token map; [k] is
    the number of the first signing call of [evs]. *)
Fixpoint well_published (env : Env) (k : nat) (evs : list Event) : Prop :=
  match evs with
  | [] => True
  | EvSignIdentities minIndex req :: evs' =>
      match sign_at env k minIndex req, evs' with
      | inl signedWIDs, EvSetSignedTaskIdentities m :: evs'' =>
          token_map_of signedWIDs m /\ well_published env (S k) evs''
      | _, _ => False
      end
  | _ :: evs' => well_published env k evs'
  end.

(** The signing requests that [Prerun] makes when no call fails: one for
    each task with identities, for all its identities. *)
Definition initial_requests (alloc : Allocation) (ts : list (option Task))
  : list (Z * list WorkloadIdentityRequest) :=
  omap (fun t : option Task =>
          match t with
          | Some task =>
              if (length (task_Identities task) =? 0)%nat then None
              else Some (alloc_CreateIndex alloc,
                         map (requestFor alloc task) (task_Identities task))
          | None => None
          end) ts.

Definition is_log (e : Event) : bool :=
  match e with EvLog _ _ => true | _ => false end.

(** The state after more events. *)
Definition add_events (st : St) (new : list Event) : St :=
  mkSt (stopped st) (n_now st) (n_rand st) (n_sign st) (n_setAlt st)
       (n_ctx st) (trace st ++ new).

(** The identities that [renew] asks to renew: those with a TTL. *)
Definition candidates (wids : list WorkloadIdentity) : list WorkloadIdentity :=
  List.filter (fun wid => negb (wid_TTL wid =? 0)) wids.

(** The one request of the renewal loop of a task. *)
Definition renewal_requests (alloc : Allocation) (task : Task)
  : list WorkloadIdentityRequest :=
  map (requestFor alloc task) (candidates (task_Identities task)).

(** What the loop over [wids] computes, and what it logs. *)
Fixpoint scan_result (alloc : Allocation) (task : Task)
    (signedWIDs : gmap string SignedWorkloadIdentity)
    (wids : list WorkloadIdentity) (sc : Scan) : Scan :=
  match wids with
  | [] => sc
  | wid :: wids' =>
      if wid_TTL wid =? 0 then scan_result alloc task signedWIDs wids' sc
      else
        let widMap := <[wid_Name wid := wid]> (sc_widMap sc) in
        let reqs := sc_reqs sc ++ [requestFor alloc task wid] in
        match signedWIDs !! wid_Name wid with
        | None =>
            scan_result alloc task signedWIDs wids'
              (mkScan reqs true (sc_minExp sc) widMap)
        | Some sid =>
            scan_result alloc task signedWIDs wids'
              (mkScan reqs (sc_renewNow sc)
                 (if time_Before (swi_Expiration sid) (sc_minExp sc)
                  then swi_Expiration sid else sc_minExp sc) widMap)
        end
  end.

Fixpoint scan_logs (signedWIDs : gmap string SignedWorkloadIdentity)
    (wids : list WorkloadIdentity) : list Event :=
  match wids with
  | [] => []
  | wid :: wids' =>
      if wid_TTL wid =? 0 then scan_logs signedWIDs wids'
      else match signedWIDs !! wid_Name wid with
           | None => EvLog LTrace "missing token for identity"
                     :: scan_logs signedWIDs wids'
           | Some _ => scan_logs signedWIDs wids'
           end
  end.

(** The events of a renewal loop that asks for [reqs] with [createIndex]:
    logs, resets of the timer, writes to the sinks, and signing calls for
    exactly these requests. *)
Definition renewal_event (createIndex : Z) (reqs : list WorkloadIdentityRequest)
    (e : Event) : Prop :=
  match e with
  | EvSignIdentities minIndex req => minIndex = createIndex /\ req = reqs
  | EvLog _ _ | EvTimerReset _ | EvSetAltToken _ _ => True
  | EvSetSignedTaskIdentities _ | EvGoRenew _ _ => False
  end.

(** Events that are only logs. *)
Definition quiet (e : Event) : Prop := is_log e = true.

(** [st'] comes after [st]: its trace has grown by events that satisfy [P],
    and a cancelled [stopCtx] stays cancelled. *)
Definition grows (P : Event -> Prop) (st st' : St) : Prop :=
  exists new,
    trace st' = trace st ++ new /\ Forall P new
    /\ (stopped st = true -> stopped st' = true).

(** A computation that only emits events that satisfy [P]. *)
Definition emits (P : Event -> Prop) {A} (m : M A) : Prop :=
  forall st, grows P st (m st).2.

(** The values of the loop over the identities of [task], when the clock
    read [t0] before it. *)
Definition scan_of (alloc : Allocation) (task : Task)
    (signedWIDs : gmap string SignedWorkloadIdentity) (t0 : Time) : Scan :=
  scan_result alloc task signedWIDs (task_Identities task)
    (mkScan [] false (time_Add t0 (30 * Hour)) ∅).

(** The state in which a cycle that starts in [st] with [wait] sleeps: the
    wait is logged and the timer reset. *)
Definition asleep (st : St) (wait : Duration) : St :=
  add_events st [EvLog LDebug "waiting to renew identities"; EvTimerReset wait].

(** The wait that a failed cycle computes, from the retry counter that it
    started with and the random draw. *)
Definition failure_wait {helper : Helper} (h : identityHook) (retry r : Z)
  : Duration :=
  dur_add (Backoff (minWait h) Hour (u64_succ retry)) (RandomStagger (minWait h) r).

(** The wait that [renew] computes before its renewal loop, for the first
    task [task], in the state [st]: nothing when a candidate has no signed
    identity, else the renewal time of the expiration found by the loop over
    the identities.  The clock is read once before that loop and once by
    [ExpiryToRenewTime]. *)
Definition first_wait (env : Env) {helper : Helper} (h : identityHook)
    (task : Task) (signedWIDs : gmap string SignedWorkloadIdentity) (st : St)
  : Duration :=
  let sc := scan_of (ar_alloc h) task signedWIDs (now_at env (n_now st)) in
  if sc_renewNow sc then 0
  else ExpiryToRenewTime (sc_minExp sc) (now_at env (S (n_now st)))
         (rand_at env (n_rand st)) (minWait h).

(** The environment [env] with other calls of [Stop] and [Shutdown]. *)
Definition with_calls (env : Env) (calls : nat -> list HookCall) : Env :=
  mkEnv (now_at env) (rand_at env) (sign_at env) (setAlt_at env) calls
        (timer_wins_at env).

(** The writes to the sinks, in order. *)
Fixpoint setAlt_calls (evs : list Event) : list (WorkloadIdentity * string) :=
  match evs with
  | [] => []
  | EvSetAltToken widspec jwt :: evs' => (widspec, jwt) :: setAlt_calls evs'
  | _ :: evs' => setAlt_calls evs'
  end.

(** A signing call that makes the cycle fail: an error, or no signed
    identity at all. *)
Definition failed (r : list SignedWorkloadIdentity + error) : Prop :=
  match r with
  | inr _ => True
  | inl tokens => tokens = []
  end.

(** The waits that consecutive failed cycles compute, when the first of
    them starts with the retry counter [retry] and takes the [r]-th random
    draw. *)
Fixpoint failure_waits (env : Env) {helper : Helper} (h : identityHook)
    (retry : Z) (r : nat) (n : nat) : list Duration :=
  match n with
  | O => []
  | S n' => failure_wait h retry (rand_at env r)
            :: failure_waits env h (u64_succ retry) (S r) n'
  end.

(** A computation that leaves [stopCtx] alone. *)
Definition ctx_frame {A} (m : M A) : Prop :=
  forall st, n_ctx (m st).2 = n_ctx st /\ stopped (m st).2 = stopped st.

(** The calls of [calls] that landed before the hook looked at [stopCtx] in
    the past of [st] have cancelled it. *)
Definition landed (calls : nat -> list HookCall) (st : St) : Prop :=
  forall j, (j < n_ctx st)%nat -> calls j <> [] -> stopped st = true.

(** ** An allocation to run the hook on

    The task [web] has an identity without TTL and one that lives ten
    minutes; the task [db] has one that lives an hour. *)

Definition ex_alloc : Allocation := mkAlloc "8ba85cef" 42.

Definition ex_static : WorkloadIdentity := mkWID "static" 0.
Definition ex_vault : WorkloadIdentity := mkWID "vault" (600 * Second).
Definition ex_consul : WorkloadIdentity := mkWID "consul" Hour.
Definition ex_short : WorkloadIdentity := mkWID "short" (5 * Second).
Definition ex_long : WorkloadIdentity := mkWID "long" (48 * Hour).

Definition ex_web : Task := mkTask "web" [ex_static; ex_vault].
Definition ex_db : Task := mkTask "db" [ex_consul].

(** The hook of the allocation, with the default floor of ten seconds. *)
Definition ex_hook : identityHook :=
  mkHook ex_alloc [Some ex_web; Some ex_db] (10 * Second).

(** Allocations with one task and one identity. *)
Definition ex_task_of (wid : WorkloadIdentity) : Task := mkTask "web" [wid].
Definition ex_hook_of (wid : WorkloadIdentity) : identityHook :=
  mkHook ex_alloc [Some (ex_task_of wid)] (10 * Second).

(** The only identity with a TTL is one of the second task. *)
Definition ex_hook_later : identityHook :=
  mkHook ex_alloc [Some (ex_task_of ex_static); Some ex_db] (10 * Second).

(** The moment of the run, in nanoseconds since the zero time. *)
Definition ex_now : Time := 63800000000 * Second.

(** The signer signs every request, each identity for its TTL. *)
Definition ex_ttl (name : string) : Duration :=
  if String.eqb name "vault" then 600 * Second
  else if String.eqb name "consul" then Hour
  else if String.eqb name "short" then 5 * Second
  else if String.eqb name "long" then 48 * Hour
  else 0.

Definition ex_sign (req : WorkloadIdentityRequest) : SignedWorkloadIdentity :=
  mkSigned (req_IdentityName req) ("jwt-" ++ req_IdentityName req)
           (ex_now + ex_ttl (req_IdentityName req)).

(** An environment in which nothing fails and nobody stops the hook; the
    clock stands still. *)
Definition ex_env : Env :=
  mkEnv (fun _ => ex_now) (fun _ => 7)
        (fun _ _ req => inl (map ex_sign req))
        (fun _ _ _ => None)
        (fun _ => [])
        (fun _ => true).

(** The signer fails every call. *)
Definition ex_env_down : Env :=
  mkEnv (fun _ => ex_now) (fun _ => 7)
        (fun _ _ _ => inr (errorString "rpc error: no leader"))
        (fun _ _ _ => None)
        (fun _ => [])
        (fun _ => true).

(** The signer answers every call, with no signed identity. *)
Definition ex_env_empty : Env :=
  mkEnv (fun _ => ex_now) (fun _ => 7)
        (fun _ _ _ => inl [])
        (fun _ _ _ => None)
        (fun _ => [])
        (fun _ => true).

(** The signer fails the first call, and the sink fails every write. *)
Definition ex_env_sink_down : Env :=
  mkEnv (fun _ => ex_now) (fun _ => 7)
        (fun k _ req =>
           match k with
           | O => inr (errorString "rpc error: no leader")
           | S _ => inl (map ex_sign req)
           end)
        (fun _ _ _ => Some (errorString "write nomad_token: no space left"))
        (fun _ => [])
        (fun _ => true).

(** [Stop] lands before the hook looks at [stopCtx] for the first time, and
    the [select] takes the [Done] case when it can. *)
Definition ex_env_stopped : Env :=
  mkEnv (fun _ => ex_now) (fun _ => 7)
        (fun _ _ req => inl (map ex_sign req))
        (fun _ _ _ => None)
        (fun k => match k with O => [CallStop] | S _ => [] end)
        (fun _ => false).

(** The signed identities of the candidates of a task, as the signer signs
    them. *)
Definition ex_signed (task : Task) : gmap string SignedWorkloadIdentity :=
  list_to_map
    (map (fun wid => (wid_Name wid, ex_sign (requestFor ex_alloc task wid)))
         (task_Identities task)).

(** ** The rest of the hook *)

(** [Name] *)
Definition Name : string := "identity".

(** *** [newIdentityHook]

    [renew] calls the signer through the field [widmgr] of the hook
    ([h.widmgr], l.217), while [getIdentities] calls it through the field of
    the allocation runner ([h.ar.widmgr], l.131).  The record [identityHook]
    above stands for a hook whose own field holds the signer of the
    environment.  The struct of the source has the field itself: an
    interface, [nil] until something is assigned to it. *)
Inductive IdentitySigner := WIDMgr.

(** The hook with its field [widmgr]; [None] is [nil]. *)
Record identityHookFields := mkFields {
  hook : identityHook;
  widmgr : option IdentitySigner;
}.

(** [newIdentityHook(ar, hookResources, logger)], for an allocation runner
    with the allocation [alloc] and the task runners [tasks].  It sets [ar],
    [hookResources], [minWait], [stopCtx], [stop] and [logger], and leaves
    [ts] and [widmgr] [nil].  The floor is ten seconds and [stopCtx] is a
    new context, which is not cancelled.  (The logger is not part of the
    model.) *)
Definition newIdentityHook (alloc : Allocation) (tasks : list (option Task))
  : M identityHookFields := fun st =>
  (mkFields (mkHook alloc tasks (10 * Second)) None,
   mkSt false (n_now st) (n_rand st) (n_sign st) (n_setAlt st) (n_ctx st)
        (trace st)).

Section NilSigner.

Variable env : Env.
Context {helper : Helper}.

(** The first cycle of the renewal loop of a hook whose [widmgr] is [nil]:
    [h.widmgr.SignIdentities(createIndex, reqs)] calls a method of a nil
    interface, which panics. *)
Definition cycle_nil_widmgr (wait : Duration) : M Outcome :=
  log LDebug "waiting to renew identities";;
  emit (EvTimerReset wait);;
  fired ← select_timer_or_done env;
  if (fired : bool) then
    log LTrace "getting new signed identities";;
    mret Panicked
  else mret Returned.

(** [renew] as the method of the struct.  With a signer in [widmgr] it is
    [renew] above.  Without one it is the same up to the renewal loop, which
    is [renew] with no cycle looked at (it then ends [Running], with the
    first wait, exactly when it enters the loop), and the first cycle of the
    loop ends it. *)
Definition renew_of (s : identityHookFields) (fuel : nat) (createIndex : Z)
    (signedWIDs : gmap string SignedWorkloadIdentity) : M Outcome :=
  match widmgr s with
  | Some WIDMgr => renew env (hook s) fuel createIndex signedWIDs
  | None =>
      o ← renew env (hook s) 0 createIndex signedWIDs;
      match o with
      | Running wait _ _ => cycle_nil_widmgr wait
      | Returned | Panicked => mret o
      end
  end.

End NilSigner.

(** The hook [h] with other task runners. *)
Definition with_tasks (h : identityHook) (ts : list (option Task)) : identityHook :=
  mkHook (ar_alloc h) ts (minWait h).

(** The task runners that have a task. *)
Definition has_task (t : option Task) : bool :=
  match t with Some _ => true | None => false end.

(** The maps handed to [SetSignedTaskIdentities], in order. *)
Fixpoint publications (evs : list Event) : list (option (gmap string string)) :=
  match evs with
  | [] => []
  | EvSetSignedTaskIdentities m :: evs' => m :: publications evs'
  | _ :: evs' => publications evs'
  end.

(** What [Prerun] publishes for a task: [nil] for a task without identities,
    a map for the others. *)
Definition publication_of (task : Task) (m : option (gmap string string)) : Prop :=
  match task_Identities task with
  | [] => m = None
  | _ :: _ => is_Some m
  end.

(** The events of the loop over the tokens: logs and writes to the sinks. *)
Definition sink_event (e : Event) : Prop :=
  match e with
  | EvLog _ _ | EvSetAltToken _ _ => True
  | _ => False
  end.

(** The warnings for [n] tokens of unknown identities. *)
Definition unexpected_logs (n : nat) : list Event :=
  replicate n (EvLog LWarn "bug: unexpected workload identity received").

(** *** More of the example allocation *)

(** A task with two identities that expire. *)
Definition ex_api : Task := mkTask "api" [ex_short; ex_vault].

(** The second write to a sink fails. *)
Definition ex_env_flaky : Env :=
  mkEnv (fun _ => ex_now) (fun _ => 7)
        (fun _ _ req => inl (map ex_sign req))
        (fun k _ _ =>
           match k with
           | 1%nat => Some (errorString "write nomad_token: no space left")
           | _ => None
           end)
        (fun _ => [])
        (fun _ => true).

(** The signer answers every call with a signed identity that nobody asked
    for. *)
Definition ex_env_stray : Env :=
  mkEnv (fun _ => ex_now) (fun _ => 7)
        (fun _ _ _ => inl [mkSigned "consul" "jwt-consul" (ex_now + Hour)])
        (fun _ _ _ => None)
        (fun _ => [])
        (fun _ => true).

(** The resets of the timer ([true]) and the signing calls ([false]) of a
    trace, in order. *)
Fixpoint rhythm (evs : list Event) : list bool :=
  match evs with
  | [] => []
  | EvTimerReset _ :: evs' => true :: rhythm evs'
  | EvSignIdentities _ _ :: evs' => false :: rhythm evs'
  | _ :: evs' => rhythm evs'
  end.

(** A reset of the timer and then a signing call, [n] times. *)
Fixpoint beats (n : nat) : list bool :=
  match n with
  | O => []
  | S n' => true :: false :: beats n'
  end.

(** A write to a sink that carries the token [token] to an identity of its
    name among [wids]. *)
Definition written_for (wids : list WorkloadIdentity)
    (c : WorkloadIdentity * string) (token : SignedWorkloadIdentity) : Prop :=
  c.2 = swi_JWT token /\ wid_Name c.1 = swi_IdentityName token /\ In c.1 wids.

(** The hook of an allocation whose task is [ex_api]. *)
Definition ex_hook_api : identityHook :=
  mkHook ex_alloc [Some ex_api] (10 * Second).

(** ** Running the monad *)

Lemma run_bind {A B} (m : M A) (k : A -> M B) (st : St) :
  (m ≫= k) st = k (m st).1 (m st).2.
Proof. unfold mbind, M_bind, bind. destruct (m st); reflexivity. Qed.

Lemma run_ret {A} (a : A) (st : St) : (mret a : M A) st = (a, st).
Proof. reflexivity. Qed.

Ltac run := repeat (rewrite ?run_bind, ?run_ret; cbn [fst snd]).

(** ** The map that [getIdentities] builds *)

Lemma index_fold_lookup (signedWIDs : list SignedWorkloadIdentity)
    (widMap : gmap string string) (name : string) :
  fold_left (fun widMap wid => <[swi_IdentityName wid := swi_JWT wid]> widMap)
            signedWIDs widMap !! name
  = match last (filter (fun wid => swi_IdentityName wid = name) signedWIDs) with
    | Some wid => Some (swi_JWT wid)
    | None => widMap !! name
    end.
Proof.
  revert widMap. induction signedWIDs as [|wid l IH]; intros widMap; [done|].
  cbn [fold_left]. rewrite IH.
  destruct (decide (swi_IdentityName wid = name)) as [Heq|Hne].
  - rewrite filter_cons_True by done. rewrite last_cons.
    destruct (last (filter _ l)); [done|]. rewrite Heq. apply lookup_insert_eq.
  - rewrite filter_cons_False by done.
    destruct (last (filter _ l)); [done|]. by apply lookup_insert_ne.
Qed.

Lemma indexByName_last (signedWIDs : list SignedWorkloadIdentity)
    (name : string) :
  indexByName signedWIDs !! name
  = swi_JWT <$> last (filter (fun wid => swi_IdentityName wid = name) signedWIDs).
Proof.
  unfold indexByName. rewrite index_fold_lookup.
  destruct (last _); [done|]. apply lookup_empty.
Qed.

Lemma token_map_of_indexByName (signedWIDs : list SignedWorkloadIdentity) :
  token_map_of signedWIDs (Some (indexByName signedWIDs)).
Proof.
  exists (indexByName signedWIDs). split; [done|]. apply indexByName_last.
Qed.

Section PrerunProofs.

Variable env : Env.
Variable h : identityHook.

Lemma Prerun_tasks_spec (ts : list (option Task)) (st : St) :
  exists new,
    trace (Prerun_tasks env h ts st).2 = trace st ++ new
    /\ go_calls new = []
    /\ match (Prerun_tasks env h ts st).1 with
       | None =>
           well_published env (n_sign st) new
           /\ sign_calls new = initial_requests (ar_alloc h) ts
       | Some e =>
           exists pre minIndex req err,
             new = pre ++ [EvSignIdentities minIndex req]
             /\ well_published env (n_sign st) pre
             /\ sign_at env (n_sign st + length (sign_calls pre))%nat minIndex req = inr err
             /\ e = wrapError "error fetching alternate identities: " err
       end.
Proof.
  revert st. induction ts as [|[task|] ts IH]; intros st; cbn [Prerun_tasks].
  - exists []. rewrite run_ret. cbn. by rewrite app_nil_r.
  - run. unfold getIdentities, initial_requests. cbn [omap list_omap].
    destruct (length (task_Identities task) =? 0)%nat eqn:E.
    + run. destruct (IH (emit (EvSetSignedTaskIdentities None) st).2)
        as (new & Htr & Hgo & Hres).
      exists (EvSetSignedTaskIdentities None :: new). rewrite Htr. cbn.
      split; [by rewrite <- app_assoc|]. split; [done|].
      destruct (Prerun_tasks _ _ _ _).1 as [e|].
      * destruct Hres as (pre & i & req & err & -> & Hwp & Hans & ->).
        exists (EvSetSignedTaskIdentities None :: pre), i, req, err. done.
      * done.
    + run. cbn [fst snd SignIdentities].
      set (req := map _ _). set (idx := alloc_CreateIndex _).
      destruct (sign_at env (n_sign st) idx req) as [signedWIDs|err] eqn:Hs.
      * run. cbn [emit snd].
        match goal with |- context [Prerun_tasks env h ts ?s] =>
          destruct (IH s) as (new & Htr & Hgo & Hres) end.
        exists (EvSignIdentities idx req
                :: EvSetSignedTaskIdentities (Some (indexByName signedWIDs)) :: new).
        rewrite Htr. cbn [trace]. split; [by rewrite <- !app_assoc|].
        split; [done|]. cbn [n_sign] in Hres.
        destruct (Prerun_tasks _ _ _ _).1 as [e|].
        -- destruct Hres as (pre & i & rq & err & -> & Hwp & Hans & ->).
           exists (EvSignIdentities idx req
                   :: EvSetSignedTaskIdentities (Some (indexByName signedWIDs)) :: pre),
                  i, rq, err.
           split; [done|].
           split; [cbn; rewrite Hs; by auto using token_map_of_indexByName|].
           split; [|done]. cbn [sign_calls length].
           by rewrite Nat.add_succ_r.
        -- destruct Hres as [Hwp Hsc].
           split; [cbn; rewrite Hs; by auto using token_map_of_indexByName|].
           cbn [sign_calls]. by rewrite Hsc.
      * run. exists [EvSignIdentities idx req]. cbn. split; [done|]. split; [done|].
        exists [], idx, req, err. cbn. by rewrite Nat.add_0_r.
  - destruct (IH st) as (new & Htr & Hgo & Hres). exists new.
    split; [done|]. split; [done|].
    destruct (Prerun_tasks _ _ _ _).1 as [e|]; [done|].
    by unfold initial_requests in *.
Qed.

End PrerunProofs.

(** ** The modelled helpers keep the contract *)

Lemma spec_RandomStagger_range (intv r : Z) :
  0 < intv -> 0 <= spec_RandomStagger intv r < intv.
Proof.
  intros H. unfold spec_RandomStagger.
  destruct (Z.leb_spec intv 0); [lia|]. apply Z.mod_pos_bound. lia.
Qed.

Lemma spec_helper_contract : HelperContract spec_helper.
Proof.
  split; cbn [ExpiryToRenewTime Backoff RandomStagger spec_helper].
  - intros exp t r minWait. unfold spec_ExpiryToRenewTime, spec_RandomStagger.
    destruct (Z.leb_spec minWait 0); [lia|].
    pose proof (Z.mod_pos_bound r minWait). lia.
  - intros exp t r minWait Hpos Hleft. unfold spec_ExpiryToRenewTime.
    pose proof (spec_RandomStagger_range minWait r Hpos).
    assert ((exp - t) / 2 * 2 <= exp - t /\ exp - t < (exp - t) / 2 * 2 + 2)
      by (pose proof (Z.div_mod (exp - t) 2); pose proof (Z.mod_pos_bound (exp - t) 2); lia).
    lia.
  - intros base limit attempt Hb Ha. unfold spec_Backoff.
    assert (0 < 2 ^ attempt) by (apply Z.pow_pos_nonneg; lia). nia.
  - intros base limit attempt Hb. unfold spec_Backoff. lia.
  - intros base limit attempt attempt' Hb Ha. unfold spec_Backoff.
    assert (2 ^ attempt <= 2 ^ attempt') by (apply Z.pow_le_mono_r; lia).
    nia.
  - intros base limit attempt Hb Ha. unfold spec_Backoff.
    rewrite Z.pow_add_r by lia. change (2 ^ 1) with 2.
    assert (0 < 2 ^ attempt) by (apply Z.pow_pos_nonneg; lia). nia.
  - apply spec_RandomStagger_range.
Qed.

(** ** How the trace grows *)

Lemma add_events_nil st : add_events st [] = st.
Proof. destruct st. unfold add_events. cbn. by rewrite app_nil_r. Qed.

Lemma add_events_app st a b :
  add_events (add_events st a) b = add_events st (a ++ b).
Proof. unfold add_events. cbn. by rewrite app_assoc. Qed.

Lemma grows_refl P st : grows P st st.
Proof. exists []. by rewrite app_nil_r. Qed.

Lemma grows_trans P st1 st2 st3 :
  grows P st1 st2 -> grows P st2 st3 -> grows P st1 st3.
Proof.
  intros (a & Ha & Pa & Sa) (b & Hb & Pb & Sb). exists (a ++ b).
  split; [by rewrite Hb, Ha, app_assoc|]. split; [by apply Forall_app|auto].
Qed.

Lemma grows_impl (P Q : Event -> Prop) st st' :
  (forall e, P e -> Q e) -> grows P st st' -> grows Q st st'.
Proof.
  intros HPQ (a & Ha & Pa & Sa). exists a. split; [done|]. split; [|done].
  eapply Forall_impl; eauto.
Qed.

Lemma grows_add_events P st new : Forall P new -> grows P st (add_events st new).
Proof. intros H. by exists new. Qed.

Lemma emits_impl (P Q : Event -> Prop) {A} (m : M A) :
  (forall e, P e -> Q e) -> emits P m -> emits Q m.
Proof. intros HPQ H st. eapply grows_impl; eauto. Qed.

Lemma emits_ret P {A} (a : A) : emits P (mret a : M A).
Proof. intros st. apply grows_refl. Qed.

Lemma emits_bind P {A B} (m : M A) (k : A -> M B) :
  emits P m -> (forall a, emits P (k a)) -> emits P (m ≫= k).
Proof.
  intros Hm Hk st. rewrite run_bind.
  eapply grows_trans; [apply Hm|apply Hk].
Qed.

Lemma emits_emit (P : Event -> Prop) e : P e -> emits P (emit e).
Proof. intros H st. exists [e]. cbn. auto. Qed.

Lemma emits_log (P : Event -> Prop) lvl msg :
  P (EvLog lvl msg) -> emits P (log lvl msg).
Proof. apply emits_emit. Qed.

Lemma emits_stop P : emits P stop.
Proof. intros st. exists []. cbn. by rewrite app_nil_r. Qed.

Lemma emits_runCalls P cs : emits P (runCalls cs).
Proof.
  induction cs as [|[] cs IH]; cbn [runCalls runCall].
  - apply emits_ret.
  - unfold Stop. repeat (apply emits_bind; [|intros]);
      auto using emits_stop, emits_ret.
  - unfold Shutdown. apply emits_bind; auto using emits_stop.
Qed.

Section Emits.

Variable env : Env.
Context {helper : Helper}.
Variable h : identityHook.
Variable P : Event -> Prop.

Lemma emits_now : emits P (now env).
Proof. intros st. exists []. cbn. by rewrite app_nil_r. Qed.

Lemma emits_rand : emits P (rand env).
Proof. intros st. exists []. cbn. by rewrite app_nil_r. Qed.

Lemma emits_SignIdentities minIndex req :
  P (EvSignIdentities minIndex req) -> emits P (SignIdentities env minIndex req).
Proof. intros H st. exists [EvSignIdentities minIndex req]. cbn. auto. Qed.

Lemma emits_setAltToken widspec jwt :
  P (EvSetAltToken widspec jwt) -> emits P (setAltToken env widspec jwt).
Proof. intros H st. exists [EvSetAltToken widspec jwt]. cbn. auto. Qed.

Lemma emits_interleave : emits P (interleave env).
Proof. intros st. unfold interleave. apply emits_runCalls. Qed.

Lemma emits_tick_ctx : emits P tick_ctx.
Proof. intros st. exists []. cbn. by rewrite app_nil_r. Qed.

Lemma emits_get_stopped : emits P get_stopped.
Proof. intros st. apply grows_refl. Qed.

Lemma emits_stopCtx_Err : emits P (stopCtx_Err env).
Proof.
  unfold stopCtx_Err. repeat (apply emits_bind; [|intros]);
    auto using emits_interleave, emits_tick_ctx, emits_get_stopped.
Qed.

Lemma emits_select : emits P (select_timer_or_done env).
Proof.
  unfold select_timer_or_done. repeat (apply emits_bind; [|intros]);
    auto using emits_interleave, emits_tick_ctx, emits_get_stopped, emits_ret.
Qed.

Lemma emits_expiryToRenewTime exp w : emits P (expiryToRenewTime env exp w).
Proof.
  unfold expiryToRenewTime. repeat (apply emits_bind; [|intros]);
    auto using emits_now, emits_rand, emits_ret.
Qed.

Lemma emits_randomStagger intv : emits P (randomStagger env intv).
Proof.
  unfold randomStagger. repeat (apply emits_bind; [|intros]);
    auto using emits_rand, emits_ret.
Qed.

End Emits.

Create HintDb emits.
#[global] Hint Resolve emits_ret emits_emit emits_log emits_now emits_rand
  emits_SignIdentities emits_setAltToken emits_stopCtx_Err emits_select
  emits_expiryToRenewTime emits_randomStagger : emits.

Ltac emits_steps :=
  repeat first
    [ apply emits_bind; [|intros]
    | progress eauto with emits ].

(** ** The loop over the identities of a task *)

Section Scan.

Variable env : Env.
Context {helper : Helper}.
Variable alloc : Allocation.
Variable task : Task.
Variable signedWIDs : gmap string SignedWorkloadIdentity.

Lemma scanIdentities_run wids sc st :
  scanIdentities alloc task signedWIDs wids sc st
  = (scan_result alloc task signedWIDs wids sc,
     add_events st (scan_logs signedWIDs wids)).
Proof.
  revert sc st. induction wids as [|wid wids IH]; intros sc st;
    cbn [scanIdentities scan_result scan_logs].
  - by rewrite run_ret, add_events_nil.
  - destruct (wid_TTL wid =? 0); [apply IH|].
    destruct (signedWIDs !! wid_Name wid); [apply IH|].
    rewrite run_bind, IH. cbn [log emit snd]. f_equal.
    unfold add_events. cbn. by rewrite <- app_assoc.
Qed.

Lemma scan_logs_quiet wids : Forall quiet (scan_logs signedWIDs wids).
Proof.
  induction wids as [|wid wids IH]; cbn [scan_logs]; [constructor|].
  destruct (wid_TTL wid =? 0); [done|].
  destruct (signedWIDs !! wid_Name wid); [done|]. by constructor.
Qed.

Lemma scan_reqs wids sc :
  sc_reqs (scan_result alloc task signedWIDs wids sc)
  = sc_reqs sc ++ map (requestFor alloc task) (candidates wids).
Proof.
  revert sc. induction wids as [|wid wids IH]; intros sc;
    cbn [scan_result candidates List.filter].
  - by rewrite app_nil_r.
  - destruct (wid_TTL wid =? 0); cbn [negb]; [apply IH|].
    destruct (signedWIDs !! wid_Name wid); rewrite IH; cbn;
      by rewrite <- app_assoc.
Qed.

(** Candidates without a signed identity force the renewal. *)
Lemma scan_renewNow_missing wids sc wid :
  In wid (candidates wids) -> signedWIDs !! wid_Name wid = None ->
  sc_renewNow (scan_result alloc task signedWIDs wids sc) = true.
Proof.
  assert (Hkeep : forall ws s, sc_renewNow s = true ->
            sc_renewNow (scan_result alloc task signedWIDs ws s) = true).
  { induction ws as [|w ws IH]; intros s Hs; cbn [scan_result]; [done|].
    destruct (wid_TTL w =? 0); [by apply IH|].
    destruct (signedWIDs !! wid_Name w); by apply IH. }
  revert sc. induction wids as [|w wids IH]; intros sc Hin Hnone;
    cbn [scan_result candidates List.filter] in *; [done|].
  destruct (wid_TTL w =? 0); cbn [negb] in Hin; [by apply IH|].
  destruct Hin as [->|Hin].
  - rewrite Hnone. by apply Hkeep.
  - destruct (signedWIDs !! wid_Name w); by apply IH.
Qed.

Lemma scan_renewNow_signed wids sc :
  (forall wid, In wid (candidates wids) -> is_Some (signedWIDs !! wid_Name wid)) ->
  sc_renewNow (scan_result alloc task signedWIDs wids sc) = sc_renewNow sc.
Proof.
  revert sc. induction wids as [|w wids IH]; intros sc Hall;
    cbn [scan_result candidates List.filter] in *; [done|].
  destruct (wid_TTL w =? 0); cbn [negb] in Hall; [by apply IH|].
  destruct (Hall w (or_introl eq_refl)) as [sid Hsid]. rewrite Hsid.
  rewrite IH; [done|]. intros wid Hin. apply Hall. by right.
Qed.

(** The expiration that the loop ends with is the default or one of the
    expirations of the candidates, and none of them is before it. *)
Lemma scan_minExp_le wids sc :
  sc_minExp (scan_result alloc task signedWIDs wids sc) <= sc_minExp sc.
Proof.
  revert sc. induction wids as [|w wids IH]; intros sc;
    cbn [scan_result]; [lia|].
  destruct (wid_TTL w =? 0); [apply IH|].
  destruct (signedWIDs !! wid_Name w) as [sid|].
  - etrans; [apply IH|]. cbn [sc_minExp]. unfold time_Before.
    destruct (Z.ltb_spec (swi_Expiration sid) (sc_minExp sc)); lia.
  - etrans; [apply IH|]. cbn. lia.
Qed.

Lemma scan_minExp_lower wids sc wid sid :
  In wid (candidates wids) -> signedWIDs !! wid_Name wid = Some sid ->
  sc_minExp (scan_result alloc task signedWIDs wids sc) <= swi_Expiration sid.
Proof.
  revert sc. induction wids as [|w wids IH]; intros sc Hin Hsid;
    cbn [scan_result candidates List.filter] in *; [done|].
  destruct (wid_TTL w =? 0); cbn [negb] in Hin; [by apply IH|].
  destruct Hin as [->|Hin].
  - rewrite Hsid. etrans; [apply scan_minExp_le|]. cbn [sc_minExp].
    unfold time_Before.
    destruct (Z.ltb_spec (swi_Expiration sid) (sc_minExp sc)); lia.
  - destruct (signedWIDs !! wid_Name w); by apply IH.
Qed.

Lemma scan_minExp_attained wids sc :
  sc_minExp (scan_result alloc task signedWIDs wids sc) = sc_minExp sc
  \/ exists wid sid,
       In wid (candidates wids) /\ signedWIDs !! wid_Name wid = Some sid
       /\ sc_minExp (scan_result alloc task signedWIDs wids sc) = swi_Expiration sid.
Proof.
  revert sc. induction wids as [|w wids IH]; intros sc;
    cbn [scan_result candidates List.filter]; [by left|].
  destruct (wid_TTL w =? 0) eqn:E; cbn [negb]; [apply IH|].
  destruct (signedWIDs !! wid_Name w) as [sid|] eqn:Hs.
  - destruct (IH (mkScan (sc_reqs sc ++ [requestFor alloc task w]) (sc_renewNow sc)
                   (if time_Before (swi_Expiration sid) (sc_minExp sc)
                    then swi_Expiration sid else sc_minExp sc)
                   (<[wid_Name w:=w]> (sc_widMap sc))))
      as [Heq|(wid & sid' & Hin & Hsid & Heq)].
    + cbn [sc_minExp] in Heq. destruct (time_Before _ _).
      * right. exists w, sid. split; [by left|done].
      * by left.
    + right. exists wid, sid'. split; [by right|done].
  - destruct (IH (mkScan (sc_reqs sc ++ [requestFor alloc task w]) true
                   (sc_minExp sc) (<[wid_Name w:=w]> (sc_widMap sc))))
      as [Heq|(wid & sid' & Hin & Hsid & Heq)].
    + by left.
    + right. exists wid, sid'. split; [by right|done].
Qed.

(** The map of the specifications holds the candidates, by name. *)
Lemma scan_widMap wids sc name widspec :
  sc_widMap (scan_result alloc task signedWIDs wids sc) !! name = Some widspec ->
  sc_widMap sc !! name = Some widspec
  \/ (In widspec (candidates wids) /\ wid_Name widspec = name).
Proof.
  revert sc. induction wids as [|w wids IH]; intros sc Hl;
    cbn [scan_result candidates List.filter] in *; [by left|].
  destruct (wid_TTL w =? 0); cbn [negb].
  { destruct (IH _ Hl) as [?|[? ?]]; auto. }
  assert (Hins : forall rn me,
    sc_widMap (scan_result alloc task signedWIDs wids
                 (mkScan (sc_reqs sc ++ [requestFor alloc task w]) rn me
                    (<[wid_Name w:=w]> (sc_widMap sc)))) !! name = Some widspec ->
    sc_widMap sc !! name = Some widspec
    \/ In widspec (w :: candidates wids) /\ wid_Name widspec = name).
  { intros rn me H. destruct (IH _ H) as [H'|[? ?]].
    - cbn [sc_widMap] in H'. rewrite lookup_insert in H'.
      case_decide; simplify_eq; [right; split; [by left|done]|by left].
    - right. split; [by right|done]. }
  destruct (signedWIDs !! wid_Name w); eapply Hins; eauto.
Qed.

End Scan.

(** ** What the renewal loop emits *)

Section RenewEmits.

Variable env : Env.
Context {helper : Helper}.
Variable h : identityHook.

Lemma renewal_event_quiet createIndex reqs e :
  quiet e -> renewal_event createIndex reqs e.
Proof. by destruct e. Qed.

Lemma emits_applyTokens createIndex reqs widMap retry tokens minExp :
  emits (renewal_event createIndex reqs)
        (applyTokens env h widMap retry tokens minExp).
Proof.
  revert minExp. induction tokens as [|token tokens IH]; intros minExp;
    cbn [applyTokens]; [apply emits_ret|].
  destruct (widMap !! swi_IdentityName token).
  - apply emits_bind; [by apply emits_setAltToken|]. intros [err|]; [|done].
    emits_steps; by apply emits_log.
  - apply emits_bind; [by apply emits_log|done].
Qed.

Lemma emits_cycleFailed createIndex reqs retry minExp :
  emits (renewal_event createIndex reqs) (cycleFailed env h retry minExp).
Proof. unfold cycleFailed. emits_steps; by apply emits_log. Qed.

Lemma emits_cycle createIndex reqs widMap wait retry minExp :
  emits (renewal_event createIndex reqs)
        (cycle env h createIndex reqs widMap wait retry minExp).
Proof.
  unfold cycle.
  apply emits_bind; [by apply emits_log|]. intros _.
  apply emits_bind; [by apply emits_emit|]. intros _.
  apply emits_bind; [apply emits_select|]. intros [|]; [|apply emits_ret].
  apply emits_bind; [by apply emits_log|]. intros _.
  apply emits_bind; [by apply emits_SignIdentities|].
  intros [tokens|err]; [|apply emits_cycleFailed].
  destruct (length tokens =? 0)%nat; [apply emits_cycleFailed|].
  apply emits_bind; [apply emits_applyTokens|]. intros.
  apply emits_bind; [apply emits_expiryToRenewTime|]. intros. apply emits_ret.
Qed.

Lemma emits_cycles fuel createIndex reqs widMap wait retry minExp :
  emits (renewal_event createIndex reqs)
        (cycles env h fuel createIndex reqs widMap wait retry minExp).
Proof.
  revert wait retry minExp. induction fuel as [|fuel IH]; intros;
    cbn [cycles]; [apply emits_ret|].
  apply emits_bind; [apply emits_cycle|]. intros [w r m|]; [apply IH|apply emits_ret].
Qed.

(** One turn of the loop over the task runners only asks for the renewal
    requests of its task. *)
Lemma emits_renew_task fuel createIndex signedWIDs task :
  emits (renewal_event createIndex (renewal_requests (ar_alloc h) task))
        (renew_task env h fuel createIndex signedWIDs (Some task)).
Proof.
  cbn [renew_task].
  destruct (length (task_Identities task) =? 0)%nat.
  { apply emits_bind; [by apply emits_log|]. intros; apply emits_ret. }
  apply emits_bind; [apply emits_now|]. intros t0.
  intros st. rewrite run_bind, scanIdentities_run. cbn [fst snd].
  apply grows_trans
    with (st2 := add_events st (scan_logs signedWIDs (task_Identities task))).
  { apply grows_add_events. eapply Forall_impl; [apply scan_logs_quiet|].
    apply renewal_event_quiet. }
  rewrite scan_reqs. cbn [sc_reqs app]. fold (renewal_requests (ar_alloc h) task).
  generalize (add_events st (scan_logs signedWIDs (task_Identities task))).
  generalize (scan_result (ar_alloc h) task signedWIDs
    (task_Identities task) (mkScan [] false (time_Add t0 (30 * Hour)) ∅)).
  clear st. intros sc.
  match goal with |- forall s, grows ?P s (?m s).2 => change (emits P m) end.
  destruct (length _ =? 0)%nat.
  { apply emits_bind; [by apply emits_log|]. intros; apply emits_ret. }
  apply emits_bind.
  { destruct (negb _); [apply emits_expiryToRenewTime|apply emits_ret]. }
  intros wait. apply emits_bind; [apply emits_stopCtx_Err|].
  intros [|]; [apply emits_ret|].
  apply emits_bind; [apply emits_cycles|]. intros; apply emits_ret.
Qed.

End RenewEmits.

(** ** One turn of the loop over the task runners, step by step *)

Section RenewTask.

Variable env : Env.
Context {helper : Helper}.
Variable h : identityHook.

Lemma scan_of_reqs task signedWIDs t0 :
  sc_reqs (scan_of (ar_alloc h) task signedWIDs t0)
  = renewal_requests (ar_alloc h) task.
Proof. unfold scan_of. by rewrite scan_reqs. Qed.

Lemma renew_task_unfold fuel createIndex signedWIDs task st :
  renew_task env h fuel createIndex signedWIDs (Some task) st
  = if (length (task_Identities task) =? 0)%nat then
      (Done Returned,
       add_events st [EvLog LTrace "no workload identities to renew"])
    else
      let sc := scan_of (ar_alloc h) task signedWIDs (now_at env (n_now st)) in
      let st2 := add_events (now env st).2
                   (scan_logs signedWIDs (task_Identities task)) in
      if (length (renewal_requests (ar_alloc h) task) =? 0)%nat then
        (Done Returned,
         add_events st2 [EvLog LTrace "no workload identities expire"])
      else
        let w := (if negb (sc_renewNow sc)
                  then expiryToRenewTime env (sc_minExp sc) (minWait h)
                  else mret 0) st2 in
        let e := stopCtx_Err env w.2 in
        if e.1 then (Next, e.2)
        else
          let c := cycles env h fuel createIndex
                     (renewal_requests (ar_alloc h) task) (sc_widMap sc)
                     w.1 0 (sc_minExp sc) e.2 in
          (Done c.1, c.2).
Proof.
  cbn [renew_task].
  destruct (length (task_Identities task) =? 0)%nat; [reflexivity|].
  rewrite run_bind, run_bind, scanIdentities_run. cbn [fst snd].
  change (now env st).1 with (now_at env (n_now st)).
  fold (scan_of (ar_alloc h) task signedWIDs (now_at env (n_now st))).
  rewrite scan_of_reqs.
  destruct (length (renewal_requests (ar_alloc h) task) =? 0)%nat; [reflexivity|].
  cbv zeta. rewrite run_bind, run_bind.
  destruct (stopCtx_Err env _).1; [reflexivity|].
  by rewrite run_bind, run_ret.
Qed.

Lemma runCalls_stopped cs st :
  stopped st = true -> (runCalls cs st).2 = st.
Proof.
  revert st. induction cs as [|c cs IH]; intros st Hst; [reflexivity|].
  cbn [runCalls]. rewrite run_bind.
  assert ((runCall c st).2 = st) as ->; [|by apply IH].
  destruct st; cbn in Hst; subst. by destruct c.
Qed.

(** On a cancelled context, [Err] is not nil: the condition of the renewal
    loop fails. *)
Lemma stopCtx_Err_stopped st :
  stopped st = true -> (stopCtx_Err env st).1 = true.
Proof.
  intros Hst. unfold stopCtx_Err, interleave. run.
  rewrite runCalls_stopped by done. exact Hst.
Qed.

Lemma stopCtx_Err_result st :
  (stopCtx_Err env st).1 = stopped (stopCtx_Err env st).2.
Proof. unfold stopCtx_Err. by run. Qed.

(** The loop over the task runners only goes on to the next one when the
    context is cancelled. *)
Lemma renew_task_Next fuel createIndex signedWIDs t st :
  (renew_task env h fuel createIndex signedWIDs t st).1 = Next ->
  stopped (renew_task env h fuel createIndex signedWIDs t st).2 = true.
Proof.
  destruct t as [task|]; [|done]. rewrite renew_task_unfold.
  destruct (length (task_Identities task) =? 0)%nat; [done|]. cbv zeta.
  destruct (length (renewal_requests (ar_alloc h) task) =? 0)%nat; [done|].
  destruct (stopCtx_Err env _).1 eqn:E; [|done].
  intros _. cbn [snd]. by rewrite <- stopCtx_Err_result.
Qed.

(** On a cancelled context a turn of the loop only logs. *)
Lemma renew_task_stopped fuel createIndex signedWIDs t st :
  stopped st = true ->
  grows quiet st (renew_task env h fuel createIndex signedWIDs t st).2.
Proof.
  intros Hst. destruct t as [task|]; [|apply grows_refl].
  rewrite renew_task_unfold.
  destruct (length (task_Identities task) =? 0)%nat.
  { apply grows_add_events. by constructor. }
  cbv zeta.
  set (st2 := add_events (now env st).2 _).
  assert (H2 : grows quiet st st2).
  { eapply grows_trans; [apply (emits_now env)|].
    apply grows_add_events, scan_logs_quiet. }
  destruct (length (renewal_requests (ar_alloc h) task) =? 0)%nat.
  { eapply grows_trans; [exact H2|]. apply grows_add_events. by constructor. }
  match goal with |- context [stopCtx_Err env ?s] => set (st3 := s) end.
  assert (H3 : grows quiet st st3).
  { eapply grows_trans; [exact H2|]. subst st3.
    destruct (negb _); [apply emits_expiryToRenewTime|apply grows_refl]. }
  rewrite stopCtx_Err_stopped.
  - cbn [snd]. eapply grows_trans; [exact H3|]. apply emits_stopCtx_Err.
  - destruct H3 as (? & _ & _ & Hs). by apply Hs.
Qed.

Lemma renew_tasks_stopped fuel createIndex signedWIDs ts st :
  stopped st = true ->
  grows quiet st (renew_tasks env h fuel createIndex signedWIDs ts st).2.
Proof.
  revert st. induction ts as [|t ts IH]; intros st Hst; cbn [renew_tasks].
  - apply grows_refl.
  - rewrite run_bind.
    pose proof (renew_task_stopped fuel createIndex signedWIDs t st Hst) as Hg.
    destruct (renew_task env h fuel createIndex signedWIDs t st).1 eqn:E.
    + eapply grows_trans; [exact Hg|]. apply IH.
      destruct Hg as (? & _ & _ & Hs). by apply Hs.
    + exact Hg.
Qed.

(** All the signing calls of [renew] ask for the renewal requests of the
    first task. *)
Lemma emits_renew_first fuel createIndex signedWIDs task rest :
  ar_tasks h = Some task :: rest ->
  emits (renewal_event createIndex (renewal_requests (ar_alloc h) task))
        (renew env h fuel createIndex signedWIDs).
Proof.
  intros Hts st. unfold renew. rewrite Hts. cbn [renew_tasks]. rewrite run_bind.
  pose proof (emits_renew_task env h fuel createIndex signedWIDs task st) as Hg.
  destruct (renew_task env h fuel createIndex signedWIDs (Some task) st).1 eqn:E.
  - eapply grows_trans; [exact Hg|].
    eapply grows_impl; [apply renewal_event_quiet|].
    apply renew_tasks_stopped. rewrite <- (renew_task_Next _ _ _ _ _ E). done.
  - exact Hg.
Qed.

End RenewTask.

(** ** One cycle of the renewal loop, step by step *)

Section Cycle.

Variable env : Env.
Context {helper : Helper}.
Variable h : identityHook.

Lemma cycleFailed_run retry minExp st :
  cycleFailed env h retry minExp st
  = (Continue (failure_wait h retry (rand_at env (n_rand st)))
              (u64_succ retry) minExp,
     add_events (rand env st).2 [EvLog LError "error renewing workload identities"]).
Proof. reflexivity. Qed.

Lemma cycle_unfold createIndex reqs widMap wait retry minExp st :
  cycle env h createIndex reqs widMap wait retry minExp st
  = let s := select_timer_or_done env (asleep st wait) in
    if s.1 then
      let r := SignIdentities env createIndex reqs
                 (add_events s.2 [EvLog LTrace "getting new signed identities"]) in
      match r.1 with
      | inr _ => cycleFailed env h retry minExp r.2
      | inl tokens =>
          if (length tokens =? 0)%nat then cycleFailed env h retry minExp r.2
          else
            let a := applyTokens env h widMap retry tokens zeroTime r.2 in
            let w := expiryToRenewTime env a.1 (minWait h) a.2 in
            (Continue w.1 0 a.1, w.2)
      end
    else (Return, s.2).
Proof.
  unfold cycle. rewrite !run_bind.
  assert ((emit (EvTimerReset wait)
             (log LDebug "waiting to renew identities" st).2).2 = asleep st wait) as ->.
  { unfold asleep, add_events. cbn. by rewrite <- app_assoc. }
  cbv zeta. destruct (select_timer_or_done env (asleep st wait)).1; [|reflexivity].
  rewrite !run_bind.
  change (log LTrace "getting new signed identities" ?s).2
    with (add_events s [EvLog LTrace "getting new signed identities"]).
  destruct (SignIdentities env createIndex reqs _).1 as [tokens|err]; [|reflexivity].
  destruct (length tokens =? 0)%nat; [reflexivity|].
  by rewrite !run_bind, run_ret.
Qed.

(** A cycle starts by resetting the timer to its wait. *)
Lemma cycle_starts createIndex reqs widMap wait retry minExp st :
  exists more,
    trace (cycle env h createIndex reqs widMap wait retry minExp st).2
    = trace st ++ EvLog LDebug "waiting to renew identities"
                  :: EvTimerReset wait :: more.
Proof.
  unfold cycle. rewrite run_bind, run_bind.
  match goal with |- context [trace (?m ?s).2] =>
    assert (Hk : emits (renewal_event createIndex reqs) m);
      [|destruct (Hk s) as (more & Htr & _)] end.
  { apply emits_bind; [apply emits_select|]. intros [|]; [|apply emits_ret].
    apply emits_bind; [by apply emits_log|]. intros _.
    apply emits_bind; [by apply emits_SignIdentities|].
    intros [tokens|err]; [|apply emits_cycleFailed].
    destruct (length tokens =? 0)%nat; [apply emits_cycleFailed|].
    apply emits_bind; [apply emits_applyTokens|]. intros.
    apply emits_bind; [apply emits_expiryToRenewTime|]. intros. apply emits_ret. }
  exists more. rewrite Htr. cbn. by rewrite <- !app_assoc.
Qed.

Lemma cycles_starts fuel createIndex reqs widMap wait retry minExp st :
  exists more,
    trace (cycles env h (S fuel) createIndex reqs widMap wait retry minExp st).2
    = trace st ++ EvLog LDebug "waiting to renew identities"
                  :: EvTimerReset wait :: more.
Proof.
  cbn [cycles]. rewrite run_bind.
  destruct (cycle_starts createIndex reqs widMap wait retry minExp st)
    as (more & Hc).
  destruct (cycle env h createIndex reqs widMap wait retry minExp st).1
    as [w r m|].
  - destruct (emits_cycles env h fuel createIndex reqs widMap w r m
                (cycle env h createIndex reqs widMap wait retry minExp st).2)
      as (more' & Htr & _).
    exists (more ++ more'). rewrite Htr, Hc. by rewrite <- app_assoc.
  - exists more. by rewrite run_ret.
Qed.

End Cycle.

(** ** Reading the traces *)

Lemma sign_calls_app a b : sign_calls (a ++ b) = sign_calls a ++ sign_calls b.
Proof.
  induction a as [|e a IH]; [done|]. destruct e; cbn; by rewrite ?IH.
Qed.

Lemma timer_resets_app a b :
  timer_resets (a ++ b) = timer_resets a ++ timer_resets b.
Proof.
  induction a as [|e a IH]; [done|]. destruct e; cbn; by rewrite ?IH.
Qed.

Lemma quiet_sign_calls evs : Forall quiet evs -> sign_calls evs = [].
Proof.
  induction 1 as [|e evs He _ IH]; [done|]. by destruct e.
Qed.

Lemma quiet_timer_resets evs : Forall quiet evs -> timer_resets evs = [].
Proof.
  induction 1 as [|e evs He _ IH]; [done|]. by destruct e.
Qed.

Lemma renewal_sign_calls createIndex reqs evs c :
  Forall (renewal_event createIndex reqs) evs ->
  In c (sign_calls evs) -> c = (createIndex, reqs).
Proof.
  induction 1 as [|e evs He _ IH]; [done|].
  destruct e; cbn; try exact IH. destruct He as [-> ->].
  intros [<-|Hin]; [done|auto].
Qed.

Lemma go_calls_app a b : go_calls (a ++ b) = go_calls a ++ go_calls b.
Proof.
  induction a as [|e a IH]; [done|]. destruct e; cbn; by rewrite ?IH.
Qed.

Lemma initial_requests_In alloc ts task :
  In (Some task) ts -> task_Identities task <> [] ->
  In (alloc_CreateIndex alloc, map (requestFor alloc task) (task_Identities task))
     (initial_requests alloc ts).
Proof.
  intros Hin Hne. unfold initial_requests.
  apply list_elem_of_In, list_elem_of_omap. exists (Some task).
  split; [by apply list_elem_of_In|].
  destruct (task_Identities task); [done|reflexivity].
Qed.

(** ** The claims about [Prerun] *)

(** What [Prerun] does, in the two ways it can end. *)
Lemma Prerun_outcome (env : Env) (h : identityHook) (st : St) :
  exists new,
    trace (Prerun env h st).2 = trace st ++ new
    /\ match (Prerun env h st).1 with
       | Some e =>
           exists pre minIndex req err,
             new = pre ++ [EvSignIdentities minIndex req]
             /\ well_published env (n_sign st) pre
             /\ sign_at env (n_sign st + length (sign_calls pre))%nat minIndex req
                = inr err
             /\ e = wrapError "error fetching alternate identities: " err
             /\ go_calls new = []
       | None =>
           exists pre,
             new = pre ++ [EvGoRenew (alloc_CreateIndex (ar_alloc h)) ∅]
             /\ well_published env (n_sign st) pre
             /\ sign_calls pre = initial_requests (ar_alloc h) (ar_tasks h)
             /\ go_calls pre = []
       end.
Proof.
  unfold Prerun. rewrite run_bind.
  destruct (Prerun_tasks_spec env h (ar_tasks h) st) as (new & Htr & Hgo & Hres).
  destruct (Prerun_tasks env h (ar_tasks h) st).1 as [e|].
  - exists new. rewrite run_ret. cbn [fst snd]. split; [done|].
    destruct Hres as (pre & i & req & err & -> & Hwp & Hans & ->).
    by exists pre, i, req, err.
  - exists (new ++ [EvGoRenew (alloc_CreateIndex (ar_alloc h)) ∅]).
    rewrite run_bind, run_ret. cbn [fst snd emit trace].
    rewrite Htr, <- app_assoc. split; [done|].
    destruct Hres as [Hwp Hsc]. by exists new.
Qed.

(** C5: [Prerun] either fails or starts the renewal loop.  When it returns
    an error, the last thing it did was a signing call that the signer
    answered with an error, the error returned wraps that one, nothing was
    published after the call and no renewal loop was started.  When it
    returns [nil], every signing call it made was answered with signed
    identities whose name-to-token map was published at once (the map that
    binds the name of each of them to its token and no other name, see
    [token_map_of]), there was one call for each task with identities, and
    the last thing it did was to start the renewal loop, once, with the
    creation index of the allocation. *)
Theorem Prerun_fails_or_starts_one_loop (env : Env) (h : identityHook) (st : St) :
  exists new,
    trace (Prerun env h st).2 = trace st ++ new
    /\ match (Prerun env h st).1 with
       | Some e =>
           exists pre minIndex req err,
             new = pre ++ [EvSignIdentities minIndex req]
             /\ well_published env (n_sign st) pre
             /\ sign_at env (n_sign st + length (sign_calls pre))%nat minIndex req
                = inr err
             /\ e = wrapError "error fetching alternate identities: " err
             /\ go_calls new = []
       | None =>
           exists pre signedWIDs,
             new = pre ++ [EvGoRenew (alloc_CreateIndex (ar_alloc h)) signedWIDs]
             /\ well_published env (n_sign st) pre
             /\ sign_calls pre = initial_requests (ar_alloc h) (ar_tasks h)
             /\ go_calls pre = []
       end.
Proof.
  destruct (Prerun_outcome env h st) as (new & Htr & Hres).
  exists new. split; [done|].
  destruct (Prerun env h st).1; [done|].
  destruct Hres as (pre & H). by exists pre, ∅.
Qed.

(** ** The claims about the identities that [renew] asks for *)

Lemma candidates_ttl wids wid : In wid (candidates wids) -> wid_TTL wid <> 0.
Proof.
  unfold candidates. rewrite filter_In. intros [_ H] Hz. rewrite Hz in H. done.
Qed.

Lemma candidates_In wids wid : In wid (candidates wids) -> In wid wids.
Proof. unfold candidates. rewrite filter_In. tauto. Qed.

Lemma candidates_none wids :
  Forall (fun wid => wid_TTL wid = 0) wids -> candidates wids = [].
Proof.
  induction 1 as [|wid wids Hz _ IH]; [done|]. cbn. by rewrite Hz.
Qed.

(** Every signing call of [renew] asks for the renewal requests of one of
    the tasks. *)
Lemma renew_sign_calls (env : Env) {helper : Helper} (h : identityHook)
    fuel createIndex signedWIDs st :
  exists new,
    trace (renew env h fuel createIndex signedWIDs st).2 = trace st ++ new
    /\ forall c, In c (sign_calls new) ->
         exists task, In (Some task) (ar_tasks h)
                      /\ c = (createIndex, renewal_requests (ar_alloc h) task).
Proof.
  destruct (ar_tasks h) as [|[first|] rest] eqn:Hts.
  - exists []. unfold renew. rewrite Hts. cbn. by rewrite app_nil_r.
  - destruct (emits_renew_first env h fuel createIndex signedWIDs first rest Hts st)
      as (new & Htr & Hev & _).
    exists new. split; [done|]. intros c Hc. exists first. split; [by left|].
    eapply renewal_sign_calls; eauto.
  - exists []. unfold renew. rewrite Hts. cbn. by rewrite app_nil_r.
Qed.

(** When no identity of the first task has a TTL, [renew] returns at once. *)
Lemma renew_nothing_to_renew (env : Env) {helper : Helper} (h : identityHook)
    fuel createIndex signedWIDs first rest st :
  ar_tasks h = Some first :: rest ->
  Forall (fun wid => wid_TTL wid = 0) (task_Identities first) ->
  (renew env h fuel createIndex signedWIDs st).1 = Returned
  /\ exists new,
       trace (renew env h fuel createIndex signedWIDs st).2 = trace st ++ new
       /\ Forall quiet new.
Proof.
  intros Hts Hz. unfold renew. rewrite Hts. cbn [renew_tasks].
  rewrite run_bind, renew_task_unfold.
  unfold renewal_requests. rewrite (candidates_none _ Hz). cbn [map length Nat.eqb].
  destruct (length (task_Identities first) =? 0)%nat; cbv zeta; cbn [fst snd].
  - rewrite run_ret. split; [done|]. eexists. split; [reflexivity|]. by constructor.
  - split; [done|]. eexists. rewrite run_ret. cbn [add_events trace now snd].
    rewrite <- app_assoc. split; [reflexivity|].
    apply Forall_app. split; [apply scan_logs_quiet|by constructor].
Qed.

(** C2: An identity without TTL is fetched once, by [Prerun], and never
    renewed.  It is part of the signing request that [Prerun] makes for its
    task; every signing request of [renew] is made of the requests of the
    identities of one task whose TTL is not zero, so it does not hold the
    request of an identity whose TTL is zero (the task name and the identity
    name tell the identities apart).  And on a hook [h0] whose first task
    only has identities with a TTL of zero, [renew] returns, after any
    number of cycles looked at, without a signing call and without a wait. *)
Theorem zero_ttl_fetched_once_never_renewed
    (env : Env) (helper : Helper) (h h0 : identityHook)
    (fuel : nat) (createIndex : Z)
    (signedWIDs : gmap string SignedWorkloadIdentity) (st stP : St)
    (task first0 : Task) (rest0 : list (option Task)) (wid : WorkloadIdentity) :
  In (Some task) (ar_tasks h) ->
  In wid (task_Identities task) ->
  wid_TTL wid = 0 ->
  (forall task' wid', In (Some task') (ar_tasks h) ->
     In wid' (task_Identities task') ->
     task_Name task' = task_Name task -> wid_Name wid' = wid_Name wid ->
     wid' = wid) ->
  ar_tasks h0 = Some first0 :: rest0 ->
  Forall (fun wid => wid_TTL wid = 0) (task_Identities first0) ->
  (* the initial fetch *)
  ((Prerun env h stP).1 = None ->
   exists newP req,
     trace (Prerun env h stP).2 = trace stP ++ newP
     /\ In (alloc_CreateIndex (ar_alloc h), req) (sign_calls newP)
     /\ In (requestFor (ar_alloc h) task wid) req)
  (* the renewals *)
  /\ (exists new,
        trace (renew env h fuel createIndex signedWIDs st).2 = trace st ++ new
        /\ forall minIndex req, In (minIndex, req) (sign_calls new) ->
             (exists task',
                In (Some task') (ar_tasks h)
                /\ req = map (requestFor (ar_alloc h) task')
                             (candidates (task_Identities task'))
                /\ Forall (fun wid' => wid_TTL wid' <> 0)
                          (candidates (task_Identities task')))
             /\ ~ In (requestFor (ar_alloc h) task wid) req)
  (* nothing to renew *)
  /\ ((renew env h0 fuel createIndex signedWIDs st).1 = Returned
      /\ exists new,
           trace (renew env h0 fuel createIndex signedWIDs st).2 = trace st ++ new
           /\ sign_calls new = [] /\ timer_resets new = []).
Proof.
  intros Htask Hwid Hz Huniq Hts0 Hz0. split; [|split].
  - intros Hok.
    destruct (Prerun_outcome env h stP)
      as (newP & Htr & Hres).
    rewrite Hok in Hres. destruct Hres as (pre & -> & _ & Hsc & _).
    exists (pre ++ [EvGoRenew (alloc_CreateIndex (ar_alloc h)) ∅]),
           (map (requestFor (ar_alloc h) task) (task_Identities task)).
    split; [done|]. split.
    + rewrite sign_calls_app, Hsc. apply in_or_app. left.
      apply initial_requests_In; [done|]. by destruct (task_Identities task).
    + by apply in_map.
  - destruct (renew_sign_calls env h fuel createIndex signedWIDs st)
      as (new & Htr & Hsc).
    exists new. split; [done|]. intros i req Hin.
    destruct (Hsc _ Hin) as (task' & Hin' & Heq). injection Heq as -> ->.
    split.
    + exists task'. split; [done|]. split; [done|].
      apply Forall_forall. intros w Hw. apply list_elem_of_In in Hw.
      by apply candidates_ttl in Hw.
    + unfold renewal_requests. rewrite in_map_iff.
      intros (wid' & Heq & Hcand). injection Heq as Htn Hn.
      pose proof (candidates_ttl _ _ Hcand) as Httl.
      rewrite (Huniq task' wid' Hin' (candidates_In _ _ Hcand) Htn Hn) in Httl.
      done.
  - destruct (renew_nothing_to_renew env h0 fuel createIndex signedWIDs
                first0 rest0 st Hts0 Hz0) as (Hret & new & Htr & Hq).
    split; [done|]. exists new.
    by rewrite (quiet_sign_calls _ Hq), (quiet_timer_resets _ Hq).
Qed.

(** ** The first wait of the renewal loop *)

Section FirstWait.

Variable env : Env.
Context {helper : Helper}.
Variable h : identityHook.

Lemma stopCtx_Err_running st :
  stopped st = false -> calls_at env (n_ctx st) = [] ->
  (stopCtx_Err env st).1 = false.
Proof.
  intros Hst Hcalls. unfold stopCtx_Err, interleave. run.
  rewrite Hcalls. exact Hst.
Qed.

(** Up to its first wait, [renew] only logs; the first reset of the timer,
    if there is one, is to [first_wait]; and there is one when the context
    is not cancelled and a cycle is looked at. *)
Lemma renew_first_turn fuel createIndex signedWIDs task rest st :
  ar_tasks h = Some task :: rest ->
  renewal_requests (ar_alloc h) task <> [] ->
  exists logs more,
    trace (renew env h fuel createIndex signedWIDs st).2 = trace st ++ logs ++ more
    /\ Forall quiet logs
    /\ (more = []
        \/ exists more',
             more = EvTimerReset (first_wait env h task signedWIDs st) :: more')
    /\ (stopped st = false -> calls_at env (n_ctx st) = [] -> fuel <> 0%nat ->
        more <> []).
Proof.
  intros Hts Hreqs. unfold renew. rewrite Hts. cbn [renew_tasks].
  rewrite run_bind, renew_task_unfold.
  assert ((length (task_Identities task) =? 0)%nat = false) as ->.
  { apply Nat.eqb_neq. intros Hl. apply Hreqs. unfold renewal_requests.
    by destruct (task_Identities task). }
  assert ((length (renewal_requests (ar_alloc h) task) =? 0)%nat = false) as ->.
  { apply Nat.eqb_neq. by destruct (renewal_requests (ar_alloc h) task). }
  cbv zeta.
  set (sc := scan_of (ar_alloc h) task signedWIDs (now_at env (n_now st))).
  set (st2 := add_events (now env st).2 (scan_logs signedWIDs (task_Identities task))).
  assert (Hw : (if negb (sc_renewNow sc)
                then expiryToRenewTime env (sc_minExp sc) (minWait h)
                else mret 0) st2
               = (first_wait env h task signedWIDs st,
                  if sc_renewNow sc then st2
                  else (expiryToRenewTime env (sc_minExp sc) (minWait h) st2).2)).
  { unfold first_wait. fold sc. by destruct (sc_renewNow sc). }
  rewrite Hw. cbn [fst snd].
  set (st3 := if sc_renewNow sc then st2 else _).
  assert (H3 : trace st3 = trace st ++ scan_logs signedWIDs (task_Identities task)
               /\ stopped st3 = stopped st /\ n_ctx st3 = n_ctx st).
  { subst st3. by destruct (sc_renewNow sc). }
  destruct H3 as (Htr3 & Hst3 & Hctx3).
  destruct (emits_stopCtx_Err env quiet st3) as (l4 & Htr4 & Hq4 & _).
  destruct (stopCtx_Err env st3).1 eqn:Herr; cbn [fst snd].
  - destruct (renew_tasks_stopped env h fuel createIndex signedWIDs rest
                (stopCtx_Err env st3).2) as (l5 & Htr5 & Hq5 & _).
    { by rewrite <- stopCtx_Err_result. }
    exists (scan_logs signedWIDs (task_Identities task) ++ l4 ++ l5), [].
    rewrite Htr5, Htr4, Htr3, app_nil_r, <- !app_assoc.
    split; [done|]. split; [by rewrite !Forall_app; auto using scan_logs_quiet|].
    split; [by left|]. intros Hs Hc _.
    rewrite stopCtx_Err_running in Herr; [done|by rewrite Hst3|by rewrite Hctx3].
  - rewrite run_ret. cbn [fst snd]. destruct fuel as [|fuel].
    + exists (scan_logs signedWIDs (task_Identities task) ++ l4), [].
      cbn [cycles]. rewrite run_ret. cbn [snd].
      rewrite Htr4, Htr3, app_nil_r, <- !app_assoc.
      split; [done|]. split; [by rewrite !Forall_app; auto using scan_logs_quiet|].
      split; [by left|]. done.
    + destruct (cycles_starts env h fuel createIndex
                  (renewal_requests (ar_alloc h) task) (sc_widMap sc)
                  (first_wait env h task signedWIDs st) 0 (sc_minExp sc)
                  (stopCtx_Err env st3).2) as (more & Htr5).
      exists (scan_logs signedWIDs (task_Identities task) ++ l4
              ++ [EvLog LDebug "waiting to renew identities"]),
             (EvTimerReset (first_wait env h task signedWIDs st) :: more).
      rewrite Htr5, Htr4, Htr3, <- !app_assoc. cbn [app].
      split; [done|].
      split; [rewrite !Forall_app; repeat split; auto using scan_logs_quiet;
              by constructor|].
      split; [right; by exists more|done].
Qed.

(** The first wait, read off the trace. *)
Lemma renew_first_reset fuel createIndex signedWIDs task rest st :
  ar_tasks h = Some task :: rest ->
  renewal_requests (ar_alloc h) task <> [] ->
  exists new,
    trace (renew env h fuel createIndex signedWIDs st).2 = trace st ++ new
    /\ (head (timer_resets new) = None
        \/ head (timer_resets new) = Some (first_wait env h task signedWIDs st))
    /\ (stopped st = false -> calls_at env (n_ctx st) = [] -> fuel <> 0%nat ->
        exists logs more,
          new = logs ++ EvTimerReset (first_wait env h task signedWIDs st) :: more
          /\ Forall quiet logs).
Proof.
  intros Hts Hreqs.
  destruct (renew_first_turn fuel createIndex signedWIDs task rest st Hts Hreqs)
    as (logs & more & Htr & Hq & Hmore & Hrun).
  exists (logs ++ more). split; [done|].
  rewrite timer_resets_app, (quiet_timer_resets _ Hq). cbn [app]. split.
  - destruct Hmore as [->|(more' & ->)]; [by left|by right].
  - intros Hs Hc Hf. destruct Hmore as [->|(more' & ->)].
    + by destruct (Hrun Hs Hc Hf).
    + by exists logs, more'.
Qed.

End FirstWait.

Lemma candidates_intro wids wid :
  In wid wids -> wid_TTL wid <> 0 -> In wid (candidates wids).
Proof.
  intros Hin Httl. unfold candidates. apply filter_In. split; [done|].
  destruct (Z.eqb_spec (wid_TTL wid) 0); done.
Qed.

Lemma renewal_requests_nonempty alloc task :
  candidates (task_Identities task) <> [] -> renewal_requests alloc task <> [].
Proof. unfold renewal_requests. by destruct (candidates _). Qed.

(** C10, as the code has it: the map of signed identities that [Prerun]
    hands to [renew] is the empty map declared at its top, whatever the
    signer answered: a renewal loop is only ever started with the empty map,
    it is started with it, once, when [Prerun] succeeds, and none is started
    when [Prerun] fails.  What follows for [renew]
    depends on the first task only.  When an identity of the first task has
    a TTL, the loop over the identities finds no signed identity for it and
    sets [renewNow], the wait before the first cycle is zero, and the first
    reset of the timer, if [renew] gets to one, is to zero; it gets to one
    when the context is not cancelled and a cycle is looked at.  When no
    identity of the first task has a TTL, [renew] returns without a signing
    call and without a reset of the timer, whatever the identities of the
    other tasks. *)
Theorem renew_starts_with_empty_map
    (env : Env) (helper : Helper) (h : identityHook) (fuel : nat) (st stP : St) :
  (exists newP,
     trace (Prerun env h stP).2 = trace stP ++ newP
     /\ (forall c, In c (go_calls newP) -> c = (alloc_CreateIndex (ar_alloc h), ∅))
     /\ ((Prerun env h stP).1 = None ->
         go_calls newP = [(alloc_CreateIndex (ar_alloc h), ∅)])
     /\ ((Prerun env h stP).1 <> None -> go_calls newP = []))
  /\ (forall task rest wid,
        ar_tasks h = Some task :: rest ->
        In wid (task_Identities task) ->
        wid_TTL wid <> 0 ->
        (forall t0, sc_renewNow (scan_of (ar_alloc h) task ∅ t0) = true)
        /\ first_wait env h task ∅ st = 0
        /\ exists new,
             trace (renew env h fuel (alloc_CreateIndex (ar_alloc h)) ∅ st).2
             = trace st ++ new
             /\ (head (timer_resets new) = None \/ head (timer_resets new) = Some 0)
             /\ (stopped st = false -> calls_at env (n_ctx st) = [] ->
                 fuel <> 0%nat -> head (timer_resets new) = Some 0))
  /\ (forall task rest,
        ar_tasks h = Some task :: rest ->
        Forall (fun wid => wid_TTL wid = 0) (task_Identities task) ->
        (renew env h fuel (alloc_CreateIndex (ar_alloc h)) ∅ st).1 = Returned
        /\ exists new,
             trace (renew env h fuel (alloc_CreateIndex (ar_alloc h)) ∅ st).2
             = trace st ++ new
             /\ sign_calls new = [] /\ timer_resets new = []).
Proof.
  split; [|split].
  - destruct (Prerun_outcome env h stP) as (newP & Htr & Hres).
    exists newP. split; [done|].
    destruct (Prerun env h stP).1 as [e|].
    + destruct Hres as (pre & i & req & err & _ & _ & _ & _ & Hgo).
      rewrite Hgo. split; [by intros c []|done].
    + destruct Hres as (pre & -> & _ & _ & Hgo).
      rewrite go_calls_app, Hgo. cbn. split; [|done].
      by intros c [<-|[]].
  - intros task rest wid Hts Hin Httl.
    assert (Hcand : In wid (candidates (task_Identities task)))
      by (by apply candidates_intro).
    assert (Hnow : forall t0, sc_renewNow (scan_of (ar_alloc h) task ∅ t0) = true).
    { intros t0. unfold scan_of. eapply scan_renewNow_missing; [exact Hcand|].
      apply lookup_empty. }
    assert (Hfw : forall s, first_wait env h task ∅ s = 0).
    { intros s. unfold first_wait. by rewrite Hnow. }
    split; [exact Hnow|]. split; [apply Hfw|].
    destruct (renew_first_reset env h fuel (alloc_CreateIndex (ar_alloc h)) ∅
                task rest st Hts) as (new & Htr & Hhead & Hrun).
    { apply renewal_requests_nonempty. by destruct (candidates _). }
    rewrite Hfw in *. exists new. split; [done|]. split; [done|].
    intros Hs Hc Hf. destruct (Hrun Hs Hc Hf) as (logs & more & -> & Hq).
    by rewrite timer_resets_app, (quiet_timer_resets _ Hq).
  - intros task rest Hts Hz.
    destruct (renew_nothing_to_renew env h fuel (alloc_CreateIndex (ar_alloc h)) ∅
                task rest st Hts Hz) as (Hret & new & Htr & Hq).
    split; [exact Hret|]. exists new. split; [exact Htr|].
    by rewrite (quiet_sign_calls _ Hq), (quiet_timer_resets _ Hq).
Qed.

(** C1, as the code has it: when every identity of the first task that has
    a TTL comes with a signed identity, the wait before the first cycle is
    the renewal time of [minExp], the earliest of the expirations of these
    signed identities and of the default, which is thirty hours after the
    first reading of the clock.  Up to the first reset of the timer [renew]
    only logs, so the wait comes before the first signing call.  By the
    contract of the helper the wait is at least the floor, and it is less
    than what is left to any of the expirations when at least twice the
    floor is left to [minExp]. *)
Theorem first_wait_is_renewal_time
    (env : Env) (helper : Helper) (h : identityHook) (fuel : nat)
    (createIndex : Z) (signedWIDs : gmap string SignedWorkloadIdentity)
    (task : Task) (rest : list (option Task)) (st : St) :
  ar_tasks h = Some task :: rest ->
  candidates (task_Identities task) <> [] ->
  (forall wid, In wid (candidates (task_Identities task)) ->
     is_Some (signedWIDs !! wid_Name wid)) ->
  let t0 := now_at env (n_now st) in
  let t1 := now_at env (S (n_now st)) in
  let minExp := sc_minExp (scan_of (ar_alloc h) task signedWIDs t0) in
  let wait := ExpiryToRenewTime minExp t1 (rand_at env (n_rand st)) (minWait h) in
  (minExp <= t0 + 30 * Hour
   /\ (forall wid sid, In wid (candidates (task_Identities task)) ->
         signedWIDs !! wid_Name wid = Some sid -> minExp <= swi_Expiration sid)
   /\ (minExp = t0 + 30 * Hour
       \/ exists wid sid,
            In wid (candidates (task_Identities task))
            /\ signedWIDs !! wid_Name wid = Some sid
            /\ minExp = swi_Expiration sid))
  /\ first_wait env h task signedWIDs st = wait
  /\ (exists new,
        trace (renew env h fuel createIndex signedWIDs st).2 = trace st ++ new
        /\ (head (timer_resets new) = None \/ head (timer_resets new) = Some wait)
        /\ (stopped st = false -> calls_at env (n_ctx st) = [] -> fuel <> 0%nat ->
            exists logs more,
              new = logs ++ EvTimerReset wait :: more /\ Forall quiet logs))
  /\ (HelperContract helper -> minWait h <= wait)
  /\ (HelperContract helper -> 0 < minWait h -> 2 * minWait h <= minExp - t1 ->
      forall wid sid, In wid (candidates (task_Identities task)) ->
        signedWIDs !! wid_Name wid = Some sid ->
        wait < swi_Expiration sid - t1).
Proof.
  intros Hts Hcand Hsigned t0 t1 minExp wait.
  assert (Hlower : forall wid sid, In wid (candidates (task_Identities task)) ->
            signedWIDs !! wid_Name wid = Some sid -> minExp <= swi_Expiration sid).
  { intros wid sid Hin Hsid. subst minExp. unfold scan_of.
    eapply scan_minExp_lower; eauto. }
  assert (Hfw : first_wait env h task signedWIDs st = wait).
  { unfold first_wait. fold t0. unfold scan_of.
    rewrite scan_renewNow_signed by done. reflexivity. }
  split; [split; [|split]|split; [exact Hfw|split; [|split]]].
  - subst minExp. unfold scan_of.
    etrans; [apply scan_minExp_le|]. cbn. unfold time_Add. lia.
  - exact Hlower.
  - subst minExp. unfold scan_of.
    destruct (scan_minExp_attained (ar_alloc h) task signedWIDs (task_Identities task)
                (mkScan [] false (time_Add t0 (30 * Hour)) ∅)) as [Heq|Hex].
    + left. rewrite Heq. reflexivity.
    + by right.
  - destruct (renew_first_reset env h fuel createIndex signedWIDs task rest st Hts)
      as (new & Htr & Hhead & Hrun).
    { by apply renewal_requests_nonempty. }
    rewrite Hfw in *. by exists new.
  - intros Hc. apply renew_floor.
  - intros Hc Hpos Hleft wid sid Hin Hsid.
    pose proof (Hlower wid sid Hin Hsid).
    pose proof (renew_slack minExp t1 (rand_at env (n_rand st)) (minWait h) Hpos Hleft).
    fold wait in H0. lia.
Qed.

(** ** Cancellation *)

Lemma stop_stop st : (stop (stop st).2).2 = (stop st).2.
Proof. reflexivity. Qed.

(** Any number of calls of [Stop] and [Shutdown], in any order, does what
    one call of [h.stop()] does. *)
Lemma runCalls_run cs st :
  runCalls cs st = (tt, match cs with [] => st | _ :: _ => (stop st).2 end).
Proof.
  revert st. induction cs as [|c cs IH]; intros st; [reflexivity|].
  cbn [runCalls]. rewrite run_bind, IH.
  assert ((runCall c st).2 = (stop st).2) as -> by (by destruct c).
  by destruct cs.
Qed.

Section Cancel.

Variable env : Env.
Context {helper : Helper}.
Variable h : identityHook.

Lemma interleave_run st :
  interleave env st
  = (tt, match calls_at env (n_ctx st) with [] => st | _ :: _ => (stop st).2 end).
Proof. unfold interleave. apply runCalls_run. Qed.

(** The [select] leaves the counters of the other answers and the trace as
    they are, and only takes the [Done] case on a cancelled context. *)
Lemma select_state st :
  let s := select_timer_or_done env st in
  trace s.2 = trace st /\ n_sign s.2 = n_sign st /\ n_rand s.2 = n_rand st
  /\ n_now s.2 = n_now st /\ n_setAlt s.2 = n_setAlt st
  /\ n_ctx s.2 = S (n_ctx st)
  /\ (s.1 = false -> stopped s.2 = true)
  /\ (timer_wins_at env (n_ctx st) = true -> s.1 = true).
Proof.
  unfold select_timer_or_done. run. rewrite interleave_run. cbn [fst snd].
  destruct (calls_at env (n_ctx st)); cbn; repeat split; try done.
  - by destruct (stopped st).
  - intros ->. by destruct (stopped st).
Qed.

(** When the [select] takes the [Done] case, the cycle returns: after the
    reset of the timer nothing else happens. *)
Lemma cycle_Done createIndex reqs widMap wait retry minExp st :
  (select_timer_or_done env (asleep st wait)).1 = false ->
  cycle env h createIndex reqs widMap wait retry minExp st
  = (Return, (select_timer_or_done env (asleep st wait)).2).
Proof. intros Hs. rewrite cycle_unfold. cbv zeta. by rewrite Hs. Qed.

(** A cycle only returns when the [select] took the [Done] case. *)
Lemma cycle_Return createIndex reqs widMap wait retry minExp st :
  (cycle env h createIndex reqs widMap wait retry minExp st).1 = Return ->
  (select_timer_or_done env (asleep st wait)).1 = false.
Proof.
  rewrite cycle_unfold. cbv zeta.
  destruct (select_timer_or_done env (asleep st wait)).1; [|done].
  destruct (SignIdentities env createIndex reqs _).1 as [tokens|err];
    [destruct (length tokens =? 0)%nat|]; by rewrite ?cycleFailed_run.
Qed.

Lemma cycles_not_Panicked fuel createIndex reqs widMap wait retry minExp st :
  (cycles env h fuel createIndex reqs widMap wait retry minExp st).1 <> Panicked.
Proof.
  revert wait retry minExp st. induction fuel as [|fuel IH]; intros; [done|].
  cbn [cycles]. rewrite run_bind.
  destruct (cycle env h createIndex reqs widMap wait retry minExp st).1;
    [apply IH|done].
Qed.

End Cancel.

(** *** Computations that leave [stopCtx] alone *)

Lemma ctx_frame_ret {A} (a : A) : ctx_frame (mret a : M A).
Proof. by intros st. Qed.

Lemma ctx_frame_bind {A B} (m : M A) (k : A -> M B) :
  ctx_frame m -> (forall a, ctx_frame (k a)) -> ctx_frame (m ≫= k).
Proof.
  intros Hm Hk st. rewrite run_bind.
  destruct (Hm st) as [H1 H2], (Hk (m st).1 (m st).2) as [H3 H4].
  split; congruence.
Qed.

Lemma ctx_frame_emit e : ctx_frame (emit e).
Proof. by intros st. Qed.

Lemma ctx_frame_add_events st new :
  n_ctx (add_events st new) = n_ctx st /\ stopped (add_events st new) = stopped st.
Proof. done. Qed.

Section CtxFrame.

Variable env : Env.
Context {helper : Helper}.
Variable h : identityHook.

Lemma ctx_frame_now : ctx_frame (now env).
Proof. by intros st. Qed.

Lemma ctx_frame_rand : ctx_frame (rand env).
Proof. by intros st. Qed.

Lemma ctx_frame_SignIdentities minIndex req :
  ctx_frame (SignIdentities env minIndex req).
Proof. by intros st. Qed.

Lemma ctx_frame_setAltToken widspec jwt : ctx_frame (setAltToken env widspec jwt).
Proof. by intros st. Qed.

Lemma ctx_frame_expiryToRenewTime exp w : ctx_frame (expiryToRenewTime env exp w).
Proof. by intros st. Qed.

Lemma ctx_frame_randomStagger intv : ctx_frame (randomStagger env intv).
Proof. by intros st. Qed.

Lemma ctx_frame_cycleFailed retry minExp : ctx_frame (cycleFailed env h retry minExp).
Proof. by intros st. Qed.

Lemma ctx_frame_applyTokens widMap retry tokens minExp :
  ctx_frame (applyTokens env h widMap retry tokens minExp).
Proof.
  revert minExp. induction tokens as [|token tokens IH]; intros minExp;
    cbn [applyTokens]; [apply ctx_frame_ret|].
  destruct (widMap !! swi_IdentityName token).
  - apply ctx_frame_bind; [apply ctx_frame_setAltToken|]. intros [err|]; [|done].
    apply ctx_frame_bind; [apply ctx_frame_now|]. intros.
    apply ctx_frame_bind; [apply ctx_frame_randomStagger|]. intros.
    apply ctx_frame_bind; [apply ctx_frame_emit|done].
  - apply ctx_frame_bind; [apply ctx_frame_emit|done].
Qed.

End CtxFrame.

(** The run of [renew] only depends on the calls of [Stop] and [Shutdown]
    through the moment of the first one: two schedules of calls give the
    same run when, at every moment, both have a call or both have none, or
    both had one before. *)
Section SameCalls.

Variable env : Env.
Context {helper : Helper}.
Variable h : identityHook.
Variables calls1 calls2 : nat -> list HookCall.
Hypothesis same_moments : forall k,
  (calls1 k = [] <-> calls2 k = [])
  \/ exists j, (j < k)%nat /\ calls1 j <> [].

Lemma landed_frame {A} (m : M A) st :
  ctx_frame m -> landed calls1 st -> landed calls1 (m st).2.
Proof.
  intros Hm Hl j Hj Hc. destruct (Hm st) as [Hn Hs].
  rewrite Hs. apply (Hl j); [by rewrite <- Hn|done].
Qed.

Lemma landed_add_events st new :
  landed calls1 st -> landed calls1 (add_events st new).
Proof. intros Hl j Hj Hc. exact (Hl j Hj Hc). Qed.

Lemma interleave_calls st :
  landed calls1 st ->
  interleave (with_calls env calls1) st = interleave (with_calls env calls2) st.
Proof.
  intros Hl. destruct (same_moments (n_ctx st)) as [[H12 H21]|(j & Hj & Hc)].
  - rewrite !interleave_run. cbn [calls_at with_calls].
    destruct (calls1 (n_ctx st)), (calls2 (n_ctx st)); try done.
    + by specialize (H12 eq_refl).
    + by specialize (H21 eq_refl).
  - unfold interleave. rewrite !runCalls_run.
    pose proof (Hl j Hj Hc) as Hs.
    assert ((stop st).2 = st) as -> by (destruct st; cbn in Hs; by subst).
    cbn [calls_at with_calls].
    by destruct (calls1 (n_ctx st)), (calls2 (n_ctx st)).
Qed.

Lemma landed_interleave_tick st :
  landed calls1 st ->
  landed calls1 (tick_ctx (interleave (with_calls env calls1) st).2).2.
Proof.
  intros Hl j Hj Hc. rewrite interleave_run in *. cbn [calls_at with_calls snd] in *.
  destruct (calls1 (n_ctx st)) eqn:E; cbn in *.
  - apply (Hl j); [|done]. assert (j <> n_ctx st) by congruence. lia.
  - done.
Qed.

Lemma stopCtx_Err_calls st :
  landed calls1 st ->
  stopCtx_Err (with_calls env calls1) st = stopCtx_Err (with_calls env calls2) st
  /\ landed calls1 (stopCtx_Err (with_calls env calls1) st).2.
Proof.
  intros Hl. unfold stopCtx_Err. run. rewrite <- interleave_calls by done.
  split; [done|]. by apply landed_interleave_tick.
Qed.

Lemma select_calls st :
  landed calls1 st ->
  select_timer_or_done (with_calls env calls1) st
  = select_timer_or_done (with_calls env calls2) st
  /\ landed calls1 (select_timer_or_done (with_calls env calls1) st).2.
Proof.
  intros Hl. unfold select_timer_or_done. run. rewrite <- interleave_calls by done.
  split; [done|]. by apply landed_interleave_tick.
Qed.

Lemma applyTokens_calls widMap retry tokens minExp st :
  applyTokens (with_calls env calls1) h widMap retry tokens minExp st
  = applyTokens (with_calls env calls2) h widMap retry tokens minExp st.
Proof.
  revert minExp st. induction tokens as [|token tokens IH]; intros; [done|].
  cbn [applyTokens]. destruct (widMap !! swi_IdentityName token).
  - rewrite !run_bind.
    change (setAltToken (with_calls env calls1)) with (setAltToken (with_calls env calls2)).
    destruct (setAltToken _ _ _ _).1; [|apply IH].
    rewrite !run_bind. apply IH.
  - rewrite !run_bind. apply IH.
Qed.

Lemma cycle_calls createIndex reqs widMap wait retry minExp st :
  landed calls1 st ->
  cycle (with_calls env calls1) h createIndex reqs widMap wait retry minExp st
  = cycle (with_calls env calls2) h createIndex reqs widMap wait retry minExp st
  /\ landed calls1
       (cycle (with_calls env calls1) h createIndex reqs widMap wait retry minExp st).2.
Proof.
  intros Hl. rewrite !cycle_unfold. cbv zeta.
  destruct (select_calls (asleep st wait)) as [<- Hl1];
    [by apply landed_add_events|].
  destruct (select_timer_or_done _ _).1; [|done].
  change (SignIdentities (with_calls env calls2)) with (SignIdentities (with_calls env calls1)).
  set (r := SignIdentities _ _ _ _).
  assert (Hlr : landed calls1 r.2).
  { subst r. apply landed_frame; [apply ctx_frame_SignIdentities|].
    by apply landed_add_events. }
  destruct r.1 as [tokens|err]; [|split; [done|]].
  - destruct (length tokens =? 0)%nat.
    + split; [done|]. apply landed_frame; [apply ctx_frame_cycleFailed|done].
    + rewrite <- applyTokens_calls. split; [done|]. cbn [snd].
      apply landed_frame; [apply ctx_frame_expiryToRenewTime|].
      apply landed_frame; [apply ctx_frame_applyTokens|done].
  - apply landed_frame; [apply ctx_frame_cycleFailed|done].
Qed.

Lemma cycles_calls fuel createIndex reqs widMap wait retry minExp st :
  landed calls1 st ->
  cycles (with_calls env calls1) h fuel createIndex reqs widMap wait retry minExp st
  = cycles (with_calls env calls2) h fuel createIndex reqs widMap wait retry minExp st
  /\ landed calls1
       (cycles (with_calls env calls1) h fuel createIndex reqs widMap wait retry minExp st).2.
Proof.
  revert wait retry minExp st. induction fuel as [|fuel IH]; intros ???? Hl; [done|].
  cbn [cycles]. rewrite !run_bind.
  destruct (cycle_calls createIndex reqs widMap wait retry minExp st Hl) as [<- Hl1].
  destruct (cycle _ _ _ _ _ _ _ _ _).1; [by apply IH|done].
Qed.

Lemma renew_task_calls fuel createIndex signedWIDs t st :
  landed calls1 st ->
  renew_task (with_calls env calls1) h fuel createIndex signedWIDs t st
  = renew_task (with_calls env calls2) h fuel createIndex signedWIDs t st
  /\ landed calls1
       (renew_task (with_calls env calls1) h fuel createIndex signedWIDs t st).2.
Proof.
  intros Hl. destruct t as [task|]; [|done]. rewrite !renew_task_unfold.
  destruct (length (task_Identities task) =? 0)%nat; [done|]. cbv zeta.
  destruct (length (renewal_requests (ar_alloc h) task) =? 0)%nat; [done|].
  change (now_at (with_calls env calls2)) with (now_at (with_calls env calls1)).
  change (now (with_calls env calls2)) with (now (with_calls env calls1)).
  change (expiryToRenewTime (with_calls env calls2))
    with (expiryToRenewTime (with_calls env calls1)).
  match goal with |- context [stopCtx_Err _ ?s] => set (st3 := s) end.
  assert (Hl3 : landed calls1 st3).
  { subst st3. destruct (negb _); [|done].
    apply landed_frame; [apply ctx_frame_expiryToRenewTime|done]. }
  destruct (stopCtx_Err_calls st3 Hl3) as [<- Hl4].
  destruct (stopCtx_Err _ _).1; [done|].
  match goal with |- context [cycles (with_calls env calls1) h fuel ?a ?b ?c ?d ?e ?f ?s] =>
    destruct (cycles_calls fuel a b c d e f s Hl4) as [<- Hl5] end.
  done.
Qed.

Lemma renew_calls fuel createIndex signedWIDs st :
  landed calls1 st ->
  renew (with_calls env calls1) h fuel createIndex signedWIDs st
  = renew (with_calls env calls2) h fuel createIndex signedWIDs st.
Proof.
  unfold renew. generalize (ar_tasks h). intros ts. revert st.
  induction ts as [|t ts IH]; intros st Hl; [done|].
  cbn [renew_tasks]. rewrite !run_bind.
  destruct (renew_task_calls fuel createIndex signedWIDs t st Hl) as [<- Hl1].
  destruct (renew_task _ _ _ _ _ _ _).1; [by apply IH|done].
Qed.

End SameCalls.

(** C3: Cancelling twice is cancelling once.  [Stop] and [Shutdown] both do
    what [h.stop()] does and nothing else, [Stop] returns [nil], and a
    second [h.stop()] changes nothing.  So a run of [renew] in which a first
    call lands when the hook looks at [stopCtx] for the [k0]-th time and a
    second one then or later ([Stop] then [Shutdown], or the other way
    round) is the run in which only one call lands, at the same moment: same
    result, same trace.  And when the [select] of a cycle takes the [Done]
    case, the cycle and [renew] return, and nothing has happened since the
    reset of the timer: no signing call, no write to a sink. *)
Theorem cancelling_twice_is_cancelling_once
    (env : Env) (helper : Helper) (h : identityHook) (fuel : nat)
    (createIndex : Z) (signedWIDs : gmap string SignedWorkloadIdentity)
    (reqs : list WorkloadIdentityRequest) (widMap : gmap string WorkloadIdentity)
    (wait : Duration) (retry : Z) (minExp : Time) (st : St)
    (k0 k1 : nat) (c c1 c2 : HookCall) :
  (n_ctx st <= k0)%nat -> (k0 <= k1)%nat ->
  let once := fun k : nat => if (k =? k0)%nat then [c] else [] in
  let twice := fun k : nat =>
    (if (k =? k0)%nat then [c1] else []) ++ (if (k =? k1)%nat then [c2] else []) in
  (forall s0,
     (Stop s0).1 = None /\ (Stop s0).2 = (stop s0).2
     /\ (Shutdown s0).2 = (stop s0).2
     /\ (stop (stop s0).2).2 = (stop s0).2
     /\ stopped (stop s0).2 = true /\ trace (stop s0).2 = trace s0)
  /\ renew (with_calls env twice) h fuel createIndex signedWIDs st
     = renew (with_calls env once) h fuel createIndex signedWIDs st
  /\ ((select_timer_or_done env (asleep st wait)).1 = false ->
      let c := cycle env h createIndex reqs widMap wait retry minExp st in
      let cs := cycles env h (S fuel) createIndex reqs widMap wait retry minExp st in
      c.1 = Return /\ cs = (Returned, c.2)
      /\ trace c.2 = trace st ++ [EvLog LDebug "waiting to renew identities";
                                   EvTimerReset wait]
      /\ n_sign c.2 = n_sign st /\ n_setAlt c.2 = n_setAlt st
      /\ stopped c.2 = true).
Proof.
  intros Hk0 Hk1 once twice. split; [done|]. split.
  - apply renew_calls.
    + intros k. subst once twice. cbv beta.
      destruct (Nat.eqb_spec k k0) as [->|Hne].
      * left. by destruct (k0 =? k1)%nat.
      * destruct (Nat.eqb_spec k k1) as [->|Hne1]; [|by left].
        right. exists k0. split; [lia|]. by rewrite Nat.eqb_refl.
    + intros j Hj Hc. subst twice. cbv beta in Hc.
      destruct (Nat.eqb_spec j k0); [lia|].
      destruct (Nat.eqb_spec j k1); [lia|]. done.
  - intros Hs c' cs. subst c' cs. cbn [cycles]. rewrite run_bind.
    rewrite (cycle_Done env h createIndex reqs widMap wait retry minExp st Hs).
    cbn [fst snd]. rewrite run_ret.
    destruct (select_state env (asleep st wait))
      as (Htr & Hsign & _ & _ & Halt & _ & Hstop & _).
    repeat split; try done. by apply Hstop.
Qed.

(** Without a call of [Stop] or [Shutdown] the renewal loop never ends. *)
Section Forever.

Variable env : Env.
Context {helper : Helper}.
Variable h : identityHook.
Hypothesis no_calls : forall k, calls_at env k = [].

Lemma stopCtx_Err_no_calls st :
  stopped st = false ->
  (stopCtx_Err env st).1 = false /\ stopped (stopCtx_Err env st).2 = false.
Proof.
  intros Hst. unfold stopCtx_Err. run. rewrite interleave_run, no_calls. done.
Qed.

Lemma select_no_calls st :
  stopped st = false ->
  (select_timer_or_done env st).1 = true
  /\ stopped (select_timer_or_done env st).2 = false.
Proof.
  intros Hst. unfold select_timer_or_done. run.
  rewrite interleave_run, no_calls. cbn. by rewrite Hst.
Qed.

Lemma cycle_no_calls createIndex reqs widMap wait retry minExp st :
  stopped st = false ->
  (cycle env h createIndex reqs widMap wait retry minExp st).1 <> Return
  /\ stopped (cycle env h createIndex reqs widMap wait retry minExp st).2 = false.
Proof.
  intros Hst.
  destruct (select_no_calls (asleep st wait) Hst) as [Hsel Hs].
  split.
  - intros Hret. apply cycle_Return in Hret. congruence.
  - rewrite cycle_unfold. cbv zeta. rewrite Hsel.
    set (r := SignIdentities _ _ _ _).
    assert (Hr : stopped r.2 = false) by done.
    destruct r.1 as [tokens|err]; [destruct (length tokens =? 0)%nat|]; try done.
    cbn [snd].
    destruct (ctx_frame_expiryToRenewTime env
                (applyTokens env h widMap retry tokens zeroTime r.2).1 (minWait h)
                (applyTokens env h widMap retry tokens zeroTime r.2).2) as [_ ->].
    destruct (ctx_frame_applyTokens env h widMap retry tokens zeroTime r.2)
      as [_ ->].
    exact Hr.
Qed.

Lemma cycles_no_calls fuel createIndex reqs widMap wait retry minExp st :
  stopped st = false ->
  exists wait' retry' minExp',
    (cycles env h fuel createIndex reqs widMap wait retry minExp st).1
    = Running wait' retry' minExp'.
Proof.
  revert wait retry minExp st. induction fuel as [|fuel IH]; intros ???? Hst.
  - by exists wait, retry, minExp.
  - cbn [cycles]. rewrite run_bind.
    destruct (cycle_no_calls createIndex reqs widMap wait retry minExp st Hst)
      as [Hne Hs].
    destruct (cycle env h createIndex reqs widMap wait retry minExp st).1
      as [w r m|]; [by apply IH|done].
Qed.

Lemma renew_no_calls fuel createIndex signedWIDs task rest st :
  ar_tasks h = Some task :: rest ->
  candidates (task_Identities task) <> [] ->
  stopped st = false ->
  exists wait retry minExp,
    (renew env h fuel createIndex signedWIDs st).1 = Running wait retry minExp.
Proof.
  intros Hts Hcand Hst. unfold renew. rewrite Hts. cbn [renew_tasks].
  rewrite run_bind, renew_task_unfold.
  assert ((length (task_Identities task) =? 0)%nat = false) as ->.
  { apply Nat.eqb_neq. intros Hl. apply Hcand.
    by destruct (task_Identities task). }
  assert ((length (renewal_requests (ar_alloc h) task) =? 0)%nat = false) as ->.
  { apply Nat.eqb_neq. unfold renewal_requests.
    by destruct (candidates (task_Identities task)). }
  cbv zeta.
  match goal with |- context [stopCtx_Err env ?s] => set (st3 := s) end.
  assert (H3 : stopped st3 = false) by (subst st3; by destruct (negb _)).
  destruct (stopCtx_Err_no_calls st3 H3) as [-> H4]. cbn [fst snd].
  rewrite run_ret. cbn [fst]. by apply cycles_no_calls.
Qed.

End Forever.

(** C9, as the code has it: only the identities of the first task are ever
    renewed.  The first turn of the loop over the task runners ends [renew]
    (it returns, or it is still in its renewal loop after the cycles looked
    at) unless [stopCtx] is cancelled when the renewal loop is reached: then
    the renewal loop is skipped and the loop over the task runners goes on,
    but with the context cancelled the later turns only log.  A cycle of the
    renewal loop only returns on a cancelled context: without a call of
    [Stop] or [Shutdown], [renew] is still in the renewal loop of the first
    task after any number of cycles.  So every signing call of [renew] asks
    for the renewal requests of the first task. *)
Theorem only_first_task_is_renewed
    (env : Env) (helper : Helper) (h : identityHook) (fuel : nat)
    (createIndex : Z) (signedWIDs : gmap string SignedWorkloadIdentity)
    (task : Task) (rest : list (option Task)) (st : St) :
  ar_tasks h = Some task :: rest ->
  let turn := renew_task env h fuel createIndex signedWIDs (Some task) st in
  match turn.1 with
  | Done Returned | Done (Running _ _ _) => True
  | Done Panicked => False
  | Next =>
      stopped turn.2 = true
      /\ exists logs,
           trace (renew_tasks env h fuel createIndex signedWIDs rest turn.2).2
           = trace turn.2 ++ logs
           /\ Forall quiet logs
  end
  /\ (stopped st = false -> calls_at env (n_ctx st) = [] -> turn.1 <> Next)
  /\ (stopped st = false -> (forall k, calls_at env k = []) ->
      candidates (task_Identities task) <> [] ->
      exists wait retry minExp,
        (renew env h fuel createIndex signedWIDs st).1 = Running wait retry minExp)
  /\ (forall reqs widMap wait retry minExp st',
        (cycle env h createIndex reqs widMap wait retry minExp st').1 = Return ->
        stopped (cycle env h createIndex reqs widMap wait retry minExp st').2 = true)
  /\ exists new,
       trace (renew env h fuel createIndex signedWIDs st).2 = trace st ++ new
       /\ forall c, In c (sign_calls new) ->
            c = (createIndex, renewal_requests (ar_alloc h) task).
Proof.
  intros Hts turn. split; [|split; [|split; [|split]]].
  - destruct turn.1 as [|[| |]] eqn:E; try done.
    + pose proof (renew_task_Next env h fuel createIndex signedWIDs _ st E) as Hs.
      split; [exact Hs|].
      destruct (renew_tasks_stopped env h fuel createIndex signedWIDs rest _ Hs)
        as (logs & Htr & Hq & _).
      by exists logs.
    + subst turn. rewrite renew_task_unfold in E.
      destruct (length (task_Identities task) =? 0)%nat; [done|]. cbv zeta in E.
      destruct (length (renewal_requests (ar_alloc h) task) =? 0)%nat; [done|].
      destruct (stopCtx_Err env _).1; [done|]. cbn [fst] in E.
      injection E as E. by apply cycles_not_Panicked in E.
  - intros Hs Hc. subst turn. rewrite renew_task_unfold.
    destruct (length (task_Identities task) =? 0)%nat; [done|]. cbv zeta.
    destruct (length (renewal_requests (ar_alloc h) task) =? 0)%nat; [done|].
    rewrite stopCtx_Err_running; [done| |]; by destruct (negb _).
  - intros Hs Hc Hcand. by eapply renew_no_calls.
  - intros reqs widMap wait retry minExp st' Hret.
    pose proof (cycle_Return env h _ _ _ _ _ _ _ Hret) as Hsel.
    rewrite (cycle_Done env h _ _ _ _ _ _ _ Hsel). cbn [snd].
    by apply (select_state env (asleep st' wait)).
  - destruct (emits_renew_first env h fuel createIndex signedWIDs task rest Hts st)
      as (new & Htr & Hev & _).
    exists new. split; [done|]. intros c Hc.
    eapply renewal_sign_calls; eauto.
Qed.

(** ** Failed cycles *)

Section Failures.

Variable env : Env.
Context {helper : Helper}.
Variable h : identityHook.

Lemma u64_succ_small retry : 0 <= retry < 2 ^ 64 - 1 -> u64_succ retry = retry + 1.
Proof. intros H. unfold u64_succ, wrap_uint64. apply Z.mod_small. lia. Qed.

Lemma dur_add_small a b : - 2 ^ 63 <= a + b < 2 ^ 63 -> dur_add a b = a + b.
Proof.
  intros H. unfold dur_add, wrap_int64. rewrite Z.mod_small; lia.
Qed.

(** A cycle whose signing call fails. *)
Lemma cycle_failed createIndex reqs widMap wait retry minExp st :
  (select_timer_or_done env (asleep st wait)).1 = true ->
  failed (sign_at env (n_sign st) createIndex reqs) ->
  let c := cycle env h createIndex reqs widMap wait retry minExp st in
  c.1 = Continue (failure_wait h retry (rand_at env (n_rand st)))
                 (u64_succ retry) minExp
  /\ trace c.2 = trace st ++ [EvLog LDebug "waiting to renew identities";
                              EvTimerReset wait;
                              EvLog LTrace "getting new signed identities";
                              EvSignIdentities createIndex reqs;
                              EvLog LError "error renewing workload identities"]
  /\ n_sign c.2 = S (n_sign st) /\ n_rand c.2 = S (n_rand st)
  /\ n_now c.2 = n_now st /\ n_setAlt c.2 = n_setAlt st.
Proof.
  intros Hsel Hfail c. subst c. rewrite cycle_unfold. cbv zeta. rewrite Hsel.
  destruct (select_state env (asleep st wait))
    as (Htr & Hsign & Hrand & Hnow & Halt & _).
  cbn [SignIdentities fst snd add_events n_sign]. rewrite Hsign.
  change (n_sign (asleep st wait)) with (n_sign st).
  destruct (sign_at env (n_sign st) createIndex reqs) as [tokens|err].
  - cbn in Hfail. subst tokens. cbn [length Nat.eqb].
    rewrite cycleFailed_run. cbn. rewrite ?Htr, ?Hrand, ?Hsign, ?Hnow, ?Halt.
    cbn. by rewrite <- !app_assoc.
  - rewrite cycleFailed_run. cbn. rewrite ?Htr, ?Hrand, ?Hsign, ?Hnow, ?Halt.
    cbn. by rewrite <- !app_assoc.
Qed.

(** C4: A signing call of a cycle that returns no signed identity is
    handled as one that returns an error.  In both cases the retry counter
    is incremented, the next wait is the backoff of the floor, one hour and
    the new retry count, plus the jitter of the floor, the expiration kept
    by the loop is not touched, no token is written to a sink, and the loop
    goes on with its next cycle. *)
Theorem empty_answer_is_handled_as_error
    (createIndex : Z) (reqs : list WorkloadIdentityRequest)
    (widMap : gmap string WorkloadIdentity) (wait : Duration) (retry : Z)
    (minExp : Time) (st : St) (fuel : nat) (err : error) :
  (select_timer_or_done env (asleep st wait)).1 = true ->
  sign_at env (n_sign st) createIndex reqs = inl []
  \/ sign_at env (n_sign st) createIndex reqs = inr err ->
  let c := cycle env h createIndex reqs widMap wait retry minExp st in
  let wait' := dur_add (Backoff (minWait h) Hour (u64_succ retry))
                       (RandomStagger (minWait h) (rand_at env (n_rand st))) in
  c.1 = Continue wait' (u64_succ retry) minExp
  /\ (0 <= retry < 2 ^ 64 - 1 -> u64_succ retry = retry + 1)
  /\ trace c.2 = trace st ++ [EvLog LDebug "waiting to renew identities";
                              EvTimerReset wait;
                              EvLog LTrace "getting new signed identities";
                              EvSignIdentities createIndex reqs;
                              EvLog LError "error renewing workload identities"]
  /\ n_setAlt c.2 = n_setAlt st
  /\ cycles env h (S fuel) createIndex reqs widMap wait retry minExp st
     = cycles env h fuel createIndex reqs widMap wait' (u64_succ retry) minExp c.2.
Proof.
  intros Hsel Hans c wait'.
  assert (Hfail : failed (sign_at env (n_sign st) createIndex reqs))
    by (destruct Hans as [-> | ->]; done).
  destruct (cycle_failed createIndex reqs widMap wait retry minExp st Hsel Hfail)
    as (Hc & Htr & _ & _ & _ & Halt).
  fold c in Hc, Htr, Halt. repeat split; try done.
  - apply u64_succ_small.
  - cbn [cycles]. rewrite run_bind. fold c. by rewrite Hc.
Qed.

(** *** Writing the tokens to the sinks *)

Lemma applyTokens_setAlt_calls widMap retry tokens minExp st :
  exists new,
    trace (applyTokens env h widMap retry tokens minExp st).2 = trace st ++ new
    /\ setAlt_calls new
       = omap (fun token =>
                 (fun widspec => (widspec, swi_JWT token))
                   <$> widMap !! swi_IdentityName token) tokens.
Proof.
  revert minExp st. induction tokens as [|token tokens IH]; intros minExp st;
    cbn [applyTokens omap list_omap].
  - exists []. by rewrite run_ret, app_nil_r.
  - destruct (widMap !! swi_IdentityName token) as [widspec|]; cbn [fmap option_fmap option_map].
    + rewrite run_bind. cbn [setAltToken fst snd].
      destruct (setAlt_at env (n_setAlt st) widspec (swi_JWT token)).
      * unfold randomStagger. run.
        match goal with |- context [applyTokens env h widMap retry tokens ?m ?s] =>
          destruct (IH m s) as (new & Htr & Hsc) end.
        exists (EvSetAltToken widspec (swi_JWT token)
                :: EvLog LError "error setting new workload identity" :: new).
        rewrite Htr. cbn. rewrite <- !app_assoc. split; [done|]. by rewrite Hsc.
      * match goal with |- context [applyTokens env h widMap retry tokens ?m ?s] =>
          destruct (IH m s) as (new & Htr & Hsc) end.
        exists (EvSetAltToken widspec (swi_JWT token) :: new).
        rewrite Htr. cbn. rewrite <- !app_assoc. split; [done|]. by rewrite Hsc.
    + rewrite run_bind.
      match goal with |- context [applyTokens env h widMap retry tokens ?m ?s] =>
        destruct (IH m s) as (new & Htr & Hsc) end.
      exists (EvLog LWarn "bug: unexpected workload identity received" :: new).
      rewrite Htr. cbn. rewrite <- !app_assoc. split; [done|]. by rewrite Hsc.
Qed.

(** C8: A failed write to the sink of one identity does not end the cycle
    for the others.  When the write of the token of an identity fails, the
    loop over the tokens goes on with the remaining tokens, with [minExp]
    set to the reading of the clock plus the backoff of the floor, one hour
    and the retry count plus one, plus the jitter of the floor, whatever
    the expiration of the token and the [minExp] so far.  And whatever
    writes fail, every returned token of a known identity is written to its
    sink, in the order of the answer. *)
Theorem sink_failure_is_isolated
    (widMap : gmap string WorkloadIdentity) (retry : Z)
    (token : SignedWorkloadIdentity) (tokens : list SignedWorkloadIdentity)
    (minExp : Time) (st : St) (widspec : WorkloadIdentity) (err : error) :
  widMap !! swi_IdentityName token = Some widspec ->
  setAlt_at env (n_setAlt st) widspec (swi_JWT token) = Some err ->
  let forced :=
    time_Add (now_at env (n_now st))
      (dur_add (Backoff (minWait h) Hour (u64_succ retry))
               (RandomStagger (minWait h) (rand_at env (n_rand st)))) in
  (exists st1,
     applyTokens env h widMap retry (token :: tokens) minExp st
     = applyTokens env h widMap retry tokens forced st1
     /\ trace st1 = trace st ++ [EvSetAltToken widspec (swi_JWT token);
                                 EvLog LError "error setting new workload identity"])
  /\ (applyTokens env h widMap retry [token] minExp st).1 = forced
  /\ (forall tokens0 minExp0 st0,
        exists new,
          trace (applyTokens env h widMap retry tokens0 minExp0 st0).2
          = trace st0 ++ new
          /\ setAlt_calls new
             = omap (fun token0 =>
                       (fun widspec0 => (widspec0, swi_JWT token0))
                         <$> widMap !! swi_IdentityName token0) tokens0).
Proof.
  intros Hspec Hfail forced. split; [|split].
  - cbn [applyTokens]. rewrite Hspec, run_bind. cbn [setAltToken fst snd].
    rewrite Hfail. unfold randomStagger. run. eexists. split; [reflexivity|].
    cbn. by rewrite <- !app_assoc.
  - cbn [applyTokens]. rewrite Hspec, run_bind. cbn [setAltToken fst snd].
    rewrite Hfail. unfold randomStagger. run. reflexivity.
  - intros. apply applyTokens_setAlt_calls.
Qed.

End Failures.

(** ** Cycles that renew *)

Section Success.

Variable env : Env.
Context {helper : Helper}.
Variable h : identityHook.

(** When the tokens are those of known identities and no write fails, the
    loop over the tokens keeps the earliest expiration. *)
Lemma applyTokens_earliest widMap retry tokens minExp st :
  Forall (fun token => is_Some (widMap !! swi_IdentityName token)) tokens ->
  (forall k widspec jwt, setAlt_at env k widspec jwt = None) ->
  Forall (fun token => swi_Expiration token <> 0) tokens ->
  minExp <> 0 ->
  let m := (applyTokens env h widMap retry tokens minExp st).1 in
  m <> 0 /\ m <= minExp
  /\ (forall token, In token tokens -> m <= swi_Expiration token)
  /\ (m = minExp \/ exists token, In token tokens /\ m = swi_Expiration token).
Proof.
  intros Hknown Hsink Hexp. revert minExp st.
  induction tokens as [|token tokens IH]; intros minExp st Hne; cbn zeta.
  - cbn. repeat split; [done|lia|done|by left].
  - inversion Hknown as [|? ? [widspec Hw] Hknown']; subst.
    inversion Hexp as [|? ? He Hexp']; subst.
    cbn [applyTokens]. rewrite Hw, run_bind. cbn [setAltToken fst snd].
    rewrite Hsink. unfold time_IsZero, time_Before.
    destruct (Z.eqb_spec minExp 0) as [|_]; [done|].
    match goal with |- context [applyTokens env h widMap retry tokens ?m' ?s] =>
      destruct (IH Hknown' Hexp' m' s) as (Hm0 & Hle & Hall & Hatt);
      [by destruct (Z.ltb_spec (swi_Expiration token) minExp)|];
      set (m := (applyTokens env h widMap retry tokens m' s).1) in * end.
    destruct (Z.ltb_spec (swi_Expiration token) minExp) as [Hlt|Hge].
    + repeat split; [done|lia| |].
      * intros t [<-|Hin]; [done|by apply Hall].
      * right. destruct Hatt as [->|(t & Hin & ->)].
        -- exists token. split; [by left|done].
        -- exists t. split; [by right|done].
    + repeat split; [done|done| |].
      * intros t [<-|Hin]; [lia|by apply Hall].
      * destruct Hatt as [->|(t & Hin & ->)]; [by left|].
        right. exists t. split; [by right|done].
Qed.

Lemma applyTokens_earliest_from_zero widMap retry tokens st :
  Forall (fun token => is_Some (widMap !! swi_IdentityName token)) tokens ->
  (forall k widspec jwt, setAlt_at env k widspec jwt = None) ->
  Forall (fun token => swi_Expiration token <> 0) tokens ->
  tokens <> [] ->
  let m := (applyTokens env h widMap retry tokens zeroTime st).1 in
  (forall token, In token tokens -> m <= swi_Expiration token)
  /\ exists token, In token tokens /\ m = swi_Expiration token.
Proof.
  intros Hknown Hsink Hexp Hne. destruct tokens as [|token tokens]; [done|].
  inversion Hknown as [|? ? [widspec Hw] Hknown']; subst.
  inversion Hexp as [|? ? He Hexp']; subst.
  cbn [applyTokens]. rewrite Hw, run_bind. cbn [setAltToken fst snd].
  rewrite Hsink. cbn [time_IsZero zeroTime Z.eqb].
  match goal with |- context [applyTokens env h widMap retry tokens ?m' ?s] =>
    destruct (applyTokens_earliest widMap retry tokens m' s Hknown' Hsink Hexp' He)
      as (Hm0 & Hle & Hall & Hatt) end.
  cbv zeta. split.
  - intros t [<-|Hin]; [done|by apply Hall].
  - destruct Hatt as [->|(t & Hin & ->)].
    + exists token. split; [by left|done].
    + exists t. split; [by right|done].
Qed.

(** A cycle whose signing call returns signed identities. *)
Lemma cycle_answered createIndex reqs widMap wait retry minExp st tokens :
  (select_timer_or_done env (asleep st wait)).1 = true ->
  sign_at env (n_sign st) createIndex reqs = inl tokens ->
  tokens <> [] ->
  let signed :=
    (SignIdentities env createIndex reqs
       (add_events (select_timer_or_done env (asleep st wait)).2
          [EvLog LTrace "getting new signed identities"])).2 in
  let a := applyTokens env h widMap retry tokens zeroTime signed in
  (cycle env h createIndex reqs widMap wait retry minExp st).1
  = Continue (ExpiryToRenewTime a.1 (now_at env (n_now a.2))
                (rand_at env (n_rand a.2)) (minWait h))
             0 a.1.
Proof.
  intros Hsel Hans Hne signed a. rewrite cycle_unfold. cbv zeta. rewrite Hsel.
  destruct (select_state env (asleep st wait)) as (_ & Hsign & _).
  cbn [SignIdentities fst add_events n_sign]. rewrite Hsign.
  change (n_sign (asleep st wait)) with (n_sign st). rewrite Hans.
  destruct tokens as [|t ts]; [done|]. cbn [length Nat.eqb]. reflexivity.
Qed.

(** C6, as the code has it: the retry counter is reset to zero at the end
    of every cycle whose signing call returned at least one signed identity
    and no error, whether or not every requested identity is among them and
    whether or not a write to a sink failed; the next wait is then the
    renewal time of the [minExp] that the loop over the tokens computed, not
    a backoff.  When all the tokens are those of known identities, none
    expires at the zero time and no write fails, that [minExp] is the
    earliest of their expirations.  At the end of a cycle whose signing call
    failed the counter is incremented and the wait is a backoff. *)
Theorem retry_is_reset_after_an_answer
    (createIndex : Z) (reqs : list WorkloadIdentityRequest)
    (widMap : gmap string WorkloadIdentity) (wait : Duration) (retry : Z)
    (minExp : Time) (st : St) :
  (select_timer_or_done env (asleep st wait)).1 = true ->
  let c := cycle env h createIndex reqs widMap wait retry minExp st in
  let signed :=
    (SignIdentities env createIndex reqs
       (add_events (select_timer_or_done env (asleep st wait)).2
          [EvLog LTrace "getting new signed identities"])).2 in
  match sign_at env (n_sign st) createIndex reqs with
  | inl (token :: tokens') =>
      let tokens := token :: tokens' in
      let a := applyTokens env h widMap retry tokens zeroTime signed in
      c.1 = Continue (ExpiryToRenewTime a.1 (now_at env (n_now a.2))
                        (rand_at env (n_rand a.2)) (minWait h))
                     0 a.1
      /\ (Forall (fun token => is_Some (widMap !! swi_IdentityName token)) tokens ->
          (forall k widspec jwt, setAlt_at env k widspec jwt = None) ->
          Forall (fun token => swi_Expiration token <> 0) tokens ->
          (forall token, In token tokens -> a.1 <= swi_Expiration token)
          /\ exists token, In token tokens /\ a.1 = swi_Expiration token)
  | _ =>
      c.1 = Continue (dur_add (Backoff (minWait h) Hour (u64_succ retry))
                        (RandomStagger (minWait h) (rand_at env (n_rand st))))
                     (u64_succ retry) minExp
  end.
Proof.
  intros Hsel c signed.
  destruct (sign_at env (n_sign st) createIndex reqs) as [[|token tokens']|err] eqn:Hans.
  - apply cycle_failed; [done|by rewrite Hans].
  - cbv zeta. split.
    + by apply cycle_answered.
    + intros Hknown Hsink Hexp. by apply applyTokens_earliest_from_zero.
  - apply cycle_failed; [done|by rewrite Hans].
Qed.

End Success.

(** ** Consecutive failures *)

Section Backoff.

Variable env : Env.
Context {helper : Helper}.
Variable h : identityHook.

Lemma iter_u64_succ n retry :
  0 <= retry -> retry + Z.of_nat n < 2 ^ 64 ->
  Nat.iter n u64_succ retry = retry + Z.of_nat n.
Proof.
  induction n as [|n IH]; intros H0 Hn; [cbn; lia|].
  rewrite Nat.iter_succ, IH by lia. rewrite u64_succ_small; lia.
Qed.

(** [n] failed cycles in a row: the timer is reset to the wait that the
    loop started with and then to the waits of the failures, and the loop
    stands before its next cycle with the wait of the last failure. *)
Lemma cycles_failures n createIndex reqs widMap wait retry minExp st :
  (forall k, timer_wins_at env k = true) ->
  (forall k, (n_sign st <= k < n_sign st + n)%nat ->
             failed (sign_at env k createIndex reqs)) ->
  exists new wait',
    (cycles env h n createIndex reqs widMap wait retry minExp st).1
    = Running wait' (Nat.iter n u64_succ retry) minExp
    /\ trace (cycles env h n createIndex reqs widMap wait retry minExp st).2
       = trace st ++ new
    /\ timer_resets new ++ [wait']
       = wait :: failure_waits env h retry (n_rand st) n
    /\ setAlt_calls new = [].
Proof.
  intros Htimer. revert wait retry st.
  induction n as [|n IH]; intros wait retry st Hfail.
  - exists [], wait. cbn. by rewrite app_nil_r.
  - cbn [cycles]. rewrite run_bind.
    assert (Hsel : (select_timer_or_done env (asleep st wait)).1 = true).
    { apply (select_state env (asleep st wait)), Htimer. }
    destruct (cycle_failed env h createIndex reqs widMap wait retry minExp st Hsel)
      as (Hc & Htr & Hsign & Hrand & _); [apply Hfail; lia|].
    rewrite Hc.
    match goal with |- context [cycles env h n _ _ _ ?w ?r _ ?s] =>
      destruct (IH w r s) as (new & wait' & Hres & Htr' & Hresets & Halt) end.
    { intros k Hk. apply Hfail. rewrite Hsign in Hk. lia. }
    eexists (_ ++ new), wait'. rewrite Hres, Htr', Htr, <- app_assoc.
    split; [by rewrite Nat.iter_succ_r|]. split; [done|].
    cbn [app timer_resets setAlt_calls failure_waits].
    split; [|done]. rewrite Hresets. by rewrite Hrand.
Qed.

Lemma failure_waits_length retry r n :
  length (failure_waits env h retry r n) = n.
Proof. revert retry r. induction n as [|n IH]; intros; cbn; by rewrite ?IH. Qed.

Lemma failure_waits_nth n retry r i :
  (i < n)%nat ->
  nth i (failure_waits env h retry r n) 0
  = failure_wait h (Nat.iter i u64_succ retry) (rand_at env (r + i)).
Proof.
  revert retry r i. induction n as [|n IH]; intros retry r i Hi; [lia|].
  destruct i as [|i]; cbn [failure_waits nth].
  - by rewrite Nat.add_0_r.
  - rewrite IH by lia. rewrite <- Nat.iter_succ_r.
    by rewrite Nat.add_succ_r.
Qed.

Context {contract : HelperContract helper}.
Hypothesis floor_range : 0 < minWait h <= Hour.

(** The wait of a failure is the backoff plus the jitter, without
    overflow, and lies between the floor and the ceiling plus the floor. *)
Lemma failure_wait_bounds retry r :
  0 <= retry < 2 ^ 64 - 1 ->
  let jitter := RandomStagger (minWait h) r in
  failure_wait h retry r = Backoff (minWait h) Hour (retry + 1) + jitter
  /\ 0 <= jitter < minWait h
  /\ minWait h <= failure_wait h retry r < Hour + minWait h.
Proof.
  intros Hretry jitter. unfold failure_wait. rewrite u64_succ_small by done.
  pose proof (stagger_range (minWait h) r ltac:(lia)) as Hj. fold jitter in Hj |- *.
  pose proof (backoff_floor (minWait h) Hour (retry + 1) floor_range ltac:(lia)).
  pose proof (backoff_limit (minWait h) Hour (retry + 1) floor_range).
  assert (Hour < 2 ^ 62) by (by vm_compute).
  rewrite dur_add_small by lia. lia.
Qed.

(** Below the ceiling the waits of consecutive failures increase. *)
Lemma failure_wait_increases retry r r' :
  0 <= retry < 2 ^ 64 - 2 ->
  Backoff (minWait h) Hour (retry + 2) < Hour ->
  failure_wait h retry r < failure_wait h (retry + 1) r'.
Proof.
  intros Hretry Hbelow.
  destruct (failure_wait_bounds retry r ltac:(lia)) as (-> & Hj & _).
  destruct (failure_wait_bounds (retry + 1) r' ltac:(lia)) as (-> & Hj' & _).
  pose proof (backoff_grows (minWait h) Hour (retry + 1) floor_range ltac:(lia)) as Hg.
  replace (retry + 1 + 1) with (retry + 2) in * by lia.
  specialize (Hg Hbelow). lia.
Qed.

(** At the ceiling the waits of consecutive failures only differ by their
    jitter. *)
Lemma failure_wait_at_ceiling retry r r' :
  0 <= retry < 2 ^ 64 - 2 ->
  Backoff (minWait h) Hour (retry + 1) = Hour ->
  failure_wait h retry r = failure_wait h (retry + 1) r'
  <-> RandomStagger (minWait h) r = RandomStagger (minWait h) r'.
Proof.
  intros Hretry Hat.
  destruct (failure_wait_bounds retry r ltac:(lia)) as (-> & Hj & _).
  destruct (failure_wait_bounds (retry + 1) r' ltac:(lia)) as (-> & Hj' & _).
  pose proof (backoff_mono (minWait h) Hour (retry + 1) (retry + 1 + 1)
                floor_range ltac:(lia)).
  pose proof (backoff_limit (minWait h) Hour (retry + 1 + 1) floor_range).
  lia.
Qed.

End Backoff.

(** C7, as the code has it: [n] signing calls fail in a row, from a retry
    counter of zero.  The waits that the loop computes are each the backoff
    of the floor, one hour and the retry count, plus a jitter that is at
    least zero and less than the floor; each is at least the floor and less
    than one hour plus the floor; a wait is less than the next one as long
    as the backoff of the next one is below one hour.  Once the backoff is
    one hour, two consecutive waits are equal exactly when their two jitters
    are. *)
Theorem failure_waits_grow_to_the_ceiling
    (env : Env) (helper : Helper) (h : identityHook) (n : nat)
    (createIndex : Z) (reqs : list WorkloadIdentityRequest)
    (widMap : gmap string WorkloadIdentity) (wait : Duration) (minExp : Time)
    (st : St) :
  HelperContract helper ->
  0 < minWait h <= Hour ->
  (forall k, timer_wins_at env k = true) ->
  (forall k, (n_sign st <= k < n_sign st + n)%nat ->
             failed (sign_at env k createIndex reqs)) ->
  Z.of_nat n < 2 ^ 64 - 2 ->
  let waits := failure_waits env h 0 (n_rand st) n in
  let jitter := fun i : nat =>
    RandomStagger (minWait h) (rand_at env (n_rand st + i)) in
  (exists new wait',
     (cycles env h n createIndex reqs widMap wait 0 minExp st).1
     = Running wait' (Z.of_nat n) minExp
     /\ trace (cycles env h n createIndex reqs widMap wait 0 minExp st).2
        = trace st ++ new
     /\ timer_resets new ++ [wait'] = wait :: waits)
  /\ length waits = n
  /\ forall i, (i < n)%nat ->
       nth i waits 0 = Backoff (minWait h) Hour (Z.of_nat i + 1) + jitter i
       /\ 0 <= jitter i < minWait h
       /\ minWait h <= nth i waits 0 < Hour + minWait h
       /\ ((S i < n)%nat ->
           Backoff (minWait h) Hour (Z.of_nat i + 2) < Hour ->
           nth i waits 0 < nth (S i) waits 0)
       /\ ((S i < n)%nat ->
           Backoff (minWait h) Hour (Z.of_nat i + 1) = Hour ->
           (nth i waits 0 = nth (S i) waits 0 <-> jitter i = jitter (S i))).
Proof.
  intros Hcontract Hfloor Htimer Hfail Hn waits jitter. split; [|split].
  - destruct (cycles_failures env h n createIndex reqs widMap wait 0 minExp st
                Htimer Hfail) as (new & wait' & Hres & Htr & Hresets & _).
    exists new, wait'. rewrite Hres, iter_u64_succ by lia. done.
  - apply failure_waits_length.
  - intros i Hi. subst waits.
    rewrite failure_waits_nth by done. rewrite iter_u64_succ by lia.
    rewrite Z.add_0_l.
    destruct (failure_wait_bounds h Hfloor (Z.of_nat i)
                (rand_at env (n_rand st + i)) ltac:(lia)) as (Heq & Hj & Hb).
    split; [exact Heq|]. split; [exact Hj|]. split; [exact Hb|]. split.
    + intros Hi' Hbelow. rewrite failure_waits_nth by done.
      rewrite iter_u64_succ by lia. rewrite Z.add_0_l.
      replace (Z.of_nat (S i)) with (Z.of_nat i + 1) by lia.
      apply (failure_wait_increases h Hfloor); [lia|done].
    + intros Hi' Hat. rewrite failure_waits_nth by done.
      rewrite iter_u64_succ by lia. rewrite Z.add_0_l.
      replace (Z.of_nat (S i)) with (Z.of_nat i + 1) by lia.
      subst jitter. cbv beta.
      apply (failure_wait_at_ceiling h Hfloor); [lia|done].
Qed.

(** ** The claims on the example allocation *)

(** [Prerun] on the example allocation: one signing call for each task, for
    all its identities, each followed by the publication of the tokens, and
    then the renewal loop. *)
Example Prerun_example :
  Prerun ex_env ex_hook initSt
  = (None,
     mkSt false 0 0 2 0 0
       [EvSignIdentities 42
          [mkReq "8ba85cef" "web" "static"; mkReq "8ba85cef" "web" "vault"];
        EvSetSignedTaskIdentities
          (Some {["static" := "jwt-static"; "vault" := "jwt-vault"]});
        EvSignIdentities 42 [mkReq "8ba85cef" "db" "consul"];
        EvSetSignedTaskIdentities (Some {["consul" := "jwt-consul"]});
        EvGoRenew 42 ∅]).
Proof. by vm_compute. Qed.

(** [Prerun] with the signer down: the error of the first call, wrapped. *)
Example Prerun_example_down :
  Prerun ex_env_down ex_hook initSt
  = (Some (wrapError "error fetching alternate identities: "
             (errorString "rpc error: no leader")),
     mkSt false 0 0 1 0 0
       [EvSignIdentities 42
          [mkReq "8ba85cef" "web" "static"; mkReq "8ba85cef" "web" "vault"]]).
Proof. by vm_compute. Qed.

(** [renew] as [Prerun] starts it, for one cycle: the token of [vault] is
    renewed at once, and the next wait is five minutes and the jitter. *)
Example renew_example :
  renew ex_env (helper := spec_helper) ex_hook 1 42 ∅ initSt
  = (Running 300000000007 0 (ex_now + 600 * Second),
     mkSt false 2 1 1 1 2
       [EvLog LTrace "missing token for identity";
        EvLog LDebug "waiting to renew identities";
        EvTimerReset 0;
        EvLog LTrace "getting new signed identities";
        EvSignIdentities 42 [mkReq "8ba85cef" "web" "vault"];
        EvSetAltToken ex_vault "jwt-vault"]).
Proof. by vm_compute. Qed.

(** [renew] when [Stop] lands during the first sleep: it returns from the
    sleep. *)
Example renew_example_stopped :
  renew (with_calls ex_env_stopped
           (fun k => if (k =? 1)%nat then [CallStop] else []))
        (helper := spec_helper) ex_hook 5 42 (ex_signed ex_web) initSt
  = (Returned,
     mkSt true 2 1 0 0 2
       [EvLog LDebug "waiting to renew identities";
        EvTimerReset 300000000007]).
Proof. by vm_compute. Qed.

(** The hook of the example allocation, started with the signed identities
    of its first task: the first wait is five minutes and the jitter, which
    is more than the floor and less than the ten minutes that the token of
    [vault] lives. *)
Lemma first_wait_is_renewal_time_witness :
  let wait := first_wait ex_env (helper := spec_helper) ex_hook ex_web
                (ex_signed ex_web) initSt in
  wait = 300000000007
  /\ minWait ex_hook <= wait
  /\ wait < swi_Expiration (ex_sign (requestFor ex_alloc ex_web ex_vault)) - ex_now.
Proof.
  destruct (first_wait_is_renewal_time ex_env spec_helper ex_hook 2 42
              (ex_signed ex_web) ex_web [Some ex_db] initSt eq_refl)
    as (Hmin & Hfw & Htr & Hfloor & Hslack).
  - vm_compute. discriminate.
  - intros wid [<-|[]]. vm_compute. eauto.
  - cbv zeta. rewrite Hfw. split; [by vm_compute|]. split.
    + apply Hfloor, spec_helper_contract.
    + apply (Hslack spec_helper_contract ltac:(by vm_compute) ltac:(by vm_compute)
               ex_vault); [by left|by vm_compute].
Defined.

(** C1 fails as it is stated.  With the floor of ten seconds and a token
    that expires five seconds from now, the first wait is not both at least
    the floor and less than what is left to the expiration.  And with a
    token that expires in forty-eight hours, the first wait is not the
    renewal time of that expiration but the one of the default, thirty
    hours from now. *)
Lemma first_wait_counterexample :
  (exists w,
     head (timer_resets (trace (renew ex_env (helper := spec_helper)
             (ex_hook_of ex_short) 1 42 (ex_signed (ex_task_of ex_short))
             initSt).2)) = Some w
     /\ ~ (minWait (ex_hook_of ex_short) <= w
           /\ w < swi_Expiration
                    (ex_sign (requestFor ex_alloc (ex_task_of ex_short) ex_short))
                  - ex_now))
  /\ (exists w,
        head (timer_resets (trace (renew ex_env (helper := spec_helper)
                (ex_hook_of ex_long) 1 42 (ex_signed (ex_task_of ex_long))
                initSt).2)) = Some w
        /\ w <> spec_ExpiryToRenewTime
                  (swi_Expiration
                     (ex_sign (requestFor ex_alloc (ex_task_of ex_long) ex_long)))
                  ex_now 7 (minWait (ex_hook_of ex_long))
        /\ w = spec_ExpiryToRenewTime (ex_now + 30 * Hour) ex_now 7
                 (minWait (ex_hook_of ex_long))).
Proof.
  split.
  - exists 10000000007. split; [by vm_compute|].
    intros [_ H]. vm_compute in H. discriminate.
  - exists 54000000000007. split; [by vm_compute|]. split; [|by vm_compute].
    vm_compute. discriminate.
Qed.

(** On the example allocation: [static] is in the request of [Prerun] for
    [web] and in no request of [renew], and the hook of an allocation that
    only has [static] returns from [renew] at once. *)
Lemma zero_ttl_fetched_once_never_renewed_witness :
  (renew ex_env (helper := spec_helper) (ex_hook_of ex_static) 2 42 ∅ initSt).1
  = Returned
  /\ exists new,
       trace (renew ex_env (helper := spec_helper) ex_hook 2 42 ∅ initSt).2
       = trace initSt ++ new
       /\ forall minIndex req, In (minIndex, req) (sign_calls new) ->
            ~ In (requestFor ex_alloc ex_web ex_static) req.
Proof.
  destruct (zero_ttl_fetched_once_never_renewed ex_env spec_helper ex_hook
              (ex_hook_of ex_static) 2 42 ∅ initSt initSt ex_web
              (ex_task_of ex_static) [] ex_static)
    as (Hfetch & (new & Htr & Hreq) & Hret & _).
  - by left.
  - by left.
  - reflexivity.
  - intros task' wid' [Heq|[Heq|[]]]; injection Heq as <-.
    + intros [<-|[<-|[]]]; [done|]. intros _ Hname. discriminate Hname.
    + intros _ Hname. discriminate Hname.
  - reflexivity.
  - by repeat constructor.
  - split; [exact Hret|]. exists new. split; [exact Htr|].
    intros minIndex req Hin. by destruct (Hreq minIndex req Hin).
Defined.

(** On the example allocation, in a run in which the [select] takes the
    timer also on a cancelled context: [Stop] lands during the first sleep
    and [Shutdown] during the second one, and the loop looks at [stopCtx]
    after both; the run is the one in which only [Shutdown] lands, during
    the first sleep.  And in a run in which the [select] takes the [Done]
    case, the loop returns from the sleep in which it sees the
    cancellation. *)
Lemma cancelling_twice_is_cancelling_once_witness :
  let twice := fun k : nat => (if (k =? 1)%nat then [CallStop] else [])
                              ++ (if (k =? 2)%nat then [CallShutdown] else []) in
  let once := fun k : nat => if (k =? 1)%nat then [CallShutdown] else [] in
  let run2 := renew (with_calls ex_env twice) (helper := spec_helper) ex_hook 3 42
                (ex_signed ex_web) initSt in
  let run1 := renew (with_calls ex_env once) (helper := spec_helper) ex_hook 3 42
                (ex_signed ex_web) initSt in
  run2 = run1
  /\ twice 1%nat = [CallStop] /\ twice 2%nat = [CallShutdown]
  /\ (2 < n_ctx run2.2)%nat /\ stopped run2.2 = true
  /\ length (sign_calls (trace run2.2)) = 3%nat
  /\ (cycles ex_env_stopped (helper := spec_helper) ex_hook 3 42
        (renewal_requests ex_alloc ex_web) ∅ (300 * Second) 0 0 initSt).1
     = Returned.
Proof.
  cbv zeta.
  destruct (cancelling_twice_is_cancelling_once ex_env spec_helper
              ex_hook 3 42 (ex_signed ex_web) (renewal_requests ex_alloc ex_web)
              ∅ (300 * Second) 0 0 initSt 1 2 CallShutdown CallStop CallShutdown)
    as (_ & Hsame & _); [cbn; lia|lia|].
  destruct (cancelling_twice_is_cancelling_once ex_env_stopped spec_helper
              ex_hook 2 42 (ex_signed ex_web) (renewal_requests ex_alloc ex_web)
              ∅ (300 * Second) 0 0 initSt 1 2 CallStop CallStop CallShutdown)
    as (_ & _ & Hdone); [cbn; lia|lia|].
  split; [exact Hsame|]. split; [reflexivity|]. split; [reflexivity|].
  split; [vm_compute; lia|]. split; [by vm_compute|]. split; [by vm_compute|].
  destruct Hdone as (_ & Hcs & _); [by vm_compute|]. by rewrite Hcs.
Defined.

(** On the example allocation, with a signer that answers with no signed
    identity: the first cycle counts as failed, nothing is written to a
    sink, and the loop goes on with a wait of twenty seconds and the
    jitter, as it does with the signer down. *)
Lemma empty_answer_is_handled_as_error_witness :
  let c := cycle ex_env_empty (helper := spec_helper) ex_hook 42
             (renewal_requests ex_alloc ex_web) {["vault" := ex_vault]} 0 0 0
             initSt in
  sign_at ex_env_empty 0 42 (renewal_requests ex_alloc ex_web) = inl []
  /\ renewal_requests ex_alloc ex_web <> []
  /\ c.1 = Continue 20000000007 1 0
  /\ n_setAlt c.2 = 0%nat
  /\ c.1 = (cycle ex_env_down (helper := spec_helper) ex_hook 42
              (renewal_requests ex_alloc ex_web) {["vault" := ex_vault]} 0 0 0
              initSt).1.
Proof.
  cbv zeta.
  destruct (empty_answer_is_handled_as_error ex_env_empty
              (helper := spec_helper) ex_hook 42
              (renewal_requests ex_alloc ex_web) {["vault" := ex_vault]}
              0 0 0 initSt 0 (errorString "rpc error: no leader"))
    as (Hc & _ & _ & Halt & _).
  - by vm_compute.
  - by left.
  - destruct (empty_answer_is_handled_as_error ex_env_down
                (helper := spec_helper) ex_hook 42
                (renewal_requests ex_alloc ex_web) {["vault" := ex_vault]}
                0 0 0 initSt 0 (errorString "rpc error: no leader"))
      as (Hd & _).
    + by vm_compute.
    + by right.
    + split; [reflexivity|]. split; [by vm_compute|].
      split; [rewrite Hc; by vm_compute|]. split; [exact Halt|].
      rewrite Hc, Hd. reflexivity.
Defined.

(** On the example allocation: a cycle that starts with a retry counter of
    three and renews the token of [vault] ends with a counter of zero and a
    wait of five minutes and the jitter. *)
Lemma retry_is_reset_after_an_answer_witness :
  (cycle ex_env (helper := spec_helper) ex_hook 42
     (renewal_requests ex_alloc ex_web) {["vault" := ex_vault]} 0 3 0 initSt).1
  = Continue 300000000007 0 (ex_now + 600 * Second).
Proof.
  destruct (retry_is_reset_after_an_answer ex_env (helper := spec_helper)
              ex_hook 42
              (renewal_requests ex_alloc ex_web) {["vault" := ex_vault]}
              0 3 0 initSt) as (Hc & _).
  - by vm_compute.
  - rewrite Hc. by vm_compute.
Defined.

(** C6 fails as it is stated.  On the example allocation the signer fails
    the first call, so the second cycle starts with a retry counter of one;
    its write to the sink of [vault] fails, and yet it ends with a retry
    counter of zero. *)
Lemma retry_reset_counterexample :
  let run1 := renew ex_env_sink_down (helper := spec_helper) ex_hook 1 42 ∅ initSt in
  let run2 := renew ex_env_sink_down (helper := spec_helper) ex_hook 2 42 ∅ initSt in
  (exists wait minExp, run1.1 = Running wait 1 minExp)
  /\ (exists wait minExp, run2.1 = Running wait 0 minExp)
  /\ setAlt_calls (trace run2.2) = [(ex_vault, "jwt-vault")]
  /\ setAlt_at ex_env_sink_down 0 ex_vault "jwt-vault"
     = Some (errorString "write nomad_token: no space left").
Proof.
  cbv zeta. split; [|split; [|split]].
  - eexists _, _. by vm_compute.
  - eexists _, _. by vm_compute.
  - by vm_compute.
  - reflexivity.
Qed.

(** Why the returned tokens must not expire at the zero time: the loop over
    the tokens takes a [minExp] at the zero time for no [minExp] yet.  A
    token that expires at the zero time is forgotten when another one
    follows it, and is kept when it comes last. *)
Example zero_expiration_example :
  let vault := mkSigned "vault" "jwt-vault" (ex_now + 600 * Second) in
  let short := mkSigned "short" "jwt-short" zeroTime in
  let widMap : gmap string WorkloadIdentity :=
    {["vault" := ex_vault; "short" := ex_short]} in
  (applyTokens ex_env (helper := spec_helper) ex_hook widMap 0 [short; vault]
     zeroTime initSt).1 = ex_now + 600 * Second
  /\ (applyTokens ex_env (helper := spec_helper) ex_hook widMap 0 [vault; short]
        zeroTime initSt).1 = zeroTime.
Proof. by vm_compute. Qed.

(** On the example allocation, with the signer down: the waits of the first
    failures increase, from the floor up. *)
Lemma failure_waits_grow_to_the_ceiling_witness :
  let waits := failure_waits ex_env_down (helper := spec_helper) ex_hook 0 0 11 in
  minWait ex_hook <= nth 0 waits 0 /\ nth 0 waits 0 < nth 1 waits 0.
Proof.
  destruct (failure_waits_grow_to_the_ceiling ex_env_down spec_helper ex_hook 11
              42 (renewal_requests ex_alloc ex_web) ∅ 0 0 initSt
              spec_helper_contract) as (_ & _ & Hwaits).
  - by vm_compute.
  - reflexivity.
  - intros k _. exact I.
  - by vm_compute.
  - destruct (Hwaits 0%nat ltac:(lia)) as (_ & _ & Hfloor & Hgrow & _).
    split; [apply Hfloor|]. apply Hgrow; [lia|by vm_compute].
Defined.

(** C7 fails as it is stated.  On the example allocation, with the signer
    down and a random source that draws the same number, the waits after
    the ninth and the tenth failure in a row are the same: one hour and the
    jitter. *)
Lemma failure_waits_counterexample :
  let resets := timer_resets (trace (renew ex_env_down (helper := spec_helper)
                                       ex_hook 12 42 ∅ initSt).2) in
  nth 9 resets 0 = 3600000000007 /\ nth 10 resets 0 = 3600000000007
  /\ length (sign_calls (trace (renew ex_env_down (helper := spec_helper)
                                  ex_hook 12 42 ∅ initSt).2)) = 12%nat.
Proof. by vm_compute. Qed.

(** On the example allocation, with a full disk: the write of the token of
    [vault] fails, and [minExp] becomes forty seconds and the jitter from
    now. *)
Lemma sink_failure_is_isolated_witness :
  (applyTokens ex_env_sink_down (helper := spec_helper) ex_hook
     {["vault" := ex_vault]} 1
     [ex_sign (requestFor ex_alloc ex_web ex_vault)] 0 initSt).1
  = ex_now + 40000000007.
Proof.
  destruct (sink_failure_is_isolated ex_env_sink_down (helper := spec_helper)
              ex_hook
              {["vault" := ex_vault]} 1
              (ex_sign (requestFor ex_alloc ex_web ex_vault)) [] 0 initSt
              ex_vault (errorString "write nomad_token: no space left"))
    as (_ & Hforced & _).
  - by vm_compute.
  - reflexivity.
  - rewrite Hforced. by vm_compute.
Defined.

(** On the example allocation, which has two tasks with identities: every
    signing call of [renew] asks for [vault], the identity of [web]. *)
Lemma only_first_task_is_renewed_witness :
  (exists wait retry minExp,
     (renew ex_env (helper := spec_helper) ex_hook 3 42 ∅ initSt).1
     = Running wait retry minExp)
  /\ exists new,
       trace (renew ex_env (helper := spec_helper) ex_hook 3 42 ∅ initSt).2
       = trace initSt ++ new
       /\ forall c, In c (sign_calls new) ->
            c = (42, [requestFor ex_alloc ex_web ex_vault]).
Proof.
  destruct (only_first_task_is_renewed ex_env spec_helper ex_hook 3 42 ∅
              ex_web [Some ex_db] initSt eq_refl)
    as (_ & _ & Hrun & _ & Hcalls).
  split; [|exact Hcalls].
  apply Hrun; [reflexivity|reflexivity|]. vm_compute. discriminate.
Defined.

(** C9 fails as it is stated.  On the example allocation, when [Stop] lands
    before the renewal loop is reached, the first turn of the loop over the
    task runners neither returns nor stays in its renewal loop: the loop
    goes on to the second task, looks for the token of its identity, and
    [renew] returns at the end of the task runners. *)
Lemma first_turn_counterexample :
  (renew_task ex_env_stopped (helper := spec_helper) ex_hook 3 42 ∅
     (Some ex_web) initSt).1 = Next
  /\ renew ex_env_stopped (helper := spec_helper) ex_hook 3 42 ∅ initSt
     = (Returned,
        mkSt true 2 0 0 0 2
          [EvLog LTrace "missing token for identity";
           EvLog LTrace "missing token for identity"]).
Proof. by vm_compute. Qed.

(** On the example allocation: [Prerun] fetched the token of [vault], but
    [renew] is started with the empty map and first waits for nothing. *)
Lemma renew_starts_with_empty_map_witness :
  go_calls (trace (Prerun ex_env ex_hook initSt).2) = [(42, ∅)]
  /\ first_wait ex_env (helper := spec_helper) ex_hook ex_web ∅ initSt = 0
  /\ exists new,
       trace (renew ex_env (helper := spec_helper) ex_hook 3 42 ∅ initSt).2
       = trace initSt ++ new
       /\ head (timer_resets new) = Some 0.
Proof.
  destruct (renew_starts_with_empty_map ex_env spec_helper ex_hook 3 initSt
              initSt) as ((newP & HtrP & _ & HgoP & _) & Hfirst & _).
  destruct (Hfirst ex_web [Some ex_db] ex_vault eq_refl)
    as (_ & Hfw & (new & Htr & _ & Hhead)).
  - right. by left.
  - by vm_compute.
  - split; [|split; [exact Hfw|]].
    + rewrite HtrP. cbn [trace initSt app]. apply HgoP. by vm_compute.
    + exists new. split; [exact Htr|]. apply Hhead; [reflexivity|reflexivity|lia].
Defined.

(** C10 fails as it is stated.  In the allocation of [ex_hook_later] an
    identity has a TTL, [consul] of the second task, and [Prerun] fetches
    its token and starts [renew] with the empty map; but the first task has
    none, so [renew] returns at once: no wait of zero, no reset of the
    timer, no signing call, and [renewNow] is not set by the loop over the
    identities of the first task. *)
Lemma later_task_counterexample :
  let p := Prerun ex_env ex_hook_later initSt in
  let r := renew ex_env (helper := spec_helper) ex_hook_later 3 42 ∅ p.2 in
  In ex_consul (task_Identities ex_db) /\ 0 < wid_TTL ex_consul
  /\ In (Some ex_db) (ar_tasks ex_hook_later)
  /\ p.1 = None
  /\ go_calls (trace p.2) = [(42, ∅)]
  /\ r.1 = Returned
  /\ trace r.2 = trace p.2 ++ [EvLog LTrace "no workload identities expire"]
  /\ sc_renewNow (scan_of ex_alloc (ex_task_of ex_static) ∅ ex_now) = false.
Proof.
  cbv zeta. split; [by left|]. split; [by vm_compute|]. split; [right; by left|].
  by vm_compute.
Qed.

(** * More about the hook *)

(** ** [getIdentities] *)

(** X1: In the map that [getIdentities] builds, a name is bound to the token
    of the last signed identity of that name in the answer of the signer,
    and a name that the signer did not answer is not bound. *)
Theorem indexByName_lookup (signedWIDs : list SignedWorkloadIdentity)
    (name : string) :
  indexByName signedWIDs !! name
  = swi_JWT <$> last (filter (fun wid => swi_IdentityName wid = name) signedWIDs).
Proof. apply indexByName_last. Qed.

Lemma getIdentities_run env alloc task st :
  getIdentities env alloc task st
  = match task_Identities task with
    | [] => (inl None, st)
    | _ :: _ =>
        let req := map (requestFor alloc task) (task_Identities task) in
        let st' := (SignIdentities env (alloc_CreateIndex alloc) req st).2 in
        match sign_at env (n_sign st) (alloc_CreateIndex alloc) req with
        | inl signedWIDs => (inl (Some (indexByName signedWIDs)), st')
        | inr err => (inr err, st')
        end
    end.
Proof.
  unfold getIdentities. destruct (task_Identities task) as [|wid wids] eqn:E;
    [done|].
  cbn [length Nat.eqb]. rewrite run_bind. cbn [SignIdentities fst snd].
  by destruct (sign_at env _ _ _).
Qed.

(** X2: When the signer answers every request with a signed identity of the
    requested name, the map that [getIdentities] returns binds the name of
    every identity of the task, to the token of the last identity of that
    name, and binds no other name. *)
Theorem getIdentities_binds_every_identity
    (env : Env) (alloc : Allocation) (task : Task) (st : St)
    (sign : WorkloadIdentityRequest -> SignedWorkloadIdentity) :
  task_Identities task <> [] ->
  (forall req, swi_IdentityName (sign req) = req_IdentityName req) ->
  sign_at env (n_sign st) (alloc_CreateIndex alloc)
          (map (requestFor alloc task) (task_Identities task))
  = inl (map sign (map (requestFor alloc task) (task_Identities task))) ->
  exists widMap,
    (getIdentities env alloc task st).1 = inl (Some widMap)
    /\ forall name,
         widMap !! name
         = (fun wid => swi_JWT (sign (requestFor alloc task wid)))
             <$> last (filter (fun wid => wid_Name wid = name)
                              (task_Identities task)).
Proof.
  intros Hne Hname Hans. rewrite getIdentities_run.
  destruct (task_Identities task) as [|wid0 wids0] eqn:E; [done|].
  cbv zeta. rewrite Hans. eexists. split; [reflexivity|].
  intros name. rewrite indexByName_last.
  generalize (wid0 :: wids0). intros wids.
  induction wids as [|wid wids IH]; [done|]. cbn [map].
  destruct (decide (wid_Name wid = name)) as [Heq|Hne'].
  - rewrite (filter_cons_True (fun w => wid_Name w = name)) by done.
    rewrite filter_cons_True by (by rewrite Hname).
    rewrite !last_cons.
    destruct (last (filter _ (map sign _))), (last (filter _ wids));
      cbn in IH |- *; congruence.
  - rewrite (filter_cons_False (fun w => wid_Name w = name)) by done.
    rewrite filter_cons_False by (by rewrite Hname). apply IH.
Qed.

(** ** [Prerun] *)

Section PrerunMore.

Variable env : Env.
Variable h : identityHook.

Lemma Prerun_tasks_hook ts ts' st :
  Prerun_tasks env (with_tasks h ts') ts st = Prerun_tasks env h ts st.
Proof.
  revert st. induction ts as [|[task|] ts IH]; intros st; cbn [Prerun_tasks];
    [done| |apply IH].
  rewrite !run_bind. cbn [ar_alloc with_tasks].
  destruct (getIdentities env (ar_alloc h) task st).1; [|done].
  rewrite !run_bind. apply IH.
Qed.

Lemma Prerun_tasks_skip ts st :
  Prerun_tasks env h (List.filter has_task ts) st = Prerun_tasks env h ts st.
Proof.
  revert st. induction ts as [|[task|] ts IH]; intros st;
    cbn [List.filter has_task Prerun_tasks]; [done| |apply IH].
  rewrite !run_bind.
  destruct (getIdentities env (ar_alloc h) task st).1; [|done].
  rewrite !run_bind. apply IH.
Qed.

(** X3: [Prerun] passes over the task runners without a task: the hook
    does, returns and leaves behind the same as the hook without them. *)
Theorem Prerun_skips_nil_tasks (st : St) :
  Prerun env (with_tasks h (List.filter has_task (ar_tasks h))) st
  = Prerun env h st.
Proof.
  unfold Prerun. rewrite !run_bind. cbn [ar_tasks ar_alloc with_tasks].
  by rewrite Prerun_tasks_hook, Prerun_tasks_skip.
Qed.

Lemma publications_app a b : publications (a ++ b) = publications a ++ publications b.
Proof.
  induction a as [|e a IH]; [done|]. destruct e; cbn; by rewrite ?IH.
Qed.

Lemma Prerun_tasks_publications ts st :
  exists new served rest,
    trace (Prerun_tasks env h ts st).2 = trace st ++ new
    /\ omap id ts = served ++ rest
    /\ Forall2 publication_of served (publications new)
    /\ match (Prerun_tasks env h ts st).1 with
       | None => rest = []
       | Some e =>
           exists task rest' pre err,
             rest = task :: rest'
             /\ task_Identities task <> []
             /\ new = pre ++ [EvSignIdentities (alloc_CreateIndex (ar_alloc h))
                                (map (requestFor (ar_alloc h) task)
                                     (task_Identities task))]
             /\ sign_at env (n_sign st + length (sign_calls pre))%nat
                   (alloc_CreateIndex (ar_alloc h))
                   (map (requestFor (ar_alloc h) task) (task_Identities task))
                = inr err
             /\ e = wrapError "error fetching alternate identities: " err
       end.
Proof.
  revert st. induction ts as [|[task|] ts IH]; intros st;
    cbn [Prerun_tasks omap list_omap id].
  - exists [], [], []. rewrite run_ret, app_nil_r.
    split; [done|]. split; [done|]. split; [constructor|done].
  - rewrite run_bind, getIdentities_run.
    destruct (task_Identities task) as [|wid wids] eqn:E.
    + cbn [fst snd]. rewrite run_bind.
      destruct (IH (emit (EvSetSignedTaskIdentities None) st).2)
        as (new & served & rest & Htr & Hts & Hpub & Hend).
      exists (EvSetSignedTaskIdentities None :: new), (task :: served), rest.
      split; [rewrite Htr; cbn; by rewrite <- app_assoc|].
      split; [by rewrite Hts|].
      split; [constructor; [|done]; unfold publication_of; by rewrite E|].
      destruct (Prerun_tasks env h ts _).1 as [e|]; [|exact Hend].
      destruct Hend as (failing & rest' & pre & err & -> & Hne & -> & Hans & ->).
      exists failing, rest', (EvSetSignedTaskIdentities None :: pre), err.
      done.
    + cbv zeta.
      destruct (sign_at env (n_sign st) _ _) as [signedWIDs|err] eqn:Hs;
        cbn [fst snd].
      * rewrite run_bind.
        match goal with |- context [Prerun_tasks env h ts ?s] =>
          destruct (IH s) as (new & served & rest & Htr & Hts & Hpub & Hend);
          destruct (Prerun_tasks env h ts s).1 as [e|] end.
        -- destruct Hend as (failing & rest' & pre & err & -> & Hne & -> & Hans & ->).
           eexists (_ :: EvSetSignedTaskIdentities (Some (indexByName signedWIDs))
                      :: pre ++ [_]), (task :: served), (failing :: rest').
           split; [rewrite Htr; cbn; rewrite <- !app_assoc; reflexivity|].
           split; [by rewrite Hts|].
           split; [constructor; [|done]; unfold publication_of; by rewrite E|].
           eexists failing, rest', (_ :: _ :: pre), err.
           split; [done|]. split; [done|]. split; [reflexivity|].
           split; [|done]. cbn [sign_calls length n_sign] in *.
           by rewrite Nat.add_succ_r.
        -- subst rest.
           eexists (_ :: EvSetSignedTaskIdentities (Some (indexByName signedWIDs))
                      :: new), (task :: served), [].
           split; [rewrite Htr; cbn; rewrite <- !app_assoc; reflexivity|].
           split; [by rewrite Hts|]. split; [|done].
           constructor; [|done]. unfold publication_of. by rewrite E.
      * rewrite run_ret. eexists [_], [], (task :: omap id ts).
        cbn [fst snd trace SignIdentities]. split; [reflexivity|].
        split; [done|]. split; [constructor|].
        exists task, (omap id ts), [], err. rewrite E.
        split; [done|]. split; [done|]. split; [done|]. split; [|done].
        cbn [sign_calls length]. rewrite Nat.add_0_r. exact Hs.
  - apply IH.
Qed.

(** X4: [Prerun] publishes once for each task runner with a task that it
    gets to, in order, also for a task without identities: [nil] for such a
    task, a map for a task with identities.  When it returns [nil] it got to
    all of them.  When it returns an error, the tasks it published for are
    those before the first task whose signing call failed: that task has
    identities, the call for it is the last thing [Prerun] did, so nothing
    was published for it or after it, and the error wraps the one that the
    signer answered. *)
Theorem Prerun_publishes_once_per_task (st : St) :
  exists new served rest,
    trace (Prerun env h st).2 = trace st ++ new
    /\ omap id (ar_tasks h) = served ++ rest
    /\ Forall2 publication_of served (publications new)
    /\ match (Prerun env h st).1 with
       | None => rest = []
       | Some e =>
           exists task rest' pre err,
             rest = task :: rest'
             /\ task_Identities task <> []
             /\ new = pre ++ [EvSignIdentities (alloc_CreateIndex (ar_alloc h))
                                (map (requestFor (ar_alloc h) task)
                                     (task_Identities task))]
             /\ sign_at env (n_sign st + length (sign_calls pre))%nat
                   (alloc_CreateIndex (ar_alloc h))
                   (map (requestFor (ar_alloc h) task) (task_Identities task))
                = inr err
             /\ e = wrapError "error fetching alternate identities: " err
       end.
Proof.
  unfold Prerun. rewrite run_bind.
  destruct (Prerun_tasks_publications (ar_tasks h) st)
    as (new & served & rest & Htr & Hts & Hpub & Hend).
  destruct (Prerun_tasks env h (ar_tasks h) st).1 as [e|] eqn:E.
  - exists new, served, rest. by rewrite run_ret.
  - exists (new ++ [EvGoRenew (alloc_CreateIndex (ar_alloc h)) ∅]), served, rest.
    rewrite run_bind, run_ret. cbn [fst snd emit trace].
    rewrite Htr, <- app_assoc, publications_app. cbn. rewrite app_nil_r.
    done.
Qed.

Lemma getIdentities_stop alloc task st :
  getIdentities env alloc task (stop st).2
  = ((getIdentities env alloc task st).1,
     (stop (getIdentities env alloc task st).2).2).
Proof.
  rewrite !getIdentities_run. destruct (task_Identities task); [done|].
  cbv zeta. cbn [stop snd n_sign]. by destruct (sign_at env _ _ _).
Qed.

Lemma Prerun_tasks_stop ts st :
  Prerun_tasks env h ts (stop st).2
  = ((Prerun_tasks env h ts st).1,
     (stop (Prerun_tasks env h ts st).2).2).
Proof.
  revert st. induction ts as [|[task|] ts IH]; intros st; cbn [Prerun_tasks];
    [done| |apply IH].
  rewrite !run_bind, getIdentities_stop. cbn [fst snd].
  destruct (getIdentities env (ar_alloc h) task st).1 as [m|err]; [|done].
  rewrite !run_bind.
  change (emit (EvSetSignedTaskIdentities m) (stop ?s).2).2
    with (stop (emit (EvSetSignedTaskIdentities m) s).2).2.
  apply IH.
Qed.

Lemma Prerun_tasks_frame ts st :
  let st' := (Prerun_tasks env h ts st).2 in
  stopped st' = stopped st /\ n_ctx st' = n_ctx st /\ n_now st' = n_now st
  /\ n_rand st' = n_rand st /\ n_setAlt st' = n_setAlt st.
Proof.
  revert st. induction ts as [|[task|] ts IH]; intros st; cbn [Prerun_tasks];
    [done| |apply IH].
  cbv zeta. rewrite run_bind, getIdentities_run.
  destruct (task_Identities task).
  - cbn [fst snd]. rewrite run_bind.
    match goal with |- context [Prerun_tasks env h ts ?s] =>
      pose proof (IH s) as H end.
    exact H.
  - cbv zeta. destruct (sign_at env _ _ _); cbn [fst snd]; [|done].
    rewrite run_bind.
    match goal with |- context [Prerun_tasks env h ts ?s] =>
      pose proof (IH s) as H end.
    exact H.
Qed.

(** X5: [Prerun] does not look at [stopCtx].  On a hook that was stopped
    before, it makes the same signing calls, publishes the same maps,
    returns the same and starts the renewal loop all the same.  It neither
    cancels the context, nor reads the clock or the random source, nor
    writes to a sink. *)
Theorem Prerun_ignores_cancellation (st : St) :
  Prerun env h (stop st).2
  = ((Prerun env h st).1, (stop (Prerun env h st).2).2)
  /\ stopped (Prerun env h st).2 = stopped st
  /\ n_ctx (Prerun env h st).2 = n_ctx st
  /\ n_now (Prerun env h st).2 = n_now st
  /\ n_rand (Prerun env h st).2 = n_rand st
  /\ n_setAlt (Prerun env h st).2 = n_setAlt st.
Proof.
  unfold Prerun. rewrite !run_bind, Prerun_tasks_stop. cbn [fst snd].
  pose proof (Prerun_tasks_frame (ar_tasks h) st) as Hf. cbv zeta in Hf.
  destruct (Prerun_tasks env h (ar_tasks h) st).1; [done|].
  rewrite !run_bind, !run_ret. done.
Qed.

End PrerunMore.

(** ** [renew]: how it gets to its renewal loop *)

Section RenewMore.

Variable env : Env.
Context {helper : Helper}.
Variable h : identityHook.

Lemma renew_tasks_stopped_outcome fuel createIndex signedWIDs ts st :
  stopped st = true ->
  let r := renew_tasks env h fuel createIndex signedWIDs ts st in
  (Forall (fun t => has_task t = true) ts -> r.1 = Returned)
  /\ (r.1 = Returned \/ r.1 = Panicked).
Proof.
  revert st. induction ts as [|t ts IH]; intros st Hst; cbn [renew_tasks].
  - split; [done|by left].
  - cbv zeta. rewrite run_bind. destruct t as [task|].
    + rewrite renew_task_unfold.
      destruct (length (task_Identities task) =? 0)%nat;
        [split; [done|by left]|].
      cbv zeta.
      destruct (length (renewal_requests (ar_alloc h) task) =? 0)%nat;
        [split; [done|by left]|].
      match goal with |- context [stopCtx_Err env ?s] => set (st3 := s) end.
      assert (H3 : stopped st3 = true).
      { subst st3. by destruct (negb _). }
      assert (H4 : stopped (stopCtx_Err env st3).2 = true)
        by (by rewrite <- stopCtx_Err_result, stopCtx_Err_stopped).
      rewrite (stopCtx_Err_stopped env st3 H3). cbn [fst snd].
      destruct (IH (stopCtx_Err env st3).2 H4) as [Hall Hany].
      split; [|exact Hany]. intros Hts. apply Hall. by inversion Hts.
    + split; [|by right]. intros Hts. by inversion Hts.
Qed.

(** X6: On a hook that is already stopped, [renew] makes no signing call,
    resets no timer and writes to no sink: it only logs, and it ends, by
    returning when every task runner has a task. *)
Theorem renew_does_nothing_when_stopped fuel createIndex signedWIDs st :
  stopped st = true ->
  let r := renew env h fuel createIndex signedWIDs st in
  (r.1 = Returned \/ r.1 = Panicked)
  /\ (Forall (fun t => has_task t = true) (ar_tasks h) -> r.1 = Returned)
  /\ exists logs,
       trace r.2 = trace st ++ logs
       /\ sign_calls logs = [] /\ timer_resets logs = []
       /\ setAlt_calls logs = [] /\ Forall quiet logs.
Proof.
  intros Hst r. subst r. unfold renew.
  destruct (renew_tasks_stopped_outcome fuel createIndex signedWIDs (ar_tasks h)
              st Hst) as [Hall Hany].
  split; [exact Hany|]. split; [exact Hall|].
  destruct (renew_tasks_stopped env h fuel createIndex signedWIDs (ar_tasks h)
              st Hst) as (logs & Htr & Hq & _).
  exists logs. split; [done|].
  rewrite (quiet_sign_calls _ Hq), (quiet_timer_resets _ Hq).
  repeat split; try done.
  clear Htr. induction Hq as [|e l He _ IH]; [done|]. by destruct e.
Qed.

(** What [renew] does: it ends without a cycle, having only logged, or it
    runs the renewal loop of its first task. *)
Lemma renew_cases fuel createIndex signedWIDs st :
  let r := renew env h fuel createIndex signedWIDs st in
  (exists logs,
     trace r.2 = trace st ++ logs /\ Forall quiet logs
     /\ (r.1 = Returned \/ r.1 = Panicked))
  \/ exists task rest logs st4,
       ar_tasks h = Some task :: rest
       /\ trace st4 = trace st ++ logs /\ Forall quiet logs
       /\ stopped st4 = false
       /\ r = cycles env h fuel createIndex (renewal_requests (ar_alloc h) task)
                (sc_widMap (scan_of (ar_alloc h) task signedWIDs
                              (now_at env (n_now st))))
                (first_wait env h task signedWIDs st) 0
                (sc_minExp (scan_of (ar_alloc h) task signedWIDs
                              (now_at env (n_now st))))
                st4.
Proof.
  intros r. subst r. unfold renew.
  destruct (ar_tasks h) as [|[task|] rest] eqn:Hts.
  - left. exists []. rewrite app_nil_r. split; [done|]. split; [done|by left].
  - cbn [renew_tasks]. rewrite run_bind, renew_task_unfold.
    destruct (length (task_Identities task) =? 0)%nat.
    { left. eexists. cbn [fst snd]. rewrite run_ret. cbn. split; [done|].
      split; [by constructor|by left]. }
    cbv zeta.
    set (sc := scan_of (ar_alloc h) task signedWIDs (now_at env (n_now st))).
    set (st2 := add_events (now env st).2 (scan_logs signedWIDs (task_Identities task))).
    destruct (length (renewal_requests (ar_alloc h) task) =? 0)%nat.
    { left. eexists. cbn [fst snd]. rewrite run_ret. cbn. rewrite <- app_assoc.
      split; [done|]. split; [|by left].
      apply Forall_app. split; [apply scan_logs_quiet|by constructor]. }
    assert (Hw : (if negb (sc_renewNow sc)
                  then expiryToRenewTime env (sc_minExp sc) (minWait h)
                  else mret 0) st2
                 = (first_wait env h task signedWIDs st,
                    if sc_renewNow sc then st2
                    else (expiryToRenewTime env (sc_minExp sc) (minWait h) st2).2)).
    { unfold first_wait. fold sc. by destruct (sc_renewNow sc). }
    rewrite Hw. cbn [fst snd].
    set (st3 := if sc_renewNow sc then st2 else _).
    assert (Htr3 : trace st3 = trace st ++ scan_logs signedWIDs (task_Identities task)).
    { subst st3. by destruct (sc_renewNow sc). }
    destruct (emits_stopCtx_Err env quiet st3) as (l4 & Htr4 & Hq4 & _).
    destruct (stopCtx_Err env st3).1 eqn:Herr; cbn [fst snd].
    + left.
      assert (Hs : stopped (stopCtx_Err env st3).2 = true)
        by (by rewrite <- stopCtx_Err_result).
      destruct (renew_tasks_stopped env h fuel createIndex signedWIDs rest _ Hs)
        as (l5 & Htr5 & Hq5 & _).
      exists (scan_logs signedWIDs (task_Identities task) ++ l4 ++ l5).
      rewrite Htr5, Htr4, Htr3, <- !app_assoc. split; [done|].
      split; [by rewrite !Forall_app; auto using scan_logs_quiet|].
      by apply renew_tasks_stopped_outcome.
    + right. exists task, rest,
        (scan_logs signedWIDs (task_Identities task) ++ l4),
        (stopCtx_Err env st3).2.
      split; [done|]. rewrite Htr4, Htr3, <- app_assoc. split; [done|].
      split; [by rewrite Forall_app; auto using scan_logs_quiet|].
      split; [by rewrite <- stopCtx_Err_result|].
      rewrite run_ret. cbn [fst snd]. by destruct (cycles _ _ _ _ _ _ _ _ _ _).
  - left. exists []. cbn. rewrite app_nil_r. split; [done|]. split; [done|by right].
Qed.

End RenewMore.

(** ** [renew]: the renewal loop *)

Lemma rhythm_app a b : rhythm (a ++ b) = rhythm a ++ rhythm b.
Proof.
  induction a as [|e a IH]; [done|]. destruct e; cbn; by rewrite ?IH.
Qed.

Lemma sink_rhythm evs : Forall sink_event evs -> rhythm evs = [].
Proof. induction 1 as [|e evs He _ IH]; [done|]. by destruct e. Qed.

Lemma quiet_sink_event e : quiet e -> sink_event e.
Proof. by destruct e. Qed.

Lemma quiet_rhythm evs : Forall quiet evs -> rhythm evs = [].
Proof.
  intros H. apply sink_rhythm. eapply Forall_impl; [exact H|].
  apply quiet_sink_event.
Qed.

Lemma beats_snoc n : beats n ++ [true; false] = beats (S n).
Proof. induction n as [|n IH]; [done|]. cbn. by rewrite IH. Qed.

Section Loop.

Variable env : Env.
Context {helper : Helper}.
Variable h : identityHook.

Lemma emits_sink_applyTokens widMap retry tokens minExp :
  emits sink_event (applyTokens env h widMap retry tokens minExp).
Proof.
  revert minExp. induction tokens as [|token tokens IH]; intros minExp;
    cbn [applyTokens]; [apply emits_ret|].
  destruct (widMap !! swi_IdentityName token).
  - apply emits_bind; [by apply emits_setAltToken|]. intros [err|]; [|done].
    apply emits_bind; [apply emits_now|]. intros.
    apply emits_bind; [apply emits_randomStagger|]. intros.
    apply emits_bind; [by apply emits_log|done].
  - apply emits_bind; [by apply emits_log|done].
Qed.

(** The events of a cycle after its signing call are logs and writes to the
    sinks. *)
Lemma cycle_after_call createIndex reqs widMap wait retry minExp st :
  (select_timer_or_done env (asleep st wait)).1 = true ->
  exists more,
    trace (cycle env h createIndex reqs widMap wait retry minExp st).2
    = trace st ++ [EvLog LDebug "waiting to renew identities";
                   EvTimerReset wait;
                   EvLog LTrace "getting new signed identities";
                   EvSignIdentities createIndex reqs] ++ more
    /\ Forall sink_event more
    /\ (cycle env h createIndex reqs widMap wait retry minExp st).1 <> Return.
Proof.
  intros Hsel. rewrite cycle_unfold. cbv zeta. rewrite Hsel.
  destruct (select_state env (asleep st wait)) as (Htr & _).
  set (r := SignIdentities env createIndex reqs _).
  assert (Hr : trace r.2
               = trace st ++ [EvLog LDebug "waiting to renew identities";
                              EvTimerReset wait;
                              EvLog LTrace "getting new signed identities";
                              EvSignIdentities createIndex reqs]).
  { subst r. cbn. rewrite Htr. cbn. by rewrite <- !app_assoc. }
  assert (Hfail : exists more,
            trace (cycleFailed env h retry minExp r.2).2 = trace r.2 ++ more
            /\ Forall sink_event more
            /\ (cycleFailed env h retry minExp r.2).1 <> Return).
  { rewrite cycleFailed_run. eexists. split; [reflexivity|].
    split; [by constructor|done]. }
  destruct r.1 as [tokens|err].
  - destruct (length tokens =? 0)%nat.
    + destruct Hfail as (more & Hm & Hs & Hne). exists more.
      by rewrite Hm, Hr, <- app_assoc.
    + destruct (emits_sink_applyTokens widMap retry tokens zeroTime r.2)
        as (more & Hm & Hs & _).
      exists more. cbn [fst snd]. split; [|done].
      change (trace (expiryToRenewTime env ?e ?w ?s).2) with (trace s).
      by rewrite Hm, Hr, <- app_assoc.
  - destruct Hfail as (more & Hm & Hs & Hne). exists more.
    by rewrite Hm, Hr, <- app_assoc.
Qed.

Lemma cycle_rhythm createIndex reqs widMap wait retry minExp st :
  exists new,
    trace (cycle env h createIndex reqs widMap wait retry minExp st).2
    = trace st ++ new
    /\ rhythm new
       = match (cycle env h createIndex reqs widMap wait retry minExp st).1 with
         | Return => [true]
         | Continue _ _ _ => [true; false]
         end
    /\ timer_resets new = [wait].
Proof.
  destruct (select_timer_or_done env (asleep st wait)).1 eqn:Hsel.
  - destruct (cycle_after_call createIndex reqs widMap wait retry minExp st Hsel)
      as (more & Htr & Hs & Hne).
    eexists. split; [exact Htr|].
    rewrite rhythm_app, timer_resets_app, (sink_rhythm _ Hs).
    assert (timer_resets more = []) as ->.
    { clear Htr. induction Hs as [|e l He _ IH]; [done|]. by destruct e. }
    by destruct (cycle _ _ _ _ _ _ _ _ _).1.
  - rewrite (cycle_Done env h createIndex reqs widMap wait retry minExp st Hsel).
    destruct (select_state env (asleep st wait)) as (Htr & _).
    eexists. cbn [fst snd]. rewrite Htr. split; [reflexivity|done].
Qed.

Lemma cycles_rhythm fuel createIndex reqs widMap wait retry minExp st :
  let r := cycles env h fuel createIndex reqs widMap wait retry minExp st in
  exists new n,
    trace r.2 = trace st ++ new
    /\ match r.1 with
       | Running _ _ _ => n = fuel /\ rhythm new = beats n
       | Returned => (n < fuel)%nat /\ rhythm new = beats n ++ [true]
       | Panicked => False
       end.
Proof.
  revert wait retry minExp st. induction fuel as [|fuel IH]; intros; subst r.
  - exists [], 0%nat. cbn. by rewrite app_nil_r.
  - cbn [cycles]. rewrite run_bind.
    destruct (cycle_rhythm createIndex reqs widMap wait retry minExp st)
      as (new1 & Htr1 & Hrh1 & _).
    destruct (cycle env h createIndex reqs widMap wait retry minExp st).1
      as [w r m|].
    + destruct (IH w r m (cycle env h createIndex reqs widMap wait retry minExp st).2)
        as (new2 & n & Htr2 & Hrh2).
      exists (new1 ++ new2), (S n). rewrite Htr2, Htr1, <- app_assoc.
      split; [done|]. rewrite rhythm_app, Hrh1.
      destruct (cycles _ _ _ _ _ _ _ _ _ _).1; [|done|].
      * destruct Hrh2 as [Hn ->]. split; [lia|done].
      * destruct Hrh2 as [-> ->]. done.
    + exists new1, 0%nat. rewrite run_ret. cbn [fst snd].
      split; [done|]. split; [lia|done].
Qed.

(** X8: [renew] never makes a signing call without having reset the timer
    and waited for it, and never resets the timer twice without a signing
    call in between: the resets and the calls of its trace alternate,
    starting with a reset.  After [fuel] cycles it has made [fuel] calls; if
    it returned before, its last reset was followed by no call. *)
Theorem renew_waits_before_every_call fuel createIndex signedWIDs st :
  let r := renew env h fuel createIndex signedWIDs st in
  exists new n,
    trace r.2 = trace st ++ new
    /\ (n <= fuel)%nat
    /\ (rhythm new = beats n \/ rhythm new = beats n ++ [true])
    /\ (forall wait retry minExp,
          r.1 = Running wait retry minExp -> rhythm new = beats fuel).
Proof.
  intros r. subst r.
  destruct (renew_cases env h fuel createIndex signedWIDs st)
    as [(logs & Htr & Hq & Hend)
       |(task & rest & logs & st4 & Hts & Htr4 & Hq & _ & Hrun)].
  - exists logs, 0%nat. split; [done|]. split; [lia|].
    rewrite (quiet_rhythm _ Hq). split; [by left|].
    intros w r m Hr. destruct Hend as [He|He]; congruence.
  - rewrite Hrun.
    match goal with |- context [cycles env h fuel ?a ?b ?c ?d ?e ?f ?s] =>
      destruct (cycles_rhythm fuel a b c d e f s) as (new & n & Htr & Hrh) end.
    exists (logs ++ new), n. rewrite Htr, Htr4, <- app_assoc. split; [done|].
    rewrite rhythm_app, (quiet_rhythm _ Hq). cbn [app].
    destruct (cycles _ _ _ _ _ _ _ _ _ _).1; [|done|].
    + destruct Hrh as [Hn ->]. split; [lia|]. split; [by right|done].
    + destruct Hrh as [-> ->]. split; [lia|]. split; [by left|done].
Qed.

End Loop.

(** ** The waits of the renewal loop *)

Section Floor.

Variable env : Env.
Context {helper : Helper}.
Variable h : identityHook.
Context {contract : HelperContract helper}.
Hypothesis floor_range : 0 < minWait h <= Hour.

(** The wait that a cycle computes is at least the floor, and its retry
    counter is at most one more than before. *)
Lemma cycle_next_wait createIndex reqs widMap wait retry minExp st :
  0 <= retry < 2 ^ 64 - 1 ->
  match (cycle env h createIndex reqs widMap wait retry minExp st).1 with
  | Continue wait' retry' _ => minWait h <= wait' /\ 0 <= retry' <= retry + 1
  | Return => True
  end.
Proof.
  intros Hretry. rewrite cycle_unfold. cbv zeta.
  destruct (select_timer_or_done env (asleep st wait)).1; [|done].
  assert (Hfail : forall s,
    match (cycleFailed env h retry minExp s).1 with
    | Continue wait' retry' _ => minWait h <= wait' /\ 0 <= retry' <= retry + 1
    | Return => True
    end).
  { intros s. rewrite cycleFailed_run. cbn [fst].
    rewrite u64_succ_small by done.
    split; [|lia]. by apply (failure_wait_bounds h floor_range). }
  destruct (SignIdentities env createIndex reqs _).1 as [tokens|err];
    [|apply Hfail].
  destruct (length tokens =? 0)%nat; [apply Hfail|].
  cbn [fst]. split; [|lia]. apply renew_floor.
Qed.

Lemma cycles_floor fuel createIndex reqs widMap wait retry minExp st :
  0 <= retry -> retry + Z.of_nat fuel < 2 ^ 64 - 1 ->
  let r := cycles env h fuel createIndex reqs widMap wait retry minExp st in
  exists new,
    trace r.2 = trace st ++ new
    /\ (timer_resets new = []
        \/ exists rest,
             timer_resets new = wait :: rest
             /\ Forall (fun w => minWait h <= w) rest)
    /\ (forall wait' retry' minExp',
          r.1 = Running wait' retry' minExp' ->
          fuel <> 0%nat -> minWait h <= wait').
Proof.
  revert wait retry minExp st. induction fuel as [|fuel IH];
    intros wait retry minExp st Hretry Hfuel r; subst r.
  - exists []. rewrite app_nil_r. split; [done|]. split; [by left|done].
  - cbn [cycles]. rewrite run_bind.
    pose proof (cycle_next_wait createIndex reqs widMap wait retry minExp st
                  ltac:(lia)) as Hnext.
    destruct (cycle_rhythm env h createIndex reqs widMap wait retry minExp st)
      as (new1 & Htr1 & _ & Hres1).
    destruct (cycle env h createIndex reqs widMap wait retry minExp st).1
      as [w r m|].
    + destruct Hnext as [Hw Hr].
      destruct (IH w r m (cycle env h createIndex reqs widMap wait retry minExp st).2
                  ltac:(lia) ltac:(lia)) as (new2 & Htr2 & Hres2 & Hrun2).
      exists (new1 ++ new2). rewrite Htr2, Htr1, <- app_assoc.
      split; [done|]. rewrite timer_resets_app, Hres1. cbn [app]. split.
      * right. exists (timer_resets new2). split; [done|].
        destruct Hres2 as [->|(rest & -> & Hrest)]; [done|by constructor].
      * intros w' r' m' Hrun _. destruct fuel as [|fuel].
        -- cbn in Hrun. injection Hrun as <- _ _. exact Hw.
        -- by eapply Hrun2.
    + exists new1. rewrite run_ret. cbn [fst snd]. split; [done|].
      split; [|done]. right. exists []. by rewrite Hres1.
Qed.

(** X9: No busy loop.  With a helper that keeps its contract and a floor
    between zero and one hour, every wait of [renew] but the first is at
    least the floor: the timer is never reset to less, and the wait that the
    loop stands with after its cycles is not less either. *)
Theorem renew_waits_at_least_the_floor fuel createIndex signedWIDs st :
  Z.of_nat fuel < 2 ^ 64 - 1 ->
  let r := renew env h fuel createIndex signedWIDs st in
  exists new,
    trace r.2 = trace st ++ new
    /\ Forall (fun w => minWait h <= w) (tail (timer_resets new))
    /\ (forall wait retry minExp,
          r.1 = Running wait retry minExp -> fuel <> 0%nat -> minWait h <= wait).
Proof.
  intros Hfuel r. subst r.
  destruct (renew_cases env h fuel createIndex signedWIDs st)
    as [(logs & Htr & Hq & Hend)
       |(task & rest & logs & st4 & Hts & Htr4 & Hq & _ & Hrun)].
  - exists logs. split; [done|]. rewrite (quiet_timer_resets _ Hq).
    split; [constructor|]. intros w r m Hr. destruct Hend; congruence.
  - rewrite Hrun.
    match goal with |- context [cycles env h fuel ?a ?b ?c ?d ?e ?f ?s] =>
      destruct (cycles_floor fuel a b c d e f s ltac:(lia) ltac:(lia))
        as (new & Htr & Hres & Hw) end.
    exists (logs ++ new). rewrite Htr, Htr4, <- app_assoc. split; [done|].
    rewrite timer_resets_app, (quiet_timer_resets _ Hq). cbn [app].
    split; [|exact Hw].
    destruct Hres as [->|(rest' & -> & Hrest)]; [constructor|done].
Qed.

End Floor.

(** ** The loop over the tokens *)

Section Tokens.

Variable env : Env.
Context {helper : Helper}.
Variable h : identityHook.

(** The tokens are handled one after the other. *)
Lemma applyTokens_app widMap retry tokens1 tokens2 minExp st :
  applyTokens env h widMap retry (tokens1 ++ tokens2) minExp st
  = applyTokens env h widMap retry tokens2
      (applyTokens env h widMap retry tokens1 minExp st).1
      (applyTokens env h widMap retry tokens1 minExp st).2.
Proof.
  revert minExp st. induction tokens1 as [|token tokens1 IH]; intros minExp st;
    [done|].
  cbn [app applyTokens]. destruct (widMap !! swi_IdentityName token).
  - rewrite !run_bind. destruct (setAltToken env _ _ _).1; [|apply IH].
    rewrite !run_bind. apply IH.
  - rewrite !run_bind. apply IH.
Qed.

(** X10: The [minExp] of a cycle is not always the earliest expiration.
    When the write of the last returned token fails, [minExp] ends as the
    reading of the clock plus the backoff and the jitter, whatever the
    expirations of the tokens written before, also when one of them is
    earlier than that. *)
Theorem last_sink_failure_overwrites_minExp
    (widMap : gmap string WorkloadIdentity) (retry : Z)
    (tokens : list SignedWorkloadIdentity) (token : SignedWorkloadIdentity)
    (minExp : Time) (st : St) (widspec : WorkloadIdentity) (err : error) :
  let before := applyTokens env h widMap retry tokens minExp st in
  widMap !! swi_IdentityName token = Some widspec ->
  setAlt_at env (n_setAlt before.2) widspec (swi_JWT token) = Some err ->
  (applyTokens env h widMap retry (tokens ++ [token]) minExp st).1
  = time_Add (now_at env (n_now before.2))
      (dur_add (Backoff (minWait h) Hour (u64_succ retry))
               (RandomStagger (minWait h) (rand_at env (n_rand before.2)))).
Proof.
  intros before Hspec Hfail. rewrite applyTokens_app. fold before.
  cbn [applyTokens]. rewrite Hspec, run_bind. cbn [setAltToken fst snd].
  rewrite Hfail. unfold randomStagger. run. reflexivity.
Qed.

Lemma applyTokens_unknown widMap retry tokens minExp st :
  Forall (fun token => widMap !! swi_IdentityName token = None) tokens ->
  applyTokens env h widMap retry tokens minExp st
  = (minExp, add_events st (unexpected_logs (length tokens))).
Proof.
  intros Hun. revert st. induction Hun as [|token tokens Hn _ IH]; intros st.
  - by rewrite add_events_nil.
  - cbn [applyTokens]. rewrite Hn, run_bind, IH. cbn [log emit snd].
    f_equal. unfold add_events. cbn. by rewrite <- app_assoc.
Qed.

(** X11: An answer of the signer that only holds signed identities that
    were not requested is not handled as a failure.  The cycle writes to no
    sink, warns once for each of them, resets the retry counter to zero and
    leaves [minExp] at the zero time, so the next wait is the renewal time
    of the zero time. *)
Theorem unexpected_identities_count_as_success
    (createIndex : Z) (reqs : list WorkloadIdentityRequest)
    (widMap : gmap string WorkloadIdentity) (wait : Duration) (retry : Z)
    (minExp : Time) (st : St) (tokens : list SignedWorkloadIdentity) :
  (select_timer_or_done env (asleep st wait)).1 = true ->
  sign_at env (n_sign st) createIndex reqs = inl tokens ->
  tokens <> [] ->
  Forall (fun token => widMap !! swi_IdentityName token = None) tokens ->
  let c := cycle env h createIndex reqs widMap wait retry minExp st in
  c.1 = Continue (ExpiryToRenewTime zeroTime (now_at env (n_now st))
                    (rand_at env (n_rand st)) (minWait h))
                 0 zeroTime
  /\ trace c.2
     = trace st ++ [EvLog LDebug "waiting to renew identities";
                    EvTimerReset wait;
                    EvLog LTrace "getting new signed identities";
                    EvSignIdentities createIndex reqs]
                ++ unexpected_logs (length tokens)
  /\ n_setAlt c.2 = n_setAlt st.
Proof.
  intros Hsel Hans Hne Hun c. subst c. rewrite cycle_unfold. cbv zeta.
  rewrite Hsel.
  destruct (select_state env (asleep st wait))
    as (Htr & Hsign & Hrand & Hnow & Halt & _).
  cbn [SignIdentities fst snd add_events n_sign]. rewrite Hsign.
  change (n_sign (asleep st wait)) with (n_sign st). rewrite Hans.
  destruct tokens as [|t ts]; [done|]. cbn [length Nat.eqb].
  rewrite applyTokens_unknown by done. cbn [fst snd].
  unfold expiryToRenewTime. run.
  cbn. rewrite ?Htr, ?Hrand, ?Hnow, ?Halt. cbn. by rewrite <- !app_assoc.
Qed.

End Tokens.

(** ** The identities that a renewal loop knows *)

Section Known.

Variable alloc : Allocation.
Variable task : Task.
Variable signedWIDs : gmap string SignedWorkloadIdentity.

Lemma scan_widMap_lookup wids sc name :
  sc_widMap (scan_result alloc task signedWIDs wids sc) !! name
  = match last (filter (fun wid => wid_Name wid = name) (candidates wids)) with
    | Some wid => Some wid
    | None => sc_widMap sc !! name
    end.
Proof.
  revert sc. induction wids as [|wid wids IH]; intros sc;
    cbn [scan_result candidates List.filter]; [done|].
  destruct (wid_TTL wid =? 0); cbn [negb]; [apply IH|].
  assert (Hstep : forall rn me,
    sc_widMap (scan_result alloc task signedWIDs wids
                 (mkScan (sc_reqs sc ++ [requestFor alloc task wid]) rn me
                    (<[wid_Name wid := wid]> (sc_widMap sc)))) !! name
    = match last (filter (fun w => wid_Name w = name) (wid :: candidates wids)) with
      | Some w => Some w
      | None => sc_widMap sc !! name
      end).
  { intros rn me. rewrite IH. cbn [sc_widMap].
    destruct (decide (wid_Name wid = name)) as [Heq|Hne].
    - rewrite filter_cons_True by done. rewrite last_cons.
      destruct (last (filter _ (candidates wids))); [done|].
      rewrite <- Heq. apply lookup_insert_eq.
    - rewrite filter_cons_False by done.
      destruct (last (filter _ (candidates wids))); [done|].
      by apply lookup_insert_ne. }
  destruct (signedWIDs !! wid_Name wid); apply Hstep.
Qed.

End Known.

Section KnownTokens.

Variable env : Env.
Context {helper : Helper}.
Variable h : identityHook.

Lemma last_named_Some (wids : list WorkloadIdentity) name w :
  last (filter (fun wid => wid_Name wid = name) wids) = Some w ->
  wid_Name w = name /\ In w wids.
Proof.
  intros Hl. apply last_Some_elem_of, list_elem_of_filter in Hl.
  destruct Hl as [Hn Hin]. split; [done|]. by apply list_elem_of_In.
Qed.

Lemma last_named_is_Some (wids : list WorkloadIdentity) name wid :
  In wid wids -> wid_Name wid = name ->
  is_Some (last (filter (fun wid => wid_Name wid = name) wids)).
Proof.
  intros Hin Hn. apply last_is_Some. intros Hnil.
  assert (wid ∈ filter (fun wid => wid_Name wid = name) wids) as Hel
    by (apply list_elem_of_filter; split; [done|by apply list_elem_of_In]).
  rewrite Hnil in Hel. by apply not_elem_of_nil in Hel.
Qed.

(** X12: The renewal loop of a task knows the identities of the task by
    name: the map of the specifications binds a name to the last identity
    with a TTL that bears it, and binds no other name.  So every returned
    token that bears the name of a requested identity is written to the
    sink of an identity of that name, in the order of the answer, whatever
    writes fail. *)
Theorem requested_tokens_are_written
    (alloc : Allocation) (task : Task)
    (signedWIDs : gmap string SignedWorkloadIdentity) (t0 : Time) (retry : Z)
    (tokens : list SignedWorkloadIdentity) (minExp : Time) (st : St) :
  let wids := candidates (task_Identities task) in
  let widMap := sc_widMap (scan_of alloc task signedWIDs t0) in
  Forall (fun token =>
            exists wid, In wid wids /\ wid_Name wid = swi_IdentityName token)
         tokens ->
  (forall name,
     widMap !! name = last (filter (fun wid => wid_Name wid = name) wids))
  /\ exists new,
       trace (applyTokens env h widMap retry tokens minExp st).2 = trace st ++ new
       /\ Forall2 (written_for wids) (setAlt_calls new) tokens.
Proof.
  intros wids widMap Hreq.
  assert (Hlookup : forall name,
            widMap !! name = last (filter (fun wid => wid_Name wid = name) wids)).
  { intros name. subst widMap wids. unfold scan_of. rewrite scan_widMap_lookup.
    cbn [sc_widMap]. destruct (last _); [done|]. apply lookup_empty. }
  split; [exact Hlookup|].
  destruct (applyTokens_setAlt_calls env h widMap retry tokens minExp st)
    as (new & Htr & Hcalls).
  exists new. split; [exact Htr|]. rewrite Hcalls. clear Htr Hcalls.
  induction Hreq as [|token tokens (wid & Hin & Hname) _ IH]; [constructor|].
  cbn [omap list_omap]. rewrite Hlookup.
  destruct (last_named_is_Some wids _ wid Hin Hname) as [w Hw].
  rewrite Hw. cbn. constructor; [|exact IH].
  destruct (last_named_Some _ _ _ Hw) as [Hn Hinw]. by repeat split.
Qed.

End KnownTokens.

(** ** The first wait, again *)

(** X13: One missing token is enough.  When an identity of the first task
    with a TTL has no signed identity in the map handed to [renew], the wait
    before the first cycle is zero, whatever the expirations of the signed
    identities that the others have: the first reset of the timer, if
    [renew] gets to one, is to zero, and it gets to one when the context is
    not cancelled and a cycle is looked at. *)
Theorem one_missing_token_renews_at_once
    (env : Env) (helper : Helper) (h : identityHook) (fuel : nat)
    (createIndex : Z) (signedWIDs : gmap string SignedWorkloadIdentity)
    (task : Task) (rest : list (option Task)) (wid : WorkloadIdentity) (st : St) :
  ar_tasks h = Some task :: rest ->
  In wid (candidates (task_Identities task)) ->
  signedWIDs !! wid_Name wid = None ->
  first_wait env h task signedWIDs st = 0
  /\ exists new,
       trace (renew env h fuel createIndex signedWIDs st).2 = trace st ++ new
       /\ (head (timer_resets new) = None \/ head (timer_resets new) = Some 0)
       /\ (stopped st = false -> calls_at env (n_ctx st) = [] -> fuel <> 0%nat ->
           head (timer_resets new) = Some 0).
Proof.
  intros Hts Hin Hnone.
  assert (Hfw : first_wait env h task signedWIDs st = 0).
  { unfold first_wait, scan_of.
    by rewrite (scan_renewNow_missing _ _ _ _ _ wid Hin Hnone). }
  split; [exact Hfw|].
  destruct (renew_first_reset env h fuel createIndex signedWIDs task rest st Hts)
    as (new & Htr & Hhead & Hrun).
  { apply renewal_requests_nonempty. by destruct (candidates _). }
  rewrite Hfw in *. exists new. split; [done|]. split; [done|].
  intros Hs Hc Hf. destruct (Hrun Hs Hc Hf) as (logs & more & -> & Hq).
  by rewrite timer_resets_app, (quiet_timer_resets _ Hq).
Qed.

(** ** From the creation of the hook on *)

Lemma quiet_setAlt_calls evs : Forall quiet evs -> setAlt_calls evs = [].
Proof. induction 1 as [|e evs He _ IH]; [done|]. by destruct e. Qed.

Lemma setAlt_calls_app a b :
  setAlt_calls (a ++ b) = setAlt_calls a ++ setAlt_calls b.
Proof.
  induction a as [|e a IH]; [done|]. destruct e; cbn; by rewrite ?IH.
Qed.

Section NilSignerProofs.

Variable env : Env.
Context {helper : Helper}.
Variable h : identityHook.

Lemma cycle_nil_widmgr_run wait st :
  cycle_nil_widmgr env wait st
  = let s := select_timer_or_done env (asleep st wait) in
    if s.1 then
      (Panicked, add_events s.2 [EvLog LTrace "getting new signed identities"])
    else (Returned, s.2).
Proof.
  unfold cycle_nil_widmgr. rewrite !run_bind.
  assert ((emit (EvTimerReset wait)
             (log LDebug "waiting to renew identities" st).2).2 = asleep st wait) as ->.
  { unfold asleep, add_events. cbn. by rewrite <- app_assoc. }
  cbv zeta. destruct (select_timer_or_done env (asleep st wait)).1; [|reflexivity].
  by rewrite run_bind, run_ret.
Qed.

Lemma renew_of_nil_run fuel createIndex signedWIDs st :
  renew_of env (mkFields h None) fuel createIndex signedWIDs st
  = let r0 := renew env h 0 createIndex signedWIDs st in
    match r0.1 with
    | Running wait _ _ => cycle_nil_widmgr env wait r0.2
    | Returned => (Returned, r0.2)
    | Panicked => (Panicked, r0.2)
    end.
Proof.
  unfold renew_of. cbn [widmgr hook]. rewrite run_bind. cbv zeta.
  by destruct (renew env h 0 createIndex signedWIDs st).1.
Qed.

(** What [renew] does on a hook without a signer of its own: it ends
    without a cycle, having only logged, or it starts the first cycle of the
    renewal loop of its first task, which ends it. *)
Lemma renew_of_nil_cases fuel createIndex signedWIDs st :
  let r := renew_of env (mkFields h None) fuel createIndex signedWIDs st in
  (exists logs,
     trace r.2 = trace st ++ logs /\ Forall quiet logs
     /\ (r.1 = Returned \/ r.1 = Panicked)
     /\ (renew env h 0 createIndex signedWIDs st).1 = r.1)
  \/ exists task rest logs st4,
       ar_tasks h = Some task :: rest
       /\ trace st4 = trace st ++ logs /\ Forall quiet logs
       /\ stopped st4 = false
       /\ r = cycle_nil_widmgr env (first_wait env h task signedWIDs st) st4.
Proof.
  intros r. subst r. rewrite renew_of_nil_run. cbv zeta.
  destruct (renew_cases env h 0 createIndex signedWIDs st)
    as [(logs & Htr & Hq & Hend)
       |(task & rest & logs & st4 & Hts & Htr4 & Hq & Hst4 & Hrun)].
  - left. exists logs.
    destruct Hend as [E|E]; rewrite E; cbn [fst snd];
      (split; [done|]; split; [done|]; split; [auto|done]).
  - right. exists task, rest, logs, st4. rewrite Hrun. cbn [cycles].
    rewrite run_ret. by cbn [fst snd].
Qed.

End NilSignerProofs.

(** X14: A hook as [newIdentityHook] makes it never renews a token.  It has
    a floor of ten seconds, a context that is not cancelled, whatever
    happened before, and no signer of its own: its field [widmgr] is [nil].
    [Prerun] does not need it ([getIdentities] calls the signer of the
    allocation runner), but the [renew] that [Prerun] starts does: it makes
    no signing call and writes to no sink, and it ends, returning or
    panicking.  When the first task has an identity with a TTL and no call
    of [Stop] or [Shutdown] lands, it logs, resets the timer to zero, waits,
    and panics at its first renewal call. *)
Theorem new_hook_panics_at_first_renewal
    (env : Env) (helper : Helper) (alloc : Allocation)
    (tasks : list (option Task)) (fuel : nat) (st : St) :
  let n := newIdentityHook alloc tasks st in
  let p := Prerun env (hook n.1) n.2 in
  let r := renew_of env n.1 fuel (alloc_CreateIndex alloc) ∅ p.2 in
  hook n.1 = mkHook alloc tasks (10 * Second)
  /\ widmgr n.1 = None
  /\ stopped n.2 = false /\ trace n.2 = trace st
  /\ (exists new,
        trace r.2 = trace p.2 ++ new
        /\ sign_calls new = [] /\ setAlt_calls new = []
        /\ (r.1 = Returned \/ r.1 = Panicked))
  /\ (forall task rest,
        tasks = Some task :: rest ->
        candidates (task_Identities task) <> [] ->
        (forall k, calls_at env k = []) ->
        r.1 = Panicked
        /\ exists logs,
             Forall quiet logs
             /\ trace r.2
                = trace p.2 ++ logs
                    ++ [EvLog LDebug "waiting to renew identities";
                        EvTimerReset 0;
                        EvLog LTrace "getting new signed identities"]).
Proof.
  intros n p r. subst n p r. cbn [newIdentityHook fst snd hook widmgr].
  set (h := mkHook alloc tasks (10 * Second)).
  set (st0 := mkSt false _ _ _ _ _ _).
  set (stP := (Prerun env h st0).2).
  split; [done|]. split; [done|]. split; [done|]. split; [done|].
  split.
  - destruct (renew_of_nil_cases env h fuel (alloc_CreateIndex alloc) ∅ stP)
      as [(logs & Htr & Hq & Hend & _)
         |(task & rest & logs & st4 & Hts & Htr4 & Hq & Hst4 & Hrun)].
    + exists logs. split; [done|].
      by rewrite (quiet_sign_calls _ Hq), (quiet_setAlt_calls _ Hq).
    + rewrite Hrun, cycle_nil_widmgr_run. cbv zeta.
      destruct (select_state env (asleep st4 (first_wait env h task ∅ stP)))
        as (Htr & _).
      destruct (select_timer_or_done env _).1; cbn [fst snd].
      * eexists (logs ++ [_; _; _]). cbn [add_events trace].
        rewrite Htr. cbn [asleep add_events trace]. rewrite Htr4, <- !app_assoc.
        split; [reflexivity|]. rewrite sign_calls_app, (quiet_sign_calls _ Hq).
        split; [done|]. split; [|by right].
        by rewrite setAlt_calls_app, (quiet_setAlt_calls _ Hq).
      * eexists (logs ++ [_; _]).
        rewrite Htr. cbn [asleep add_events trace]. rewrite Htr4, <- !app_assoc.
        split; [reflexivity|]. rewrite sign_calls_app, (quiet_sign_calls _ Hq).
        split; [done|]. split; [|by left].
        by rewrite setAlt_calls_app, (quiet_setAlt_calls _ Hq).
  - intros task rest -> Hcand Hcalls.
    assert (HsP : stopped stP = false).
    { subst stP. unfold Prerun. rewrite run_bind.
      destruct (Prerun_tasks_frame env h (ar_tasks h) st0) as (Hs & _).
      destruct (Prerun_tasks env h (ar_tasks h) st0).1; [exact Hs|].
      rewrite run_bind, run_ret. exact Hs. }
    destruct (renew_no_calls env h Hcalls 0 (alloc_CreateIndex alloc) ∅
                task rest stP eq_refl Hcand HsP) as (w0 & r0 & m0 & Hrun0).
    destruct (renew_of_nil_cases env h fuel (alloc_CreateIndex alloc) ∅ stP)
      as [(logs & Htr & Hq & Hend & Hsame)
         |(task' & rest' & logs & st4 & Hts & Htr4 & Hq & Hst4 & Hrun)].
    { rewrite Hrun0 in Hsame. destruct Hend as [E|E]; congruence. }
    injection Hts as <- <-.
    assert (Hfw : first_wait env h task ∅ stP = 0).
    { unfold first_wait.
      assert (sc_renewNow (scan_of (ar_alloc h) task ∅ (now_at env (n_now stP)))
              = true) as ->; [|done].
      destruct (candidates (task_Identities task)) as [|wid l] eqn:E; [done|].
      unfold scan_of. eapply scan_renewNow_missing with (wid := wid).
      - rewrite E. by left.
      - apply lookup_empty. }
    rewrite Hrun, Hfw, cycle_nil_widmgr_run. cbv zeta.
    destruct (select_no_calls env Hcalls (asleep st4 0) Hst4) as [Hsel _].
    destruct (select_state env (asleep st4 0)) as (Htr & _).
    rewrite Hsel. cbn [fst snd]. split; [done|]. exists logs. split; [done|].
    cbn [add_events trace]. rewrite Htr. cbn [asleep add_events trace].
    by rewrite Htr4, <- !app_assoc.
Qed.

(** ** The properties on the example allocation *)

Lemma getIdentities_binds_every_identity_witness :
  exists widMap,
    (getIdentities ex_env ex_alloc ex_web initSt).1 = inl (Some widMap)
    /\ widMap !! "static" = Some "jwt-static"
    /\ widMap !! "vault" = Some "jwt-vault"
    /\ widMap !! "consul" = None.
Proof.
  destruct (getIdentities_binds_every_identity ex_env ex_alloc ex_web initSt
              ex_sign) as (widMap & Hres & Hlookup).
  - discriminate.
  - reflexivity.
  - reflexivity.
  - exists widMap. split; [exact Hres|]. rewrite !Hlookup. by vm_compute.
Defined.

Lemma Prerun_publishes_once_per_task_witness :
  (exists new,
     trace (Prerun ex_env ex_hook initSt).2 = trace initSt ++ new
     /\ Forall2 publication_of [ex_web; ex_db] (publications new))
  /\ exists new served task rest pre,
       trace (Prerun ex_env_sink_down ex_hook initSt).2 = trace initSt ++ new
       /\ [ex_web; ex_db] = served ++ task :: rest
       /\ Forall2 publication_of served (publications new)
       /\ new = pre ++ [EvSignIdentities 42
                          (map (requestFor ex_alloc task) (task_Identities task))].
Proof.
  split.
  - destruct (Prerun_publishes_once_per_task ex_env ex_hook initSt)
      as (new & served & rest & Htr & Hts & Hpub & Hend).
    exists new. split; [exact Htr|].
    replace (Prerun ex_env ex_hook initSt).1 with (@None error) in Hend
      by (by vm_compute).
    rewrite Hend, app_nil_r in Hts. cbn in Hts. by rewrite Hts.
  - destruct (Prerun_publishes_once_per_task ex_env_sink_down ex_hook initSt)
      as (new & served & rest & Htr & Hts & Hpub & Hend).
    replace (Prerun ex_env_sink_down ex_hook initSt).1
      with (Some (wrapError "error fetching alternate identities: "
                    (errorString "rpc error: no leader"))) in Hend
      by (by vm_compute).
    destruct Hend as (task & rest' & pre & err & -> & _ & Hnew & _ & _).
    exists new, served, task, rest', pre. done.
Defined.

Lemma renew_does_nothing_when_stopped_witness :
  (renew ex_env (helper := spec_helper) ex_hook 5 42 ∅ (stop initSt).2).1
  = Returned.
Proof.
  destruct (renew_does_nothing_when_stopped ex_env (helper := spec_helper)
              ex_hook 5 42 ∅ (stop initSt).2 eq_refl) as (_ & Hret & _).
  apply Hret. by repeat constructor.
Defined.

Lemma renew_waits_before_every_call_witness :
  exists new,
    trace (renew ex_env (helper := spec_helper) ex_hook 3 42 ∅ initSt).2
    = trace initSt ++ new
    /\ rhythm new = [true; false; true; false; true; false].
Proof.
  destruct (renew_waits_before_every_call ex_env (helper := spec_helper)
              ex_hook 3 42 ∅ initSt) as (new & n & Htr & _ & _ & Hrun).
  exists new. split; [exact Htr|].
  apply (Hrun 300000000007 0 (ex_now + 600 * Second)). by vm_compute.
Defined.

Lemma renew_waits_at_least_the_floor_witness :
  exists new,
    trace (renew ex_env_down (helper := spec_helper) ex_hook 4 42 ∅ initSt).2
    = trace initSt ++ new
    /\ Forall (fun w => minWait ex_hook <= w) (tail (timer_resets new)).
Proof.
  assert (Hrange : 0 < minWait ex_hook <= Hour) by (by vm_compute).
  assert (Hfuel : Z.of_nat 4 < 2 ^ 64 - 1) by (by vm_compute).
  pose proof (renew_waits_at_least_the_floor ex_env_down
                (helper := spec_helper) ex_hook
                (contract := spec_helper_contract) Hrange 4 42 ∅ initSt Hfuel)
    as Hfloor.
  cbv zeta in Hfloor. destruct Hfloor as (new & Htr & Hfloor & _).
  exists new. split; [exact Htr|exact Hfloor].
Defined.

Lemma last_sink_failure_overwrites_minExp_witness :
  let short := ex_sign (requestFor ex_alloc ex_api ex_short) in
  let vault := ex_sign (requestFor ex_alloc ex_api ex_vault) in
  let minExp :=
    (applyTokens ex_env_flaky (helper := spec_helper) ex_hook_api
       {["short" := ex_short; "vault" := ex_vault]} 0 ([short] ++ [vault]) 0
       initSt).1 in
  minExp = ex_now + 20000000007 /\ swi_Expiration short < minExp.
Proof.
  cbv zeta.
  rewrite (last_sink_failure_overwrites_minExp ex_env_flaky
             (helper := spec_helper) ex_hook_api
             {["short" := ex_short; "vault" := ex_vault]} 0
             [ex_sign (requestFor ex_alloc ex_api ex_short)]
             (ex_sign (requestFor ex_alloc ex_api ex_vault)) 0 initSt
             ex_vault (errorString "write nomad_token: no space left")
             ltac:(by vm_compute) ltac:(by vm_compute)).
  by vm_compute.
Defined.

Lemma unexpected_identities_count_as_success_witness :
  let widMap := sc_widMap (scan_of ex_alloc ex_web ∅ ex_now) in
  let c := cycle ex_env_stray (helper := spec_helper) ex_hook 42
             (renewal_requests ex_alloc ex_web) widMap 0 3 (ex_now + Hour)
             initSt in
  widMap !! "vault" = Some ex_vault
  /\ sign_at ex_env_stray 0 42 (renewal_requests ex_alloc ex_web)
     = inl [mkSigned "consul" "jwt-consul" (ex_now + Hour)]
  /\ c.1 = Continue 10000000007 0 0
  /\ setAlt_calls (trace c.2) = []
  /\ (renew ex_env_stray (helper := spec_helper) ex_hook 1 42 ∅ initSt).1
     = Running 10000000007 0 0.
Proof.
  cbv zeta.
  destruct (unexpected_identities_count_as_success ex_env_stray
              (helper := spec_helper) ex_hook 42
              (renewal_requests ex_alloc ex_web)
              (sc_widMap (scan_of ex_alloc ex_web ∅ ex_now))
              0 3 (ex_now + Hour) initSt
              [mkSigned "consul" "jwt-consul" (ex_now + Hour)])
    as (Hc & Htr & _).
  - by vm_compute.
  - reflexivity.
  - discriminate.
  - constructor; [by vm_compute|constructor].
  - split; [by vm_compute|]. split; [reflexivity|].
    split; [rewrite Hc; by vm_compute|]. split; [rewrite Htr; by vm_compute|].
    by vm_compute.
Defined.

Lemma requested_tokens_are_written_witness :
  exists new,
    trace (applyTokens ex_env_flaky (helper := spec_helper) ex_hook_api
             (sc_widMap (scan_of ex_alloc ex_api ∅ ex_now)) 0
             (map ex_sign (renewal_requests ex_alloc ex_api)) 0 initSt).2
    = trace initSt ++ new
    /\ Forall2 (written_for (candidates (task_Identities ex_api)))
               (setAlt_calls new)
               (map ex_sign (renewal_requests ex_alloc ex_api)).
Proof.
  destruct (requested_tokens_are_written ex_env_flaky (helper := spec_helper)
              ex_hook_api ex_alloc ex_api ∅ ex_now 0
              (map ex_sign (renewal_requests ex_alloc ex_api)) 0 initSt)
    as (_ & Hwritten).
  - repeat constructor.
    + exists ex_short. split; [by left|reflexivity].
    + exists ex_vault. split; [right; by left|reflexivity].
  - exact Hwritten.
Defined.

Lemma one_missing_token_renews_at_once_witness :
  first_wait ex_env (helper := spec_helper) ex_hook_api ex_api
    {["vault" := ex_sign (requestFor ex_alloc ex_api ex_vault)]} initSt
  = 0.
Proof.
  destruct (one_missing_token_renews_at_once ex_env spec_helper ex_hook_api 3 42
              {["vault" := ex_sign (requestFor ex_alloc ex_api ex_vault)]}
              ex_api [] ex_short initSt eq_refl) as (Hfw & _).
  - by left.
  - by vm_compute.
  - exact Hfw.
Defined.

Lemma new_hook_panics_at_first_renewal_witness :
  let n := newIdentityHook ex_alloc [Some ex_web; Some ex_db] (stop initSt).2 in
  let p := Prerun ex_env (hook n.1) n.2 in
  p.1 = None
  /\ (renew_of ex_env (helper := spec_helper) n.1 7 42 ∅ p.2).1 = Panicked
  /\ exists wait retry minExp,
       (renew ex_env (helper := spec_helper) (hook n.1) 7 42 ∅ p.2).1
       = Running wait retry minExp.
Proof.
  cbv zeta.
  destruct (new_hook_panics_at_first_renewal ex_env spec_helper ex_alloc
              [Some ex_web; Some ex_db] 7 (stop initSt).2)
    as (_ & _ & _ & _ & _ & Hpanic).
  destruct (Hpanic ex_web [Some ex_db] eq_refl) as (Hp & _).
  - vm_compute. discriminate.
  - reflexivity.
  - split; [by vm_compute|]. split; [exact Hp|].
    eexists _, _, _. by vm_compute.
Defined.
